(** * ICS-20 transfer keeper: the packet relay logic (keeper/relay.go)

    A shallow embedding of the transfer keeper's relay functions
    (SendTransfer, OnRecvPacket, OnAcknowledgementPacket, OnTimeoutPacket,
    the forwarded-packet handlers, refundPacketTokens, EscrowCoin,
    UnescrowCoin and createPacketDataBytesFromVersion) and the properties
    of the escrow ledger and of the send, receive and refund paths.

    Conventions of the embedding:
    - a Go function taking [ctx] is a computation in the monad [M] over the
      state [Ctx] (the stores reachable from the context); it either
      returns a value and a new state, or panics;
    - a Go [error] result is an [option error], [None] being [nil];
      a Go [(T, error)] result is a [result T];
    - an [sdkmath.Int] is a [Z]; its arithmetic panics when the result
      needs more than 256 bits, as [Int.Add] and [Int.Sub] do;
    - the keepers the module is wired with (bank, auth), the SDK helpers and
      the functions of package [types] are interfaces: type classes here,
      with one concrete instance at the end of the definitions. *)

From Stdlib Require Import ZArith Lia Ascii.
From stdpp Require Import gmap strings list.

Local Open Scope string_scope.
Local Open Scope Z_scope.

(** ** Data model *)

(** sdk.AccAddress is a byte slice; a Rocq string is a sequence of bytes. *)
Definition AccAddress := string.

(** types.Hop *)
Record Hop := NewHop { PortId : string; ChannelId : string }.

(** types.Denom: the base denomination and the trace, most recent hop first. *)
Record Denom := MkDenom { Base : string; Trace : list Hop }.

(** types.Token: the amount is a decimal string. *)
Record Token := MkToken { TokenDenom : Denom; Amount : string }.

(** sdk.Coin and sdk.Coins *)
Record Coin := MkCoin { CoinDenom : string; CoinAmount : Z }.
Definition Coins := list Coin.

(** types.ForwardingPacketData, types.FungibleTokenPacketData (V1) and
    types.FungibleTokenPacketDataV2 *)
Record ForwardingPacketData :=
  MkForwarding { DestinationMemo : string; Hops : list Hop }.

Record FungibleTokenPacketData := MkPacketDataV1 {
  V1Denom : string; V1Amount : string;
  V1Sender : string; V1Receiver : string; V1Memo : string }.

Record FungibleTokenPacketDataV2 := MkPacketDataV2 {
  Tokens : list Token;
  Sender : string; Receiver : string; Memo : string;
  Forwarding : ForwardingPacketData }.

(** channeltypes.Packet, as far as the handlers look into it. *)
Record Packet := MkPacket {
  Sequence : Z;
  SourcePort : string; SourceChannel : string;
  DestinationPort : string; DestinationChannel : string;
  PacketData : string }.

(** channeltypes.Acknowledgement: the [Response] oneof, which may be unset. *)
Inductive Acknowledgement :=
| Acknowledgement_Result (result : string)
| Acknowledgement_Error (err : string)
| Acknowledgement_Unset.

(** Errors: the registered sentinels the relay functions use, errors handed
    back by a collaborator, and the wrappers of [errorsmod]. The text of a
    wrapper is kept symbolically: the format and its arguments. *)
Inductive error :=
| ErrSendDisabled
| ErrReceiveDisabled
| ErrInvalidAmount
| ErrInvalidVersion
| ErrInvalidDenomForTransfer
| ErrDenomNotFound
| ErrUnauthorized
| ErrInvalidRequest
| ErrInvalidType
| ErrInvalidAddress
| Foreign (text : string)
| Wrap (parent : error) (description : string)
| WrapError (parent : error) (cause : error)
| Wrapf (parent : error) (format : string) (args : list fmt_arg)
with fmt_arg :=
| ArgString (s : string)
| ArgAddress (a : AccAddress)
| ArgError (e : error).

(** The sentinel at the root of a chain of wrappers: what [errors.Is]
    compares against. *)
Fixpoint root_cause (e : error) : error :=
  match e with
  | Wrap p _ | WrapError p _ | Wrapf p _ _ => root_cause p
  | _ => e
  end.

Inductive result (A : Type) :=
| Ok (a : A)
| Err (e : error).
Arguments Ok {A} a.
Arguments Err {A} e.

(** ** Computations: state passing with panics *)

Inductive outcome (A : Type) :=
| Done (a : A)
| Panic.
Arguments Done {A} a.
Arguments Panic {A}.

Definition M (S A : Type) : Type := S -> outcome (A * S).

Definition ret {S A} (a : A) : M S A := fun s => Done (a, s).

Definition bind {S A C} (c : M S A) (k : A -> M S C) : M S C :=
  fun s => match c s with
           | Done (a, s') => k a s'
           | Panic => Panic
           end.

Definition panic {S A} : M S A := fun _ => Panic.

(** A pure step that may panic (a constructor of the SDK that validates). *)
Definition lift_outcome {S A} (o : outcome A) : M S A :=
  fun s => match o with Done a => Done (a, s) | Panic => Panic end.

Definition get {S} : M S S := fun s => Done (s, s).
Definition modify {S} (f : S -> S) : M S unit := fun s => Done (tt, f s).

Declare Scope go_scope.
Delimit Scope go_scope with go.
Notation "x <- c ; k" := (bind c (fun x => k))
  (at level 20, c at level 100, k at level 200, only parsing) : go_scope.
Local Open Scope go_scope.

(** [if err := c; err != nil { return h err }; k] *)
Definition guard {S A} (c : M S (option error)) (h : error -> A) (k : M S A)
  : M S A :=
  r <- c; match r with Some e => ret (h e) | None => k end.

(** [v, err := c; if err != nil { return h err }; k v] *)
Definition guard_val {S A V} (c : M S (result V)) (h : error -> A)
    (k : V -> M S A) : M S A :=
  r <- c; match r with Err e => ret (h e) | Ok v => k v end.

(** The state seen after a computation, if it did not panic. *)
Definition state_of {A S} (o : outcome (A * S)) : option S :=
  match o with Done (_, s) => Some s | Panic => None end.

Definition value_of {A S} (o : outcome (A * S)) : option A :=
  match o with Done (a, _) => Some a | Panic => None end.

(** The state a computation ends in ([dflt] if it panics). *)
Definition final_state {A S} (dflt : S) (o : outcome (A * S)) : S :=
  match o with Done (_, s) => s | Panic => dflt end.

(** ** Collaborators

    The relay functions reach the rest of the chain through interfaces
    (the bank and auth keepers embedded in the keeper) and call helpers of
    the SDK and of package [types] whose bodies are outside this file.
    They are taken as parameters: every result below holds for any
    implementation. *)

(** Helpers of the Cosmos SDK. *)
Class SDK := {
  (** sdkmath.NewIntFromString: [None] when the string is no integer. *)
  NewIntFromString : string -> option Z;
  (** sdk.ValidateDenom, as a test. *)
  ValidateDenom : string -> bool;
  (** sdk.AccAddressFromBech32 *)
  AccAddressFromBech32 : string -> result AccAddress;
}.

(** The bank keeper. A call may change the bank's state and returns [nil]
    or an error; nothing is assumed on the state an erroring call leaves. *)
Class BankKeeper (B : Type) := {
  IsSendEnabledCoins : B -> Coin -> option error;
  SendCoins : B -> AccAddress -> AccAddress -> Coins -> B * option error;
  SendCoinsFromAccountToModule :
    B -> AccAddress -> string -> Coins -> B * option error;
  MintCoins : B -> string -> Coins -> B * option error;
  BurnCoins : B -> string -> Coins -> B * option error;
  HasDenomMetaData : B -> string -> bool;
  (** The metadata written by the keeper's SetDenomMetadata is determined by
      the denom; its formatting is not part of the relay logic. *)
  SetDenomMetaData : B -> Denom -> B;
}.

(** The auth keeper. *)
Class AuthKeeper := {
  GetModuleAddress : string -> AccAddress;
}.

(** Functions of package [types] and [internal/types] used by the relay:
    hashing and serialization, validation of packet data, the escrow
    address, the synthetic acknowledgements of forwarding. *)
Class TransferTypes := {
  (** the content hash of a denom path, and its rendering in hexadecimal *)
  HashPath : string -> string;
  HexString : string -> string;
  GetEscrowAddress : string -> string -> AccAddress;
  ValidateBasicV1 : FungibleTokenPacketData -> option error;
  ValidateBasicV2 : FungibleTokenPacketDataV2 -> option error;
  GetBytesV1 : FungibleTokenPacketData -> string;
  GetBytesV2 : FungibleTokenPacketDataV2 -> string;
  NewForwardErrorAcknowledgement : Packet -> Acknowledgement -> Acknowledgement;
  NewForwardTimeoutAcknowledgement : Packet -> Acknowledgement;
}.

(** types.ModuleName, types.DenomPrefix, types.V1, types.V2 and
    types.SupportedVersions *)
Definition ModuleName : string := "transfer".
Definition DenomPrefix : string := "ibc".
Definition V1 : string := "ics20-1".
Definition V2 : string := "ics20-2".
Definition SupportedVersions : list string := [V2; V1].

(** ** The state behind [ctx] *)

Record Params := MkParams { SendEnabled : bool; ReceiveEnabled : bool }.

(** Events emitted through the context's event manager. *)
Inductive Event := DenomEvent (token : Token).

Record Ctx (B : Type) := MkCtx {
  bank : B;                          (* the bank keeper's stores *)
  params : Params;                   (* the module parameters *)
  totalEscrow : gmap string Z;       (* total escrow, keyed by denomination *)
  denoms : gmap string Denom;        (* the denom registry, keyed by hash *)
  events : list Event;               (* events emitted so far *)
  acks : list (Packet * Acknowledgement);
                                     (* acknowledgements written so far *)
}.
Arguments MkCtx {B}.
Arguments bank {B}.
Arguments params {B}.
Arguments totalEscrow {B}.
Arguments denoms {B}.
Arguments events {B}.
Arguments acks {B}.

Definition set_bank {B} (b : B) (ctx : Ctx B) : Ctx B :=
  MkCtx b (params ctx) (totalEscrow ctx) (denoms ctx) (events ctx) (acks ctx).
Definition set_totalEscrow {B} (t : gmap string Z) (ctx : Ctx B) : Ctx B :=
  MkCtx (bank ctx) (params ctx) t (denoms ctx) (events ctx) (acks ctx).
Definition set_denoms {B} (d : gmap string Denom) (ctx : Ctx B) : Ctx B :=
  MkCtx (bank ctx) (params ctx) (totalEscrow ctx) d (events ctx) (acks ctx).
Definition set_events {B} (ev : list Event) (ctx : Ctx B) : Ctx B :=
  MkCtx (bank ctx) (params ctx) (totalEscrow ctx) (denoms ctx) ev (acks ctx).
Definition set_acks {B} (a : list (Packet * Acknowledgement)) (ctx : Ctx B)
  : Ctx B :=
  MkCtx (bank ctx) (params ctx) (totalEscrow ctx) (denoms ctx) (events ctx) a.

(** The total escrowed for a denomination: an absent key reads as zero. *)
Definition EscrowTotal {B} (ctx : Ctx B) (denom : string) : Z :=
  default 0 (totalEscrow ctx !! denom).

(** A call of a bank keeper method on the context. *)
Definition bank_call {B} (f : B -> B * option error) : M (Ctx B) (option error) :=
  fun ctx => let (b, r) := f (bank ctx) in Done (r, set_bank b ctx).

(** ** Denominations (types/denom.go) *)

(** Denom.IsNative *)
Definition IsNative (d : Denom) : bool :=
  match Trace d with [] => true | _ => false end.

(** Modelled from the spec: Denom.HasPrefix is in types/denom.go. "A Denom
    has prefix (port, channel) iff its trace's first hop equals that
    (port, channel) pair"; a native denom (empty trace) has no prefix. *)
Definition HasPrefix (d : Denom) (portID channelID : string) : bool :=
  match Trace d with
  | [] => false
  | h :: _ => String.eqb (PortId h) portID && String.eqb (ChannelId h) channelID
  end.

(** Hop.String *)
Definition Hop_String (h : Hop) : string := PortId h ++ "/" ++ ChannelId h.

(** The trace path: the hops joined by "/". *)
Fixpoint Trace_Path (t : list Hop) : string :=
  match t with
  | [] => ""
  | [h] => Hop_String h
  | h :: t' => Hop_String h ++ "/" ++ Trace_Path t'
  end.

(** Modelled from the spec: Denom.Path is in types/denom.go. "Its canonical
    wire identity is trace.Path() + "/" + base_denom"; with an empty trace
    it is the bare base denom. *)
Definition Path (d : Denom) : string :=
  if IsNative d then Base d else Trace_Path (Trace d) ++ "/" ++ Base d.

Section Denominations.
Context `{TransferTypes}.

(** Modelled from the spec: Denom.Hash is in types/denom.go. The "content
    hash of that canonical string". *)
Definition Hash (d : Denom) : string := HashPath (Path d).

(** Modelled from the spec: Denom.IBCDenom is in types/denom.go. The
    "effective ledger denomination": the base denom when the trace is
    empty, else the hash behind the "ibc/" prefix TokenFromCoin strips. *)
Definition IBCDenom (d : Denom) : string :=
  if IsNative d then Base d
  else DenomPrefix ++ "/" ++ HexString (Hash d).
End Denominations.

(** ** Coins (Cosmos SDK, types/coin.go) *)

Section CoinOps.
Context `{SDK}.

(** sdk.NewCoin validates and panics: the denomination must be valid and
    the amount not negative. *)
Definition NewCoin (denom : string) (amount : Z) : outcome Coin :=
  if ValidateDenom denom && (0 <=? amount) then Done (MkCoin denom amount)
  else Panic.

(** sdk.NewCoins on one coin: a zero coin is dropped, any other must be
    valid and positive or the constructor panics. *)
Definition NewCoins (coin : Coin) : outcome Coins :=
  if CoinAmount coin =? 0 then Done []
  else if ValidateDenom (CoinDenom coin) && (0 <? CoinAmount coin)
       then Done [coin]
       else Panic.
End CoinOps.

(** ** Integers (cosmossdk.io/math, int.go)

    An [Int] wraps a big integer of at most [MaxBitLen] bits, whatever its
    sign; [Int.Add] and [Int.Sub] panic ("integer overflow") when their
    result has more. *)
Definition MaxBitLen : Z := 256.

(** [i.BitLen() > MaxBitLen]: the absolute value does not fit. *)
Definition overflows (i : Z) : bool := 2 ^ MaxBitLen <=? Z.abs i.

Definition Int_Add (i i2 : Z) : outcome Z :=
  if overflows (i + i2) then Panic else Done (i + i2).

Definition Int_Sub (i i2 : Z) : outcome Z :=
  if overflows (i - i2) then Panic else Done (i - i2).

(** Coin.Add panics when the denominations differ, and when the sum of the
    amounts overflows. *)
Definition Coin_Add (a b : Coin) : outcome Coin :=
  if String.eqb (CoinDenom a) (CoinDenom b)
  then match Int_Add (CoinAmount a) (CoinAmount b) with
       | Done amount => Done (MkCoin (CoinDenom a) amount)
       | Panic => Panic
       end
  else Panic.

(** Coin.Sub panics when the denominations differ, when the difference of
    the amounts overflows, and when it is negative. *)
Definition Coin_Sub (a b : Coin) : outcome Coin :=
  if String.eqb (CoinDenom a) (CoinDenom b)
  then match Int_Sub (CoinAmount a) (CoinAmount b) with
       | Done amount =>
           if amount <? 0 then Panic else Done (MkCoin (CoinDenom a) amount)
       | Panic => Panic
       end
  else Panic.

(** ** The escrow ledger *)

Section Escrow.
Context {B : Type} `{SDK} `{BankKeeper B}.

(** Modelled from the spec: GetTotalEscrowForDenom is in keeper/keeper.go.
    The persisted "EscrowTotal map keyed by effective denomination string";
    a denomination without an entry has nothing in escrow. *)
Definition GetTotalEscrowForDenom (denom : string) : M (Ctx B) Coin :=
  fun ctx => Done (MkCoin denom (EscrowTotal ctx denom), ctx).

(** Modelled from the spec: SetTotalEscrowForDenom is in keeper/keeper.go.
    The map holds a "non-negative integer" per denomination: a negative
    total is refused. *)
Definition SetTotalEscrowForDenom (coin : Coin) : M (Ctx B) unit :=
  fun ctx =>
    if CoinAmount coin <? 0 then Panic
    else Done (tt, set_totalEscrow
                     (<[CoinDenom coin := CoinAmount coin]> (totalEscrow ctx))
                     ctx).

(** EscrowCoin (relay.go, 358-370) *)
Definition EscrowCoin (sender escrowAddress : AccAddress) (coin : Coin)
  : M (Ctx B) (option error) :=
  coins <- lift_outcome (NewCoins coin);
  guard (bank_call (fun b => SendCoins b sender escrowAddress coins))
    (* failure is expected for insufficient balances *)
    Some
    (currentTotalEscrow <- GetTotalEscrowForDenom (CoinDenom coin);
     newTotalEscrow <- lift_outcome (Coin_Add currentTotalEscrow coin);
     _ <- SetTotalEscrowForDenom newTotalEscrow;
     ret None).

(** The description UnescrowCoin wraps a failed funds move in. *)
Definition unescrow_failure : string :=
  "unable to unescrow tokens, this may be caused by a malicious counterparty module or a bug: please open an issue on counterparty module".

(** UnescrowCoin (relay.go, 374-389) *)
Definition UnescrowCoin (escrowAddress receiver : AccAddress) (coin : Coin)
  : M (Ctx B) (option error) :=
  coins <- lift_outcome (NewCoins coin);
  guard (bank_call (fun b => SendCoins b escrowAddress receiver coins))
    (fun err => Some (Wrap err unescrow_failure))
    (currentTotalEscrow <- GetTotalEscrowForDenom (CoinDenom coin);
     newTotalEscrow <- lift_outcome (Coin_Sub currentTotalEscrow coin);
     _ <- SetTotalEscrowForDenom newTotalEscrow;
     ret None).
End Escrow.

(** ** Go slices of tokens

    SendTransfer re-assigns the slice it ranges over, so its [tokens]
    argument is modelled as Go has it: a slice header (pointer, length,
    capacity) into a backing array on the heap, the pointer being an array
    and an offset in it. The other functions only read their slices, which
    are plain lists there. *)

Record Slice := MkSlice { array : nat; offset : nat; len : nat; cap : nat }.

(** The backing arrays allocated so far; an array is named by its index. *)
Abbreviation Heap := (list (list Token)).

(** The zero value of types.Token, filling unused capacity. *)
Definition zeroToken : Token := MkToken (MkDenom "" []) "".

(** The elements of a slice: [len] cells of its array, from its offset. *)
Definition elements (h : Heap) (s : Slice) : list Token :=
  take (len s) (drop (offset s) (default [] (h !! array s))).

(** A slice whose array is allocated with room for its capacity. *)
Definition valid_slice (h : Heap) (s : Slice) : Prop :=
  (len s <= cap s)%nat /\
  exists cells,
    h !! array s = Some cells /\ (offset s + cap s <= length cells)%nat.

(** The capacity of the array a full slice is moved to. The runtime's
    growth policy is not fixed by the language: doubling, and room for the
    new element at least. *)
Definition growslice (oldcap needed : nat) : nat := Nat.max needed (2 * oldcap).

Section Slices.
Context {St : Type}.

(** [s[i]]: panics out of range. *)
Definition index (s : Slice) (i : nat) : M (St * Heap) Token :=
  fun st =>
    if (i <? len s)%nat then
      match snd st !! array s ≫= (fun cells => cells !! (offset s + i)%nat) with
      | Some t => Done (t, st)
      | None => Panic
      end
    else Panic.

(** [append(s, x)]: in place when the capacity allows it, else into a new
    array holding a copy of the elements. *)
Definition append (s : Slice) (x : Token) : M (St * Heap) Slice :=
  fun st =>
    let h := snd st in
    if (len s <? cap s)%nat then
      Done (MkSlice (array s) (offset s) (S (len s)) (cap s),
            (fst st,
             alter (fun cells => <[(offset s + len s)%nat := x]> cells)
               (array s) h))
    else
      let newcap := growslice (cap s) (S (len s)) in
      let cells := (elements h s ++ [x] ++
                    replicate (newcap - S (len s)) zeroToken)%list in
      Done (MkSlice (length h) 0 (S (len s)) newcap,
            (fst st, (h ++ [cells])%list)).

(** A computation on the context leaves the heap alone. *)
Definition on_ctx {A} (c : M St A) : M (St * Heap) A :=
  fun st => match c (fst st) with
            | Done (a, s') => Done (a, (s', snd st))
            | Panic => Panic
            end.
End Slices.

(** ** The keeper *)

(** Methods of the keeper defined outside relay.go, taken as parameters. *)
Class KeeperDeps := {
  (** Keeper.IsBlockedAddr: the address policy *)
  IsBlockedAddr : AccAddress -> bool;
  (** Keeper.getReceiverFromPacketData: the receiver the packet resolves to *)
  getReceiverFromPacketData : FungibleTokenPacketDataV2 -> result AccAddress;
}.

(** Keeper.revertForwardedPacket and Keeper.acknowledgeForwardedPacket
    (keeper/forwarding.go), taken as parameters. *)
Class ForwardingDeps (B : Type) := {
  revertForwardedPacket :
    Packet -> FungibleTokenPacketDataV2 -> M (Ctx B) (option error);
  acknowledgeForwardedPacket :
    Packet -> Packet -> Acknowledgement -> M (Ctx B) (option error);
}.

(** channeltypes.NewResultAcknowledgement *)
Definition NewResultAcknowledgement (result : string) : Acknowledgement :=
  Acknowledgement_Result result.

(** The constructors of the packet data (types/packet.go). *)
Definition NewFungibleTokenPacketData
    (denom amount sender receiver memo : string) : FungibleTokenPacketData :=
  MkPacketDataV1 denom amount sender receiver memo.

Definition NewForwardingPacketData (destinationMemo : string) (hops : list Hop)
  : ForwardingPacketData :=
  MkForwarding destinationMemo hops.

Definition NewFungibleTokenPacketDataV2 (tokens : list Token)
    (sender receiver memo : string) (forwarding : ForwardingPacketData)
  : FungibleTokenPacketDataV2 :=
  MkPacketDataV2 tokens sender receiver memo forwarding.

(** [s[1:]]: panics on an empty slice. *)
Definition from_1 {A} (s : list A) : outcome (list A) :=
  match s with [] => Panic | _ :: s' => Done s' end.

Section Keeper.
Context {B : Type}.
Context `{SDK} `{BankKeeper B} `{AuthKeeper} `{TransferTypes} `{KeeperDeps}.

(** Keeper.GetParams *)
Definition GetParams : M (Ctx B) Params := fun ctx => Done (params ctx, ctx).

(** Modelled from the spec: HasDenom and SetDenom are in keeper/keeper.go.
    The "Denom registry keyed by content hash -> full Denom". *)
Definition HasDenom (hash : string) : M (Ctx B) bool :=
  fun ctx => Done (bool_decide (is_Some (denoms ctx !! hash)), ctx).

Definition SetDenom (denom : Denom) : M (Ctx B) unit :=
  modify (fun ctx => set_denoms (<[Hash denom := denom]> (denoms ctx)) ctx).

(** Keeper.SetDenomMetadata registers the denom's metadata with the bank. *)
Definition SetDenomMetadata (denom : Denom) : M (Ctx B) unit :=
  modify (fun ctx => set_bank (SetDenomMetaData (bank ctx) denom) ctx).

(** events.EmitDenomEvent *)
Definition EmitDenomEvent (token : Token) : M (Ctx B) unit :=
  modify (fun ctx => set_events (events ctx ++ [DenomEvent token])%list ctx).

(** Modelled from the spec: Token.ToCoin is in types/token.go. The token's
    "coin representation": the amount parsed from its decimal string, under
    the effective ledger denomination, built as OnRecvPacket builds its
    coins. *)
Definition ToCoin (t : Token) : outcome (result Coin) :=
  match NewIntFromString (Amount t) with
  | None => Done (Err (Wrapf ErrInvalidAmount
              "unable to parse transfer amount (%s) into math.Int"
              [ArgString (Amount t)]))
  | Some transferAmount =>
      match NewCoin (IBCDenom (TokenDenom t)) transferAmount with
      | Done coin => Done (Ok coin)
      | Panic => Panic
      end
  end.

(** The body of SendTransfer's loop (relay.go, 68-105), up to the
    re-assignment of [tokens]: [Some err] is [return err], [None] falls
    through to the end of the body. *)
Definition SendTransfer_body (sourcePort sourceChannel : string)
    (sender : AccAddress) (token : Token) : M (Ctx B) (option error) :=
  guard_val (lift_outcome (ToCoin token)) Some (fun coin =>
  guard (fun ctx => Done (IsSendEnabledCoins (bank ctx) coin, ctx))
    (fun err => Some (WrapError ErrSendDisabled err))
    (if HasPrefix (TokenDenom token) sourcePort sourceChannel then
       (* transfer the coins to the module account and burn them *)
       coins <- lift_outcome (NewCoins coin);
       guard (bank_call (fun b =>
                SendCoinsFromAccountToModule b sender ModuleName coins))
         Some
         (coins <- lift_outcome (NewCoins coin);
          r <- bank_call (fun b => BurnCoins b ModuleName coins);
          match r with
          | Some _ => panic
          | None => ret None
          end)
     else
       (* obtain the escrow address for the source channel end *)
       let escrowAddress := GetEscrowAddress sourcePort sourceChannel in
       guard (EscrowCoin sender escrowAddress coin) Some (ret None))).

(** [for _, token := range tokens { body; tokens = append(tokens, token) }]:
    the range expression is evaluated once, so the loop runs over the
    header [r] it had on entry, reading cell [i] when it gets there;
    [tokens] is the variable the body re-assigns. *)
Fixpoint SendTransfer_range (sourcePort sourceChannel : string)
    (sender : AccAddress) (r : Slice) (i todo : nat) (tokens : Slice)
  : M (Ctx B * Heap) (option error) :=
  match todo with
  | O => ret None
  | S todo' =>
      token <- index r i;
      guard (on_ctx (SendTransfer_body sourcePort sourceChannel sender token))
        Some
        (tokens <- append tokens token;
         SendTransfer_range sourcePort sourceChannel sender
           r (S i) todo' tokens)
  end.

(** SendTransfer (relay.go, 52-111) *)
Definition SendTransfer (sourcePort sourceChannel : string)
    (tokens : Slice) (sender : AccAddress)
  : M (Ctx B * Heap) (option error) :=
  p <- on_ctx GetParams;
  if negb (SendEnabled p) then ret (Some ErrSendDisabled)
  else if IsBlockedAddr sender then
    ret (Some (Wrapf ErrUnauthorized "%s is not allowed to send funds"
                 [ArgAddress sender]))
  else
    SendTransfer_range sourcePort sourceChannel sender
      tokens 0 (len tokens) tokens.
End Keeper.

Section Receive.
Context {B : Type}.
Context `{SDK} `{BankKeeper B} `{AuthKeeper} `{TransferTypes} `{KeeperDeps}.

(** The body of OnRecvPacket's loop (relay.go, 150-214): [Err err] is
    [return nil, err], [Ok coins] the new value of [receivedCoins]. *)
Definition OnRecvPacket_body
    (sourcePort sourceChannel destPort destChannel : string)
    (receiver : AccAddress) (token : Token) (receivedCoins : Coins)
  : M (Ctx B) (result Coins) :=
  (* parse the transfer amount *)
  match NewIntFromString (Amount token) with
  | None => ret (Err (Wrapf ErrInvalidAmount
              "unable to parse transfer amount: %s" [ArgString (Amount token)]))
  | Some transferAmount =>
      if HasPrefix (TokenDenom token) sourcePort sourceChannel then
        (* sender chain is not the source, unescrow tokens:
           remove prefix added by sender chain *)
        trace <- lift_outcome (from_1 (Trace (TokenDenom token)));
        let token := MkToken (MkDenom (Base (TokenDenom token)) trace)
                             (Amount token) in
        coin <- lift_outcome (NewCoin (IBCDenom (TokenDenom token)) transferAmount);
        let escrowAddress := GetEscrowAddress destPort destChannel in
        guard (UnescrowCoin escrowAddress receiver coin) Err
          (ret (Ok (receivedCoins ++ [coin])%list))
      else
        (* sender chain is the source, mint vouchers: add the destination
           port and channel to the trace *)
        let trace := [NewHop destPort destChannel] in
        let token := MkToken (MkDenom (Base (TokenDenom token))
                                      (trace ++ Trace (TokenDenom token))%list)
                             (Amount token) in
        known <- HasDenom (Hash (TokenDenom token));
        _ <- (if negb known then SetDenom (TokenDenom token) else ret tt);
        let voucherDenom := IBCDenom (TokenDenom token) in
        hasMeta <- (fun ctx => Done (HasDenomMetaData (bank ctx) voucherDenom, ctx));
        _ <- (if negb hasMeta then SetDenomMetadata (TokenDenom token) else ret tt);
        _ <- EmitDenomEvent token;
        voucher <- lift_outcome (NewCoin voucherDenom transferAmount);
        (* mint new tokens if the source of the transfer is the same chain *)
        coins <- lift_outcome (NewCoins voucher);
        guard (bank_call (fun b => MintCoins b ModuleName coins))
          (fun err => Err (Wrap err "failed to mint IBC tokens"))
          ((* send to receiver *)
           let moduleAddr := GetModuleAddress ModuleName in
           coins <- lift_outcome (NewCoins voucher);
           guard (bank_call (fun b => SendCoins b moduleAddr receiver coins))
             (fun err => Err (Wrapf err "failed to send coins to receiver %s"
                                [ArgAddress receiver]))
             (ret (Ok (receivedCoins ++ [voucher])%list)))
  end.

(** [for _, token := range data.Tokens { body }] *)
Fixpoint OnRecvPacket_range
    (sourcePort sourceChannel destPort destChannel : string)
    (receiver : AccAddress) (tokens : list Token) (receivedCoins : Coins)
  : M (Ctx B) (result Coins) :=
  match tokens with
  | [] => ret (Ok receivedCoins)
  | token :: rest =>
      guard_val (OnRecvPacket_body sourcePort sourceChannel destPort
                   destChannel receiver token receivedCoins)
        Err
        (fun receivedCoins =>
           OnRecvPacket_range sourcePort sourceChannel destPort destChannel
             receiver rest receivedCoins)
  end.

(** OnRecvPacket (relay.go, 122-219) *)
Definition OnRecvPacket (data : FungibleTokenPacketDataV2)
    (sourcePort sourceChannel destPort destChannel : string)
  : M (Ctx B) (result Coins) :=
  (* validate packet data upon receiving *)
  match ValidateBasicV2 data with
  | Some err =>
      ret (Err (Wrapf err "error validating ICS-20 transfer packet data" []))
  | None =>
      p <- GetParams;
      if negb (ReceiveEnabled p) then ret (Err ErrReceiveDisabled)
      else
        match getReceiverFromPacketData data with
        | Err err => ret (Err err)
        | Ok receiver =>
            if IsBlockedAddr receiver then
              ret (Err (Wrapf ErrUnauthorized
                          "%s is not allowed to receive funds"
                          [ArgAddress receiver]))
            else
              OnRecvPacket_range sourcePort sourceChannel destPort
                destChannel receiver (Tokens data) []
        end
  end.

(** The body of refundPacketTokens's loop (relay.go, 328-350). *)
Definition refundPacketTokens_body (sourcePort sourceChannel : string)
    (sender escrowAddress moduleAccountAddr : AccAddress) (token : Token)
  : M (Ctx B) (option error) :=
  guard_val (lift_outcome (ToCoin token)) Some (fun coin =>
  if HasPrefix (TokenDenom token) sourcePort sourceChannel then
    (* mint vouchers back to sender *)
    coins <- lift_outcome (NewCoins coin);
    guard (bank_call (fun b => MintCoins b ModuleName coins)) Some
      (coins <- lift_outcome (NewCoins coin);
       r <- bank_call (fun b => SendCoins b moduleAccountAddr sender coins);
       match r with
       | Some _ => panic
       | None => ret None
       end)
  else
    guard (UnescrowCoin escrowAddress sender coin) Some (ret None)).

Fixpoint refundPacketTokens_range (sourcePort sourceChannel : string)
    (sender escrowAddress moduleAccountAddr : AccAddress)
    (tokens : list Token) : M (Ctx B) (option error) :=
  match tokens with
  | [] => ret None
  | token :: rest =>
      guard (refundPacketTokens_body sourcePort sourceChannel sender
               escrowAddress moduleAccountAddr token)
        Some
        (refundPacketTokens_range sourcePort sourceChannel sender
           escrowAddress moduleAccountAddr rest)
  end.

(** refundPacketTokens (relay.go, 307-354) *)
Definition refundPacketTokens (sourcePort sourceChannel : string)
    (data : FungibleTokenPacketDataV2) : M (Ctx B) (option error) :=
  match AccAddressFromBech32 (Sender data) with
  | Err err => ret (Some err)
  | Ok sender =>
      if IsBlockedAddr sender then
        ret (Some (Wrapf ErrUnauthorized "%s is not allowed to receive funds"
                     [ArgAddress sender]))
      else
        (* escrow address for unescrowing tokens back to sender *)
        let escrowAddress := GetEscrowAddress sourcePort sourceChannel in
        let moduleAccountAddr := GetModuleAddress ModuleName in
        refundPacketTokens_range sourcePort sourceChannel sender
          escrowAddress moduleAccountAddr (Tokens data)
  end.

(** The error of the [default] case of the switches on [ack.Response]. *)
Definition unexpected_response : error :=
  Wrapf ErrInvalidType "expected one of [%T, %T], got %T"
    [ArgString "types.Acknowledgement_Result";
     ArgString "types.Acknowledgement_Error"; ArgString "<nil>"].

(** OnAcknowledgementPacket (relay.go, 226-246) *)
Definition OnAcknowledgementPacket (sourcePort sourceChannel : string)
    (data : FungibleTokenPacketDataV2) (ack : Acknowledgement)
  : M (Ctx B) (option error) :=
  match ack with
  | Acknowledgement_Result _ =>
      (* the acknowledgement succeeded on the receiving chain so nothing
         needs to be executed and no error needs to be returned *)
      ret None
  | Acknowledgement_Error _ =>
      guard (refundPacketTokens sourcePort sourceChannel data) Some (ret None)
  | Acknowledgement_Unset => ret (Some unexpected_response)
  end.

(** OnTimeoutPacket (relay.go, 283-290) *)
Definition OnTimeoutPacket (sourcePort sourceChannel : string)
    (data : FungibleTokenPacketDataV2) : M (Ctx B) (option error) :=
  refundPacketTokens sourcePort sourceChannel data.

Context `{ForwardingDeps B}.

(** HandleForwardedPacketAcknowledgement (relay.go, 253-280) *)
Definition HandleForwardedPacketAcknowledgement
    (packet forwardedPacket : Packet) (data : FungibleTokenPacketDataV2)
    (ack : Acknowledgement) : M (Ctx B) (option error) :=
  match ack with
  | Acknowledgement_Result _ =>
      (* Write a successful async ack for the forwardedPacket *)
      let forwardAck := NewResultAcknowledgement (String (Ascii.ascii_of_nat 1) "") in
      acknowledgeForwardedPacket forwardedPacket packet forwardAck
  | Acknowledgement_Error _ =>
      guard (revertForwardedPacket forwardedPacket data) Some
        (let forwardAck := NewForwardErrorAcknowledgement packet ack in
         acknowledgeForwardedPacket forwardedPacket packet forwardAck)
  | Acknowledgement_Unset => ret (Some unexpected_response)
  end.

(** HandleForwardedPacketTimeout (relay.go, 294-301) *)
Definition HandleForwardedPacketTimeout
    (packet forwardedPacket : Packet) (data : FungibleTokenPacketDataV2)
  : M (Ctx B) (option error) :=
  guard (revertForwardedPacket forwardedPacket data) Some
    (let forwardAck := NewForwardTimeoutAcknowledgement packet in
     acknowledgeForwardedPacket forwardedPacket packet forwardAck).
End Receive.

(** createPacketDataBytesFromVersion (relay.go, 421-455). It touches no
    state; [tokens[0]] panics on an empty slice. *)
Definition createPacketDataBytesFromVersion `{TransferTypes}
    (appVersion sender receiver memo : string)
    (tokens : list Token) (hops : list Hop) : outcome (result string) :=
  if String.eqb appVersion V1 then
    (* Sanity check, tokens must always be of length 1 if using app version V1. *)
    if negb (length tokens =? 1)%nat then
      Done (Err (Wrapf ErrInvalidRequest "cannot transfer multiple coins with %s"
                   [ArgString V1]))
    else
      match tokens with
      | [] => Panic
      | token :: _ =>
          let packetData :=
            NewFungibleTokenPacketData (Path (TokenDenom token)) (Amount token)
              sender receiver memo in
          match ValidateBasicV1 packetData with
          | Some err =>
              Done (Err (Wrapf err "failed to validate %s packet data"
                           [ArgString V1]))
          | None => Done (Ok (GetBytesV1 packetData))
          end
      end
  else if String.eqb appVersion V2 then
    (* If forwarding is needed, move memo to forwarding packet data and set
       packet.Memo to empty string. *)
    let forwardingPacketData0 := MkForwarding "" [] in
    let '(forwardingPacketData, memo) :=
      if (0 <? length hops)%nat
      then (NewForwardingPacketData memo hops, "")
      else (forwardingPacketData0, memo) in
    let packetData :=
      NewFungibleTokenPacketDataV2 tokens sender receiver memo
        forwardingPacketData in
    match ValidateBasicV2 packetData with
    | Some err =>
        Done (Err (Wrapf err "failed to validate %s packet data" [ArgString V2]))
    | None => Done (Ok (GetBytesV2 packetData))
    end
  else
    Done (Err (Wrapf ErrInvalidVersion "app version must be one of %s"
                 (map ArgString SupportedVersions))).

(** ** The paths as the specification words them

    Direct descriptions of what happens to one token on each path, stated
    on the results of the collaborators' calls. The theorems compare the
    functions above with them. *)

Section Specification.
Context {B : Type}.
Context `{SDK} `{BankKeeper B} `{AuthKeeper} `{TransferTypes} `{KeeperDeps}.

(** The coins handed to the bank for a coin [sdk.NewCoin] accepted: a zero
    coin is dropped. *)
Definition coins_of (coin : Coin) : Coins :=
  if CoinAmount coin =? 0 then [] else [coin].

(** What [sdk.NewCoin] guarantees of the coin it returns. *)
Definition valid_coin (coin : Coin) : Prop :=
  ValidateDenom (CoinDenom coin) = true /\ 0 <= CoinAmount coin.

(** Send path, sink: "move the coin from sender to the module's internal
    holding account, then burn it from that account"; a burn that fails
    after the deposit halts the operation. *)
Definition burn_from_sender (sender : AccAddress) (coin : Coin)
  : M (Ctx B) (option error) :=
  fun ctx =>
    match SendCoinsFromAccountToModule (bank ctx) sender ModuleName
            (coins_of coin) with
    | (b1, Some err) => Done (Some err, set_bank b1 ctx)
    | (b1, None) =>
        match BurnCoins b1 ModuleName (coins_of coin) with
        | (_, Some _) => Panic
        | (b2, None) => Done (None, set_bank b2 ctx)
        end
    end.

(** Receive path, no prefix: "register the resulting Denom (and its ledger
    metadata) if unseen". *)
Definition register_if_unseen (d : Denom) (ctx : Ctx B) : Ctx B :=
  let ctx1 :=
    match denoms ctx !! Hash d with
    | Some _ => ctx
    | None => set_denoms (<[Hash d := d]> (denoms ctx)) ctx
    end in
  if HasDenomMetaData (bank ctx1) (IBCDenom d) then ctx1
  else set_bank (SetDenomMetaData (bank ctx1) d) ctx1.

(** Receive path, no prefix: "mint the voucher, and transfer it from the
    module account to the receiver". *)
Definition mint_voucher (receiver : AccAddress) (voucher : Coin)
  : M (Ctx B) (option error) :=
  fun ctx =>
    match MintCoins (bank ctx) ModuleName (coins_of voucher) with
    | (b1, Some err) =>
        Done (Some (Wrap err "failed to mint IBC tokens"), set_bank b1 ctx)
    | (b1, None) =>
        match SendCoins b1 (GetModuleAddress ModuleName) receiver
                (coins_of voucher) with
        | (b2, Some err) =>
            Done (Some (Wrapf err "failed to send coins to receiver %s"
                          [ArgAddress receiver]), set_bank b2 ctx)
        | (b2, None) => Done (None, set_bank b2 ctx)
        end
    end.

(** Refund, has prefix: "mint the coin back to the sender from the module
    account (a post-mint send failure is fatal)". *)
Definition mint_back (sender : AccAddress) (coin : Coin)
  : M (Ctx B) (option error) :=
  fun ctx =>
    match MintCoins (bank ctx) ModuleName (coins_of coin) with
    | (b1, Some err) => Done (Some err, set_bank b1 ctx)
    | (b1, None) =>
        match SendCoins b1 (GetModuleAddress ModuleName) sender
                (coins_of coin) with
        | (_, Some _) => Panic
        | (b2, None) => Done (None, set_bank b2 ctx)
        end
    end.

(** "Processes each token once, in the order received": the loop body run
    over a list, stopping at the first error. *)
Fixpoint send_each (sourcePort sourceChannel : string) (sender : AccAddress)
    (tokens : list Token) : M (Ctx B) (option error) :=
  match tokens with
  | [] => ret None
  | token :: rest =>
      guard (SendTransfer_body sourcePort sourceChannel sender token) Some
        (send_each sourcePort sourceChannel sender rest)
  end.

(** A sequence of escrow ledger operations, each of which must succeed for
    the next to run. *)
Inductive EscrowOp :=
| OpEscrow (sender escrowAddress : AccAddress) (coin : Coin)
| OpUnescrow (escrowAddress receiver : AccAddress) (coin : Coin).

Definition run_op (op : EscrowOp) : M (Ctx B) (option error) :=
  match op with
  | OpEscrow sender escrowAddress coin => EscrowCoin sender escrowAddress coin
  | OpUnescrow escrowAddress receiver coin =>
      UnescrowCoin escrowAddress receiver coin
  end.

Fixpoint run_ops (ops : list EscrowOp) : M (Ctx B) (option error) :=
  match ops with
  | [] => ret None
  | op :: rest => guard (run_op op) Some (run_ops rest)
  end.

(** The sum of the amounts escrowed, and unescrowed, in a denomination. *)
Fixpoint escrowed (denom : string) (ops : list EscrowOp) : Z :=
  match ops with
  | [] => 0
  | OpEscrow _ _ coin :: rest =>
      (if String.eqb (CoinDenom coin) denom then CoinAmount coin else 0)
      + escrowed denom rest
  | OpUnescrow _ _ _ :: rest => escrowed denom rest
  end.

Fixpoint unescrowed (denom : string) (ops : list EscrowOp) : Z :=
  match ops with
  | [] => 0
  | OpUnescrow _ _ coin :: rest =>
      (if String.eqb (CoinDenom coin) denom then CoinAmount coin else 0)
      + unescrowed denom rest
  | OpEscrow _ _ _ :: rest => unescrowed denom rest
  end.

(** The invariant of the escrow store. *)
Definition escrow_nonneg (ctx : Ctx B) : Prop :=
  forall denom, 0 <= EscrowTotal ctx denom.
End Specification.

(** The result of a SendTransfer call, without the heap. *)
Definition forget_heap {A St} (o : outcome (A * (St * Heap))) : outcome (A * St) :=
  match o with
  | Done (a, (s, _)) => Done (a, s)
  | Panic => Panic
  end.

(** The heap a SendTransfer call leaves, if it did not panic. *)
Definition heap_of {A St} (o : outcome (A * (St * Heap))) : option Heap :=
  match o with
  | Done (_, (_, h)) => Some h
  | Panic => None
  end.

(** The refund and the packet data, as the specification words them. *)
Section SpecificationRefund.
Context {B : Type}.
Context `{SDK} `{BankKeeper B} `{AuthKeeper} `{TransferTypes} `{KeeperDeps}.

(** "Per token, mirror the Send Path's direction test": mint back when the
    denom has the prefix (sourcePort, sourceChannel), else unescrow from
    the escrow address of that port and channel. *)
Definition refund_token (sourcePort sourceChannel : string)
    (sender : AccAddress) (token : Token) : M (Ctx B) (option error) :=
  fun ctx =>
    match ToCoin token with
    | Panic => Panic
    | Done (Err err) => Done (Some err, ctx)
    | Done (Ok coin) =>
        if HasPrefix (TokenDenom token) sourcePort sourceChannel
        then mint_back sender coin ctx
        else UnescrowCoin (GetEscrowAddress sourcePort sourceChannel)
               sender coin ctx
    end.

Fixpoint refund_each (sourcePort sourceChannel : string)
    (sender : AccAddress) (tokens : list Token) : M (Ctx B) (option error) :=
  match tokens with
  | [] => ret None
  | token :: rest =>
      guard (refund_token sourcePort sourceChannel sender token) Some
        (refund_each sourcePort sourceChannel sender rest)
  end.

(** A V2 payload is validated, then serialized. *)
Definition emit_v2 (packetData : FungibleTokenPacketDataV2)
  : outcome (result string) :=
  match ValidateBasicV2 packetData with
  | Some err =>
      Done (Err (Wrapf err "failed to validate %s packet data" [ArgString V2]))
  | None => Done (Ok (GetBytesV2 packetData))
  end.
End SpecificationRefund.

(** ** A reference implementation of the collaborators

    A small bank with balances per (address, denomination), and simple
    stand-ins for the other interfaces. It is used to run the relay
    functions on concrete inputs. *)

Module Sim.
(** Decimal integers with an optional sign. *)
Definition digit_of (c : Ascii.ascii) : option Z :=
  let n := Z.of_nat (Ascii.nat_of_ascii c) in
  if (48 <=? n) && (n <=? 57) then Some (n - 48) else None.

Fixpoint parse_digits (s : string) (acc : Z) : option Z :=
  match s with
  | EmptyString => Some acc
  | String c s' =>
      match digit_of c with
      | Some d => parse_digits s' (10 * acc + d)
      | None => None
      end
  end.

Definition parse_int (s : string) : option Z :=
  match s with
  | EmptyString => None
  | String c s' =>
      if Ascii.eqb c "-"%char then
        match s' with
        | EmptyString => None
        | _ => option_map Z.opp (parse_digits s' 0)
        end
      else parse_digits s 0
  end.

(** The default denomination pattern: a letter, then 2 to 127 characters
    among letters, digits and [/:._-]. *)
Definition is_letter (c : Ascii.ascii) : bool :=
  let n := Ascii.nat_of_ascii c in
  ((65 <=? n) && (n <=? 90) || (97 <=? n) && (n <=? 122))%nat.

Definition is_denom_char (c : Ascii.ascii) : bool :=
  let n := Ascii.nat_of_ascii c in
  (is_letter c || (48 <=? n) && (n <=? 57)
   || (n =? 47) || (n =? 58) || (n =? 46) || (n =? 95) || (n =? 45))%nat.

Definition validate_denom (s : string) : bool :=
  match s with
  | EmptyString => false
  | String c s' =>
      is_letter c && forallb is_denom_char (String.list_ascii_of_string s')
      && (2 <=? String.length s')%nat && (String.length s' <=? 127)%nat
  end.

#[export] Instance sdk : SDK := {|
  NewIntFromString := parse_int;
  ValidateDenom := validate_denom;
  AccAddressFromBech32 := fun s =>
    match s with
    | EmptyString => Err (Foreign "empty address string is not allowed")
    | _ => Ok s
    end;
|}.

#[export] Instance auth : AuthKeeper := {|
  GetModuleAddress := fun name => "module/" ++ name;
|}.

(** Modelled from the spec: ValidateBasic of the packet data is in
    types/packet.go. A token's "amount parses to a non-negative integer;
    zero-amount tokens are rejected by validation". *)
Definition validate_amount (amount : string) : option error :=
  match parse_int amount with
  | None => Some (Wrap ErrInvalidAmount "unable to parse transfer amount")
  | Some a =>
      if 0 <? a then None
      else Some (Wrap ErrInvalidAmount "amount must be strictly positive")
  end.

Fixpoint validate_tokens (tokens : list Token) : option error :=
  match tokens with
  | [] => None
  | t :: rest =>
      match validate_amount (Amount t) with
      | Some e => Some e
      | None => validate_tokens rest
      end
  end.

Definition render_token (t : Token) : string :=
  Amount t ++ " " ++ Path (TokenDenom t).

#[export] Instance types : TransferTypes := {|
  HashPath := fun path => path;
  HexString := fun bytes => bytes;
  GetEscrowAddress := fun port channel => "escrow/" ++ port ++ "/" ++ channel;
  ValidateBasicV1 := fun d => validate_amount (V1Amount d);
  ValidateBasicV2 := fun d =>
    match Tokens d with
    | [] => Some (Wrap ErrInvalidAmount "tokens cannot be empty")
    | _ => validate_tokens (Tokens d)
    end;
  GetBytesV1 := fun d =>
    V1Amount d ++ " " ++ V1Denom d ++ " " ++ V1Sender d ++ " " ++
    V1Receiver d ++ " " ++ V1Memo d;
  GetBytesV2 := fun d =>
    String.concat "," (map render_token (Tokens d)) ++ " " ++ Sender d ++
    " " ++ Receiver d ++ " " ++ Memo d ++ " " ++
    DestinationMemo (Forwarding d) ++ " " ++
    Trace_Path (Hops (Forwarding d));
  NewForwardErrorAcknowledgement := fun _ _ =>
    Acknowledgement_Error "forwarded packet failed";
  NewForwardTimeoutAcknowledgement := fun _ =>
    Acknowledgement_Error "forwarded packet timed out";
|}.

#[export] Instance keeper : KeeperDeps := {|
  IsBlockedAddr := fun addr => String.eqb addr "blocked";
  getReceiverFromPacketData := fun d =>
    match Hops (Forwarding d) with
    | [] => AccAddressFromBech32 (Receiver d)
    | _ => Ok (GetModuleAddress ModuleName)
    end;
|}.

(** The bank: balances, the denominations with metadata, and the
    denominations whose sending is switched off. *)
Record Bank := MkBank {
  balances : gmap (string * string) Z;
  metadata : list string;
  disabled : list string;
}.

Definition balance (b : Bank) (addr denom : string) : Z :=
  default 0 (balances b !! (addr, denom)).

Definition credit (addr : string) (c : Coin) (b : Bank) : Bank :=
  MkBank (<[(addr, CoinDenom c) := balance b addr (CoinDenom c) + CoinAmount c]>
            (balances b))
         (metadata b) (disabled b).

Definition debit (addr : string) (c : Coin) (b : Bank) : Bank * option error :=
  if balance b addr (CoinDenom c) <? CoinAmount c
  then (b, Some (Foreign "insufficient funds"))
  else (MkBank (<[(addr, CoinDenom c) :=
                    balance b addr (CoinDenom c) - CoinAmount c]> (balances b))
               (metadata b) (disabled b), None).

Fixpoint send (from to : string) (coins : Coins) (b : Bank)
  : Bank * option error :=
  match coins with
  | [] => (b, None)
  | c :: rest =>
      match debit from c b with
      | (b', Some e) => (b', Some e)
      | (b', None) => send from to rest (credit to c b')
      end
  end.

Fixpoint mint (to : string) (coins : Coins) (b : Bank) : Bank :=
  match coins with
  | [] => b
  | c :: rest => mint to rest (credit to c b)
  end.

Fixpoint burn (from : string) (coins : Coins) (b : Bank)
  : Bank * option error :=
  match coins with
  | [] => (b, None)
  | c :: rest =>
      match debit from c b with
      | (b', Some e) => (b', Some e)
      | (b', None) => burn from rest b'
      end
  end.

#[export] Instance bankKeeper : BankKeeper Bank := {|
  IsSendEnabledCoins := fun b coin =>
    if existsb (String.eqb (CoinDenom coin)) (disabled b)
    then Some (Foreign "send transactions are disabled")
    else None;
  SendCoins := fun b from to coins => send from to coins b;
  SendCoinsFromAccountToModule := fun b from name coins =>
    send from (GetModuleAddress name) coins b;
  MintCoins := fun b name coins => (mint (GetModuleAddress name) coins b, None);
  BurnCoins := fun b name coins => burn (GetModuleAddress name) coins b;
  HasDenomMetaData := fun b denom => existsb (String.eqb denom) (metadata b);
  SetDenomMetaData := fun b d =>
    MkBank (balances b) (IBCDenom d :: metadata b) (disabled b);
|}.

(** Forwarding: the revert takes back each token of the forwarded payload
    (burning what the receive minted, escrowing again what it
    unescrowed), the acknowledgement is recorded in the context. *)
Fixpoint revert_tokens (forwardedPacket : Packet) (tokens : list Token)
  : M (Ctx Bank) (option error) :=
  match tokens with
  | [] => ret None
  | token :: rest =>
      guard_val (lift_outcome (ToCoin token)) Some (fun coin =>
      guard
        (if HasPrefix (TokenDenom token) (DestinationPort forwardedPacket)
              (DestinationChannel forwardedPacket)
         then bank_call (fun b => BurnCoins b ModuleName (coins_of coin))
         else EscrowCoin (GetModuleAddress ModuleName)
                (GetEscrowAddress (DestinationPort forwardedPacket)
                   (DestinationChannel forwardedPacket)) coin)
        Some
        (revert_tokens forwardedPacket rest))
  end.

#[export] Instance forwarding : ForwardingDeps Bank := {|
  revertForwardedPacket := fun forwardedPacket data =>
    revert_tokens forwardedPacket (Tokens data);
  acknowledgeForwardedPacket := fun forwardedPacket packet ack =>
    fun ctx => Done (None, set_acks (acks ctx ++ [(packet, ack)])%list ctx);
|}.

(** Some accounts, denominations and a starting state. *)
Definition uatom : Denom := MkDenom "uatom" [].
Definition voucher_denom : Denom :=
  MkDenom "uosmo" [NewHop "transfer" "channel-0"].

Definition bank0 : Bank :=
  MkBank (<[("alice", "uatom") := 100]>
          (<[("alice", IBCDenom voucher_denom) := 50]>
           (<[(GetEscrowAddress "transfer" "channel-0", "uatom") := 30]> ∅)))
         [] [].

Definition ctx0 : Ctx Bank :=
  MkCtx bank0 (MkParams true true) (<["uatom" := 30]> ∅) ∅ [] [].

Definition ctx_off : Ctx Bank :=
  MkCtx bank0 (MkParams false false) (<["uatom" := 30]> ∅) ∅ [] [].

(** A heap with one array of four cells, and the slice of the two tokens
    in its middle, with room for a third. *)
Definition heap0 : Heap :=
  [[zeroToken; MkToken uatom "10"; MkToken voucher_denom "5"; zeroToken]].
Definition tokens0 : Slice := MkSlice 0 1 2 3.

(** An escrow of 10 followed by an unescrow of 25, both in uatom. *)
Definition escrow0 : AccAddress := GetEscrowAddress "transfer" "channel-0".
Definition ops0 : list EscrowOp :=
  [OpEscrow "alice" escrow0 (MkCoin "uatom" 10);
   OpUnescrow escrow0 "bob" (MkCoin "uatom" 25)].

(** Packet data: a token coming back through channel-9, a packet with a
    zero amount, and a packet with a forwarding hop. *)
Definition returning : Token :=
  MkToken (MkDenom "uatom" [NewHop "transfer" "channel-9"]) "20".
Definition data0 : FungibleTokenPacketDataV2 :=
  MkPacketDataV2 [MkToken uatom "7"; returning] "alice" "bob" ""
    (MkForwarding "" []).
Definition data_zero : FungibleTokenPacketDataV2 :=
  MkPacketDataV2 [MkToken uatom "0"] "alice" "bob" "" (MkForwarding "" []).
Definition data_blocked : FungibleTokenPacketDataV2 :=
  MkPacketDataV2 [MkToken uatom "7"] "alice" "blocked" "" (MkForwarding "" []).
Definition packet0 : Packet :=
  MkPacket 1 "transfer" "channel-9" "transfer" "channel-0" "".
Definition packet1 : Packet :=
  MkPacket 7 "transfer" "channel-1" "transfer" "channel-5" "".

(** Packet data for a refund to alice, the packet data of the tokens of
    [tokens0], and packet data whose sender is blocked, or is no
    address. *)
Definition data_refund : FungibleTokenPacketDataV2 :=
  MkPacketDataV2 [MkToken uatom "7"] "alice" "bob" "" (MkForwarding "" []).
Definition data_sent : FungibleTokenPacketDataV2 :=
  MkPacketDataV2 [MkToken uatom "10"; MkToken voucher_denom "5"] "alice" "bob"
    "" (MkForwarding "" []).
Definition data_from_blocked : FungibleTokenPacketDataV2 :=
  MkPacketDataV2 [MkToken uatom "7"] "blocked" "bob" "" (MkForwarding "" []).
Definition data_no_sender : FungibleTokenPacketDataV2 :=
  MkPacketDataV2 [MkToken uatom "7"] "" "bob" "" (MkForwarding "" []).

(** The state [ctx0] with the largest sdkmath.Int as the total of uatom in
    escrow. *)
Definition ctx_full : Ctx Bank :=
  MkCtx bank0 (MkParams true true) (<["uatom" := 2 ^ 256 - 1]> ∅) ∅ [] [].

(** The token of the voucher minted for 7 uatom received on channel-0, in
    a slice of its own, and the packet data that sends it back. *)
Definition voucher_back : Token :=
  MkToken (MkDenom "uatom" [NewHop "transfer" "channel-0"]) "7".
Definition heap_back : Heap := [[voucher_back]].
Definition tokens_back : Slice := MkSlice 0 0 1 1.
Definition data_back : FungibleTokenPacketDataV2 :=
  MkPacketDataV2 [voucher_back] "bob" "alice" "" (MkForwarding "" []).

(** The chain the 7 uatom came from: they are in escrow at its end,
    channel-9, of the channel. *)
Definition ctx_origin : Ctx Bank :=
  MkCtx (MkBank (<[(GetEscrowAddress "transfer" "channel-9", "uatom") := 7]> ∅)
           [] [])
        (MkParams true true) (<["uatom" := 7]> ∅) ∅ [] [].

(** Two tokens whose denoms, once the hop (transfer, channel-0) is in
    front, have the same path: a base denomination that reads as a trace,
    and the trace itself. *)
Definition data_same_path : FungibleTokenPacketDataV2 :=
  MkPacketDataV2
    [MkToken (MkDenom "transfer/channel-5/uatom" []) "1";
     MkToken (MkDenom "uatom" [NewHop "transfer" "channel-5"]) "2"]
    "alice" "bob" "" (MkForwarding "" []).
End Sim.

(** ** TokenFromCoin *)

(** Text conversions used by TokenFromCoin, taken as parameters. *)
Class DenomCodec := {
  (** sdkmath.Int.String: the decimal text of an amount *)
  IntString : Z -> string;
  (** types.ParseHexHash: the hash bytes a hexadecimal text stands for *)
  ParseHexHash : string -> result string;
}.

(** strings.HasPrefix *)
Definition strings_HasPrefix (s prefix : string) : bool := String.prefix prefix s.

(** [s[n:]] on a string: panics when [n] is beyond its length. *)
Fixpoint string_from (n : nat) (s : string) : outcome string :=
  match n, s with
  | O, _ => Done s
  | S n', String _ s' => string_from n' s'
  | S _, EmptyString => Panic
  end.

(** types.NewDenom, called with a base denomination and no hop. *)
Definition NewDenom (base : string) : Denom := MkDenom base [].

Section TokenFromCoinDef.
Context {B : Type} `{TransferTypes} `{DenomCodec}.

(** Modelled from the spec: GetDenom is in keeper/keeper.go. The "registry
    (external) maps hash -> full Denom for reverse lookup". *)
Definition GetDenom (hash : string) : M (Ctx B) (option Denom) :=
  fun ctx => Done (denoms ctx !! hash, ctx).

(** TokenFromCoin (relay.go, 392-418) *)
Definition TokenFromCoin (coin : Coin) : M (Ctx B) (result Token) :=
  (* if the coin does not have an IBC denom, return as is *)
  if negb (strings_HasPrefix (CoinDenom coin) "ibc/") then
    ret (Ok (MkToken (NewDenom (CoinDenom coin)) (IntString (CoinAmount coin))))
  else
    hexHash <- lift_outcome
                 (string_from (String.length (DenomPrefix ++ "/"))
                    (CoinDenom coin));
    match ParseHexHash hexHash with
    | Err err => ret (Err (WrapError ErrInvalidDenomForTransfer err))
    | Ok hash =>
        found <- GetDenom hash;
        match found with
        | None => ret (Err (Wrap ErrDenomNotFound hexHash))
        | Some denom =>
            ret (Ok (MkToken denom (IntString (CoinAmount coin))))
        end
    end.
End TokenFromCoinDef.

(** ** Accounting over a list of tokens *)

(** The parts of the context the bank and the escrow ledger do not hold. *)
Definition same_frame {B} (ctx ctx' : Ctx B) : Prop :=
  params ctx' = params ctx /\ denoms ctx' = denoms ctx /\
  events ctx' = events ctx /\ acks ctx' = acks ctx.

(** Every entry of the denom registry is stored under the hash of its
    denom. *)
Definition registry_ok `{TransferTypes} {B} (ctx : Ctx B) : Prop :=
  forall hash denom, denoms ctx !! hash = Some denom -> Hash denom = hash.

Section Accounting.
Context `{SDK} `{TransferTypes}.

(** The denom a received token is credited under: without its first hop
    when it comes back through (sourcePort, sourceChannel), with the hop
    (destPort, destChannel) in front otherwise. *)
Definition received_denom (sourcePort sourceChannel destPort destChannel : string)
    (d : Denom) : Denom :=
  if HasPrefix d sourcePort sourceChannel
  then MkDenom (Base d) (tail (Trace d))
  else MkDenom (Base d) (NewHop destPort destChannel :: Trace d).

(** The amount a token's text stands for (zero when it is no integer). *)
Definition token_amount (t : Token) : Z :=
  default 0 (NewIntFromString (Amount t)).

(** The sum, over the tokens without the prefix (port, channel), of the
    amounts whose ledger denomination is [denom]: what a send over that
    channel puts in escrow, and a refund takes out. *)
Fixpoint source_amount (port channel denom : string) (tokens : list Token) : Z :=
  match tokens with
  | [] => 0
  | t :: rest =>
      (if HasPrefix (TokenDenom t) port channel then 0
       else if String.eqb (IBCDenom (TokenDenom t)) denom then token_amount t
            else 0)
      + source_amount port channel denom rest
  end.

(** The sum, over the tokens with the prefix (port, channel), of the amounts
    whose ledger denomination without that hop is [denom]: what a receive
    from that channel takes out of escrow. *)
Fixpoint returning_amount (port channel denom : string) (tokens : list Token)
  : Z :=
  match tokens with
  | [] => 0
  | t :: rest =>
      (if HasPrefix (TokenDenom t) port channel then
         if String.eqb
              (IBCDenom (MkDenom (Base (TokenDenom t)) (tail (Trace (TokenDenom t)))))
              denom
         then token_amount t else 0
       else 0)
      + returning_amount port channel denom rest
  end.

(** The tokens a receive mints vouchers for: those without the prefix. *)
Definition minted_tokens (port channel : string) (tokens : list Token)
  : list Token :=
  filter (fun t => HasPrefix (TokenDenom t) port channel = false) tokens.
End Accounting.

Section ReceiveAccounting.
Context `{SDK} `{TransferTypes}.

(** The coin a received token is credited as. *)
Definition received_coin (sourcePort sourceChannel destPort destChannel : string)
    (t : Token) : Coin :=
  MkCoin (IBCDenom (received_denom sourcePort sourceChannel destPort
                      destChannel (TokenDenom t)))
         (token_amount t).

(** The event a receive emits for a token it mints a voucher for. *)
Definition denom_event (sourcePort sourceChannel destPort destChannel : string)
    (t : Token) : Event :=
  DenomEvent (MkToken (received_denom sourcePort sourceChannel destPort
                         destChannel (TokenDenom t))
                      (Amount t)).
End ReceiveAccounting.

(** ** The heap around a SendTransfer call *)

(** The heap [h] differs from [h0] only by new arrays and by the cells of
    the array of [r] in the spare capacity of [r]. *)
Definition same_heap_but_spare (r : Slice) (h0 h : Heap) : Prop :=
  (length h0 <= length h)%nat /\
  (forall a, a <> array r -> (a < length h0)%nat -> h !! a = h0 !! a) /\
  forall cells0,
    h0 !! array r = Some cells0 ->
    exists cells,
      h !! array r = Some cells /\ length cells = length cells0 /\
      forall j,
        (j < offset r + len r \/ offset r + cap r <= j)%nat ->
        cells !! j = cells0 !! j.

(** The slice [tokens] is [r] grown in place, or lies in an array allocated
    after [h0]. *)
Definition grown_from (r : Slice) (h0 : Heap) (tokens : Slice) : Prop :=
  (array tokens = array r /\ offset tokens = offset r /\ cap tokens = cap r /\
   (len r <= len tokens)%nat) \/
  (length h0 <= array tokens)%nat.


(** ** The wire encoding of the core GenesisState (genesis.pb.go)

    The generated marshalling code works on byte slices with explicit
    indices. A byte slice is a list of byte values; a [uint64] is a [Z]
    with its wrap-around written out; an index out of range panics. The
    loops are bounded (a [uint64] has at most ten groups of seven bits): they
    are run with a count of rounds, and shown never to exhaust it. *)

(** The errors of genesis.pb.go: the three it declares (522-526),
    io.ErrUnexpectedEOF, and those it makes with fmt.Errorf, by their
    arguments: "wiretype end group for non-group" (284), "illegal tag %d
    (wire type %d)" (287), "wrong wireType = %d for field ..." (292),
    "illegal wireType %d" (510). *)
Inductive proto_error :=
| ErrInvalidLengthGenesis
| ErrIntOverflowGenesis
| ErrUnexpectedEndOfGroupGenesis
| ErrUnexpectedEOF
| ErrEndGroup
| ErrIllegalTag (fieldNum wire : Z)
| ErrWrongWireType (wireType : Z) (field : string)
| ErrIllegalWireType (wireType : Z)
| ErrOfMessage (text : string).

(** What a run of the marshalling code ends in. *)
Inductive exec (A : Type) :=
| Returns (a : A)
| Fails (e : proto_error)
| Panics
| OutOfRounds.
Arguments Returns {A} a.
Arguments Fails {A} e.
Arguments Panics {A}.
Arguments OutOfRounds {A}.

(** Conversions to [uint8] and [uint64]. *)
Definition uint8 (x : Z) : Z := x mod 256.
Definition uint64 (x : Z) : Z := x mod 2 ^ 64.

(** math/bits.Len64: the number of bits needed to write [x]. *)
Definition Len64 (x : Z) : Z := if x =? 0 then 0 else Z.log2 x + 1.

(** sovGenesis (genesis.pb.go, 255-257) *)
Definition sovGenesis (x : Z) : Z := (Len64 (Z.lor x 1) + 6) / 7.

(** [dAtA[i] = b]: panics out of range. *)
Definition store (dAtA : list Z) (i b : Z) : exec (list Z) :=
  if (0 <=? i) && (i <? Z.of_nat (length dAtA))
  then Returns (<[Z.to_nat i := b]> dAtA)
  else Panics.

(** [dAtA[i]]: panics out of range. *)
Definition load (dAtA : list Z) (i : Z) : exec Z :=
  if (0 <=? i) && (i <? Z.of_nat (length dAtA))
  then match dAtA !! Z.to_nat i with Some b => Returns b | None => Panics end
  else Panics.

(** The loop of encodeVarintGenesis and its last store (229-235). *)
Fixpoint encodeVarint_loop (rounds : nat) (dAtA : list Z) (offset v : Z)
  : exec (list Z) :=
  match rounds with
  | O => OutOfRounds
  | S rounds' =>
      if 2 ^ 7 <=? v then
        match store dAtA offset (uint8 (Z.lor (Z.land v 127) 128)) with
        | Returns dAtA' =>
            encodeVarint_loop rounds' dAtA' (offset + 1) (Z.shiftr v 7)
        | _ => Panics
        end
      else store dAtA offset (uint8 v)
  end.

(** encodeVarintGenesis (genesis.pb.go, 227-237): the buffer after the
    call, and the index returned. *)
Definition encodeVarintGenesis (dAtA : list Z) (offset v : Z)
  : exec (list Z * Z) :=
  let offset := offset - sovGenesis v in
  let base := offset in
  match encodeVarint_loop 10 dAtA offset v with
  | Returns dAtA' => Returns (dAtA', base)
  | Fails e => Fails e
  | Panics => Panics
  | OutOfRounds => OutOfRounds
  end.

(** The loop Unmarshal reads a tag with (genesis.pb.go, 266-280):
    [for shift := uint(0); ; shift += 7 { ... }], from the index [iNdEx] on,
    [l] being the length of [dAtA]. It returns the value read and the index
    after it. *)
Fixpoint decodeVarint_loop (rounds : nat) (dAtA : list Z) (l iNdEx : Z)
    (shift wire : Z) : exec (Z * Z) :=
  match rounds with
  | O => OutOfRounds
  | S rounds' =>
      if 64 <=? shift then Fails ErrIntOverflowGenesis
      else if l <=? iNdEx then Fails ErrUnexpectedEOF
      else
        match load dAtA iNdEx with
        | Returns b =>
            let iNdEx := iNdEx + 1 in
            let wire :=
              Z.lor wire (uint64 (Z.shiftl (uint64 (Z.land b 127)) shift)) in
            if b <? 128 then Returns (wire, iNdEx)
            else decodeVarint_loop rounds' dAtA l iNdEx (shift + 7) wire
        | _ => Panics
        end
  end.

Definition decodeVarint (dAtA : list Z) (iNdEx : Z) : exec (Z * Z) :=
  decodeVarint_loop 11 dAtA (Z.of_nat (length dAtA)) iNdEx 0 0.

(** The bytes of a varint: what encodeVarintGenesis writes into a fresh
    buffer that has just the room for it. *)
Definition varint (v : Z) : list Z :=
  match
    encodeVarintGenesis (replicate (Z.to_nat (sovGenesis v)) 0) (sovGenesis v) v
  with
  | Returns (dAtA, _) => dAtA
  | _ => []
  end.

(** The bytes the loop of encodeVarintGenesis stores, in the order it stores
    them. *)
Fixpoint stored_groups (rounds : nat) (v : Z) : list Z :=
  match rounds with
  | O => []
  | S rounds' =>
      if 2 ^ 7 <=? v then
        uint8 (Z.lor (Z.land v 127) 128) :: stored_groups rounds' (Z.shiftr v 7)
      else [uint8 v]
  end.

(** *** The message and its fields

    The four fields of GenesisState are messages of other packages; the
    generated code calls their methods Size, MarshalToSizedBuffer and
    Unmarshal. MarshalToSizedBuffer is called with a prefix [dAtA[:i]] of
    the buffer, which shares the buffer's array: here it gets the buffer and
    the length [i] of the prefix, and returns the buffer as it leaves it
    (it cannot change its length) with the size it reports. Unmarshal gets
    the message as it is and the bytes of the field, and returns the message
    as it leaves it. An error of a field's method that is not one of this
    file's is [ErrOfMessage]. An [int] is a [Z], wrapped to 64 bits where
    the arithmetic on it can leave the range; the buffers are slices without
    spare capacity, as Marshal makes them. *)

Definition int32 (x : Z) : Z := (x + 2 ^ 31) mod 2 ^ 32 - 2 ^ 31.
Definition int (x : Z) : Z := (x + 2 ^ 63) mod 2 ^ 64 - 2 ^ 63.

#[global] Instance exec_ret : MRet exec := fun _ a => Returns a.
#[global] Instance exec_bind : MBind exec := fun _ _ f c =>
  match c with
  | Returns a => f a
  | Fails e => Fails e
  | Panics => Panics
  | OutOfRounds => OutOfRounds
  end.

Class Message (M : Type) := {
  Size : M -> Z;
  MarshalToSizedBuffer : M -> list Z -> Z -> exec (list Z * Z);
  Unmarshal : M -> list Z -> exec M;
  MarshalToSizedBuffer_length :
    forall (m : M) (dAtA dAtA' : list Z) (i size : Z),
      MarshalToSizedBuffer m dAtA i = Returns (dAtA', size) ->
      length dAtA' = length dAtA
}.

Record GenesisState (Client Connection Channel ChannelV2 : Type) := {
  ClientGenesis : Client;
  ConnectionGenesis : Connection;
  ChannelGenesis : Channel;
  ChannelV2Genesis : ChannelV2
}.
Arguments ClientGenesis {_ _ _ _} _.
Arguments ConnectionGenesis {_ _ _ _} _.
Arguments ChannelGenesis {_ _ _ _} _.
Arguments ChannelV2Genesis {_ _ _ _} _.

(** [make([]byte, size)]: panics on a negative size. *)
Definition make (size : Z) : exec (list Z) :=
  if size <? 0 then Panics else Returns (replicate (Z.to_nat size) 0).

(** [dAtA[lo:hi]]: panics unless [0 <= lo <= hi <= len(dAtA)]. *)
Definition slice (dAtA : list Z) (lo hi : Z) : exec (list Z) :=
  if (0 <=? lo) && (lo <=? hi) && (hi <=? Z.of_nat (length dAtA))
  then Returns (take (Z.to_nat (hi - lo)) (drop (Z.to_nat lo) dAtA))
  else Panics.

(** The block MarshalToSizedBuffer has for each field (genesis.pb.go,
    184-193 for ChannelV2Genesis, and the same for the three others) with
    the two statements after it: the field's message is written below [i],
    its size as a varint below that, and the tag byte below that. *)
Definition marshal_field {M : Type} `{!Message M} (sub : M) (tag : Z)
    (dAtA : list Z) (i : Z) : exec (list Z * Z) :=
  if negb ((0 <=? i) && (i <=? Z.of_nat (length dAtA))) then Panics
  else
    '(dAtA, size) ← MarshalToSizedBuffer sub dAtA i;
    let i := int (i - size) in
    '(dAtA, i) ← encodeVarintGenesis dAtA i (uint64 size);
    let i := int (i - 1) in
    dAtA ← store dAtA i tag;
    Returns (dAtA, i).

(** The loop Unmarshal reads the length of a field with (295-308), and
    skipGenesis too (482-495): as the loop for a tag, on an [int]. *)
Fixpoint decodeLength_loop (rounds : nat) (dAtA : list Z) (l iNdEx : Z)
    (shift msglen : Z) : exec (Z * Z) :=
  match rounds with
  | O => OutOfRounds
  | S rounds' =>
      if 64 <=? shift then Fails ErrIntOverflowGenesis
      else if l <=? iNdEx then Fails ErrUnexpectedEOF
      else
        match load dAtA iNdEx with
        | Returns b =>
            let iNdEx := iNdEx + 1 in
            let msglen :=
              int (Z.lor msglen (int (Z.shiftl (Z.land b 127) shift))) in
            if b <? 128 then Returns (msglen, iNdEx)
            else decodeLength_loop rounds' dAtA l iNdEx (shift + 7) msglen
        | _ => Panics
        end
  end.

(** The loop skipGenesis passes over a varint with (466-477). *)
Fixpoint skipVarint_loop (rounds : nat) (dAtA : list Z) (l iNdEx : Z)
    (shift : Z) : exec Z :=
  match rounds with
  | O => OutOfRounds
  | S rounds' =>
      if 64 <=? shift then Fails ErrIntOverflowGenesis
      else if l <=? iNdEx then Fails ErrUnexpectedEOF
      else
        let iNdEx := iNdEx + 1 in
        match load dAtA (iNdEx - 1) with
        | Returns b =>
            if b <? 128 then Returns iNdEx
            else skipVarint_loop rounds' dAtA l iNdEx (shift + 7)
        | _ => Panics
        end
  end.

(** The loop of skipGenesis (447-518). Each round reads a tag, so a count
    of rounds beyond the length of [dAtA] is never exhausted. *)
Fixpoint skipGenesis_loop (rounds : nat) (dAtA : list Z) (l iNdEx : Z)
    (depth : Z) : exec Z :=
  match rounds with
  | O => OutOfRounds
  | S rounds' =>
      if iNdEx <? l then
        '(wire, iNdEx) ← decodeVarint_loop 11 dAtA l iNdEx 0 0;
        let wireType := int (Z.land wire 7) in
        '(iNdEx, depth) ←
          match wireType with
          | 0 =>
              iNdEx ← skipVarint_loop 11 dAtA l iNdEx 0;
              Returns (iNdEx, depth)
          | 1 => Returns (int (iNdEx + 8), depth)
          | 2 =>
              '(length, iNdEx) ← decodeLength_loop 11 dAtA l iNdEx 0 0;
              if length <? 0 then Fails ErrInvalidLengthGenesis
              else Returns (int (iNdEx + length), depth)
          | 3 => Returns (iNdEx, int (depth + 1))
          | 4 =>
              if depth =? 0 then Fails ErrUnexpectedEndOfGroupGenesis
              else Returns (iNdEx, int (depth - 1))
          | 5 => Returns (int (iNdEx + 4), depth)
          | _ => Fails (ErrIllegalWireType wireType)
          end;
        if iNdEx <? 0 then Fails ErrInvalidLengthGenesis
        else if depth =? 0 then Returns iNdEx
        else skipGenesis_loop rounds' dAtA l iNdEx depth
      else Fails ErrUnexpectedEOF
  end.

(** skipGenesis (443-520) *)
Definition skipGenesis (dAtA : list Z) : exec Z :=
  let l := Z.of_nat (length dAtA) in
  let iNdEx := 0 in
  let depth := 0 in
  skipGenesis_loop (S (length dAtA)) dAtA l iNdEx depth.

(** A case of the switch in Unmarshal (290-322 for ClientGenesis, and the
    same for the three others): the length of the field is read, and the
    field's message unmarshals the bytes of that length. It returns the
    message and the index after the field. *)
Definition unmarshal_field {M : Type} `{!Message M} (field : string) (sub : M)
    (dAtA : list Z) (l iNdEx wireType : Z) : exec (M * Z) :=
  if negb (wireType =? 2) then Fails (ErrWrongWireType wireType field)
  else
    '(msglen, iNdEx) ← decodeLength_loop 11 dAtA l iNdEx 0 0;
    if msglen <? 0 then Fails ErrInvalidLengthGenesis
    else
      let postIndex := int (iNdEx + msglen) in
      if postIndex <? 0 then Fails ErrInvalidLengthGenesis
      else if l <? postIndex then Fails ErrUnexpectedEOF
      else
        bytes ← slice dAtA iNdEx postIndex;
        sub ← Unmarshal sub bytes;
        Returns (sub, postIndex).

(** The default case of the switch in Unmarshal (422-434): a field with
    another number is passed over. It returns the index after it. *)
Definition skip_field (dAtA : list Z) (l preIndex : Z) : exec Z :=
  let iNdEx := preIndex in
  rest ← slice dAtA iNdEx (Z.of_nat (length dAtA));
  skippy ← skipGenesis rest;
  if (skippy <? 0) || (int (iNdEx + skippy) <? 0)
  then Fails ErrInvalidLengthGenesis
  else if l <? int (iNdEx + skippy) then Fails ErrUnexpectedEOF
  else Returns (int (iNdEx + skippy)).

Section GenesisStateCode.
Context {Client Connection Channel ChannelV2 : Type}.
Context `{!Message Client, !Message Connection, !Message Channel,
          !Message ChannelV2}.

Local Abbreviation State :=
  (GenesisState Client Connection Channel ChannelV2).

(** Size (238-253), of a message that is not nil. *)
Definition GenesisState_Size (m : State) : Z :=
  let n := 0 in
  let l := Size (ClientGenesis m) in
  let n := int (n + (1 + l + sovGenesis (uint64 l))) in
  let l := Size (ConnectionGenesis m) in
  let n := int (n + (1 + l + sovGenesis (uint64 l))) in
  let l := Size (ChannelGenesis m) in
  let n := int (n + (1 + l + sovGenesis (uint64 l))) in
  let l := Size (ChannelV2Genesis m) in
  let n := int (n + (1 + l + sovGenesis (uint64 l))) in
  n.

(** MarshalToSizedBuffer (179-225): the fields are written from the end of
    the buffer down, the last field first. *)
Definition GenesisState_MarshalToSizedBuffer (m : State)
    (dAtA : list Z) : exec (list Z * Z) :=
  let i := Z.of_nat (length dAtA) in
  '(dAtA, i) ← marshal_field (ChannelV2Genesis m) 0x22 dAtA i;
  '(dAtA, i) ← marshal_field (ChannelGenesis m) 0x1a dAtA i;
  '(dAtA, i) ← marshal_field (ConnectionGenesis m) 0x12 dAtA i;
  '(dAtA, i) ← marshal_field (ClientGenesis m) 0xa dAtA i;
  Returns (dAtA, int (Z.of_nat (length dAtA) - i)).

(** Marshal (164-172) *)
Definition GenesisState_Marshal (m : State) : exec (list Z) :=
  let size := GenesisState_Size m in
  dAtA ← make size;
  buffer ← slice dAtA 0 size;
  '(dAtA, n) ← GenesisState_MarshalToSizedBuffer m buffer;
  slice dAtA 0 n.

(** XXX_Marshal (82-93) when [deterministic] is false: [b] is re-sliced to
    its capacity, so the buffer is the array of [b] from its start on. *)
Definition GenesisState_XXX_Marshal (m : State) (b : list Z)
  : exec (list Z) :=
  '(b, n) ← GenesisState_MarshalToSizedBuffer m b;
  slice b 0 n.

(** The loop of Unmarshal (264-436) and the check after it (438-441). Each
    round reads a tag, so a count of rounds beyond the length of [dAtA] is
    never exhausted. *)
Fixpoint GenesisState_Unmarshal_loop (rounds : nat) (m : State)
    (dAtA : list Z) (l iNdEx : Z) : exec State :=
  match rounds with
  | O => OutOfRounds
  | S rounds' =>
      if iNdEx <? l then
        let preIndex := iNdEx in
        '(wire, iNdEx) ← decodeVarint_loop 11 dAtA l iNdEx 0 0;
        let fieldNum := int32 (Z.shiftr wire 3) in
        let wireType := int (Z.land wire 7) in
        if wireType =? 4 then Fails ErrEndGroup
        else if fieldNum <=? 0 then Fails (ErrIllegalTag fieldNum wire)
        else
          '(m, iNdEx) ←
            match fieldNum with
            | 1 =>
                '(sub, iNdEx) ←
                  unmarshal_field "ClientGenesis" (ClientGenesis m) dAtA l
                    iNdEx wireType;
                Returns ({| ClientGenesis := sub;
                            ConnectionGenesis := ConnectionGenesis m;
                            ChannelGenesis := ChannelGenesis m;
                            ChannelV2Genesis := ChannelV2Genesis m |}, iNdEx)
            | 2 =>
                '(sub, iNdEx) ←
                  unmarshal_field "ConnectionGenesis" (ConnectionGenesis m)
                    dAtA l iNdEx wireType;
                Returns ({| ClientGenesis := ClientGenesis m;
                            ConnectionGenesis := sub;
                            ChannelGenesis := ChannelGenesis m;
                            ChannelV2Genesis := ChannelV2Genesis m |}, iNdEx)
            | 3 =>
                '(sub, iNdEx) ←
                  unmarshal_field "ChannelGenesis" (ChannelGenesis m) dAtA l
                    iNdEx wireType;
                Returns ({| ClientGenesis := ClientGenesis m;
                            ConnectionGenesis := ConnectionGenesis m;
                            ChannelGenesis := sub;
                            ChannelV2Genesis := ChannelV2Genesis m |}, iNdEx)
            | 4 =>
                '(sub, iNdEx) ←
                  unmarshal_field "ChannelV2Genesis" (ChannelV2Genesis m)
                    dAtA l iNdEx wireType;
                Returns ({| ClientGenesis := ClientGenesis m;
                            ConnectionGenesis := ConnectionGenesis m;
                            ChannelGenesis := ChannelGenesis m;
                            ChannelV2Genesis := sub |}, iNdEx)
            | _ =>
                iNdEx ← skip_field dAtA l preIndex;
                Returns (m, iNdEx)
            end;
          GenesisState_Unmarshal_loop rounds' m dAtA l iNdEx
      else if l <? iNdEx then Fails ErrUnexpectedEOF
      else Returns m
  end.

(** Unmarshal (261-442): the message as the call leaves it, or the error. *)
Definition GenesisState_Unmarshal (m : State) (dAtA : list Z)
  : exec State :=
  let l := Z.of_nat (length dAtA) in
  let iNdEx := 0 in
  GenesisState_Unmarshal_loop (S (length dAtA)) m dAtA l iNdEx.

(** What a field's message writes: [bytes], whatever the buffer, below the
    index it is given, and their number is its Size. *)
Definition marshals {M : Type} `{!Message M} (m : M) (bytes : list Z) : Prop :=
  Size m = Z.of_nat (length bytes) /\
  forall (dAtA : list Z) (i : Z),
    Z.of_nat (length bytes) <= i <= Z.of_nat (length dAtA) ->
    MarshalToSizedBuffer m dAtA i
    = Returns ((take (Z.to_nat i - length bytes) dAtA ++ bytes
                ++ drop (Z.to_nat i) dAtA)%list,
               Z.of_nat (length bytes)).

(** A field on the wire: its tag byte, the length of its bytes as a varint,
    and its bytes. *)
Definition field (tag : Z) (bytes : list Z) : list Z :=
  (tag :: varint (Z.of_nat (length bytes)) ++ bytes)%list.

(** GenesisState on the wire: its four fields, in the order of their
    numbers, with the tags of fields 1 to 4 of wire type 2. *)
Definition wire_format (client connection channel channelV2 : list Z)
  : list Z :=
  (field 0xa client ++ field 0x12 connection ++ field 0x1a channel
   ++ field 0x22 channelV2)%list.

(** A run that comes to an end without a panic: with a result or an error. *)
Definition ends {A : Type} (run : exec A) : Prop :=
  match run with
  | Returns _ | Fails _ => True
  | Panics | OutOfRounds => False
  end.

End GenesisStateCode.

(** ** Reference implementations of the conversions and of a field's message *)

Module SimCodec.
Import Sim.

(** The decimal text of an integer. *)
Fixpoint digits (rounds : nat) (n : Z) (text : string) : string :=
  match rounds with
  | O => text
  | S rounds' =>
      let text := String (Ascii.ascii_of_nat (48 + Z.to_nat (n mod 10))) text in
      if n <? 10 then text else digits rounds' (n / 10) text
  end.

Definition int_string (n : Z) : string :=
  if n <? 0 then "-" ++ digits (Z.to_nat (Z.log2 (- n)) + 1) (- n) ""
  else digits (Z.to_nat (Z.log2 n) + 1) n "".

#[export] Instance codec : DenomCodec := {|
  IntString := int_string;
  ParseHexHash := fun text => Ok text;
|}.

(** A field's message that is its bytes. *)
Definition write_bytes (m dAtA : list Z) (i : Z) : exec (list Z * Z) :=
  if (Z.of_nat (length m) <=? i) && (i <=? Z.of_nat (length dAtA))
  then Returns ((take (Z.to_nat i - length m) dAtA ++ m
                 ++ drop (Z.to_nat i) dAtA)%list,
                Z.of_nat (length m))
  else Panics.

#[export] Instance bytes_message : Message (list Z) := {|
  Size := fun m => Z.of_nat (length m);
  MarshalToSizedBuffer := write_bytes;
  Unmarshal := fun _ bytes => Returns bytes;
  MarshalToSizedBuffer_length := ltac:(
    intros m dAtA dAtA' i size; unfold write_bytes;
    destruct (Z.leb_spec (Z.of_nat (length m)) i); [|discriminate];
    destruct (Z.leb_spec i (Z.of_nat (length dAtA))); [|discriminate];
    cbn [andb]; intros [= <- _];
    rewrite !length_app, length_take, length_drop; lia);
|}.

(** Two tokens of which the second asks for more than alice has. *)
Definition heap1 : Heap := [[MkToken uatom "10"; MkToken uatom "1000"]].
Definition tokens1 : Slice := MkSlice 0 0 2 2.

(** The state [ctx0] with the voucher's denom in the registry. *)
Definition ctx_registry : Ctx Bank :=
  set_denoms (<[Hash voucher_denom := voucher_denom]> ∅) ctx0.

(** A genesis state of four messages, and an empty one. *)
Definition genesis0 : GenesisState (list Z) (list Z) (list Z) (list Z) :=
  {| ClientGenesis := [1; 2; 3]; ConnectionGenesis := [];
     ChannelGenesis := replicate 200 7; ChannelV2Genesis := [9] |}.
Definition genesis_empty : GenesisState (list Z) (list Z) (list Z) (list Z) :=
  {| ClientGenesis := []; ConnectionGenesis := [];
     ChannelGenesis := []; ChannelV2Genesis := [] |}.

(** The bytes of [genesis0] on the wire, and a buffer with more room. *)
Definition bytes0 : list Z := wire_format [1; 2; 3] [] (replicate 200 7) [9].
Definition buffer0 : list Z := replicate 220 1.
End SimCodec.

(** * Properties *)

(** ** The escrow ledger *)

Section EscrowFacts.
Context {B : Type}.
Context `{SDK} `{BankKeeper B}.

Lemma EscrowTotal_set_bank (b : B) (ctx : Ctx B) denom :
  EscrowTotal (set_bank b ctx) denom = EscrowTotal ctx denom.
Proof. reflexivity. Qed.

Lemma EscrowTotal_insert (ctx : Ctx B) (b : B) key v denom :
  EscrowTotal (set_totalEscrow (<[key := v]> (totalEscrow ctx)) (set_bank b ctx))
    denom
  = if String.eqb key denom then v else EscrowTotal ctx denom.
Proof.
  unfold EscrowTotal; simpl.
  destruct (String.eqb_spec key denom) as [->|Hne].
  - by rewrite lookup_insert_eq.
  - by rewrite lookup_insert_ne.
Qed.

Lemma NewCoins_Done (coin : Coin) (coins : Coins) :
  NewCoins coin = Done coins -> coins = coins_of coin /\ 0 <= CoinAmount coin.
Proof.
  unfold NewCoins, coins_of.
  destruct (Z.eqb_spec (CoinAmount coin) 0) as [Hz|Hz].
  - intros [= <-]. split; [done | lia].
  - destruct (ValidateDenom _); simpl; [|discriminate].
    destruct (Z.ltb_spec 0 (CoinAmount coin)); [|discriminate].
    intros [= <-]. split; [done | lia].
Qed.

Lemma NewCoins_valid (coin : Coin) :
  valid_coin coin -> NewCoins coin = Done (coins_of coin).
Proof.
  intros [Hd Ha]. unfold NewCoins, coins_of. rewrite Hd.
  destruct (Z.eqb_spec (CoinAmount coin) 0); [done|].
  simpl. destruct (Z.ltb_spec 0 (CoinAmount coin)); [done | lia].
Qed.

Lemma NewCoin_Done (denom : string) (amount : Z) (coin : Coin) :
  NewCoin denom amount = Done coin ->
  coin = MkCoin denom amount /\ valid_coin coin.
Proof.
  unfold NewCoin, valid_coin.
  destruct (ValidateDenom denom) eqn:Hd; simpl; [|discriminate].
  destruct (Z.leb_spec 0 amount); [|discriminate].
  intros [= <-]. simpl. auto.
Qed.

(** An integer of at most 256 bits, whatever its sign, does not overflow. *)
Lemma overflows_false (i : Z) :
  overflows i = false <-> - 2 ^ MaxBitLen < i < 2 ^ MaxBitLen.
Proof.
  unfold overflows. pose proof (Z.abs_spec i).
  destruct (Z.leb_spec (2 ^ MaxBitLen) (Z.abs i)); split; try done; lia.
Qed.

Lemma overflows_true (i : Z) :
  overflows i = true <-> i <= - 2 ^ MaxBitLen \/ 2 ^ MaxBitLen <= i.
Proof.
  unfold overflows. pose proof (Z.abs_spec i).
  destruct (Z.leb_spec (2 ^ MaxBitLen) (Z.abs i)); split; try done; lia.
Qed.

(** What EscrowCoin computes, by the result of the funds move. *)
Lemma EscrowCoin_unfold (sender escrowAddress : AccAddress) (coin : Coin)
    (ctx : Ctx B) :
  EscrowCoin sender escrowAddress coin ctx =
  match NewCoins coin with
  | Panic => Panic
  | Done coins =>
      match SendCoins (bank ctx) sender escrowAddress coins with
      | (b, Some err) => Done (Some err, set_bank b ctx)
      | (b, None) =>
          if overflows (EscrowTotal ctx (CoinDenom coin) + CoinAmount coin)
          then Panic
          else if EscrowTotal ctx (CoinDenom coin) + CoinAmount coin <? 0
          then Panic
          else Done (None,
                     set_totalEscrow
                       (<[CoinDenom coin :=
                            EscrowTotal ctx (CoinDenom coin) + CoinAmount coin]>
                          (totalEscrow ctx))
                       (set_bank b ctx))
      end
  end.
Proof.
  unfold EscrowCoin, guard, bind, lift_outcome, bank_call.
  destruct (NewCoins coin) as [coins|]; [|done].
  destruct (SendCoins (bank ctx) sender escrowAddress coins) as [b [err|]];
    [done|].
  unfold GetTotalEscrowForDenom, Coin_Add, Int_Add, SetTotalEscrowForDenom,
    ret; simpl.
  rewrite String.eqb_refl; simpl.
  destruct (overflows _); [done|]. simpl.
  by destruct (_ <? 0).
Qed.

(** What UnescrowCoin computes, by the result of the funds move. *)
Lemma UnescrowCoin_unfold (escrowAddress receiver : AccAddress) (coin : Coin)
    (ctx : Ctx B) :
  UnescrowCoin escrowAddress receiver coin ctx =
  match NewCoins coin with
  | Panic => Panic
  | Done coins =>
      match SendCoins (bank ctx) escrowAddress receiver coins with
      | (b, Some err) =>
          Done (Some (Wrap err unescrow_failure),
                set_bank b ctx)
      | (b, None) =>
          if overflows (EscrowTotal ctx (CoinDenom coin) - CoinAmount coin)
          then Panic
          else if EscrowTotal ctx (CoinDenom coin) - CoinAmount coin <? 0
          then Panic
          else Done (None,
                     set_totalEscrow
                       (<[CoinDenom coin :=
                            EscrowTotal ctx (CoinDenom coin) - CoinAmount coin]>
                          (totalEscrow ctx))
                       (set_bank b ctx))
      end
  end.
Proof.
  unfold UnescrowCoin, guard, bind, lift_outcome, bank_call.
  destruct (NewCoins coin) as [coins|]; [|done].
  destruct (SendCoins (bank ctx) escrowAddress receiver coins) as [b [err|]];
    [done|].
  unfold GetTotalEscrowForDenom, Coin_Sub, Int_Sub, SetTotalEscrowForDenom,
    ret; simpl.
  rewrite String.eqb_refl; simpl.
  destruct (overflows _); [done|]. simpl.
  destruct (_ <? 0) eqn:Hneg; [done|]. simpl. by rewrite Hneg.
Qed.

(** A successful EscrowCoin adds the amount, which is not negative, to the
    total of the coin's denomination and to no other. *)
Lemma EscrowCoin_total (sender escrowAddress : AccAddress) (coin : Coin)
    (ctx ctx' : Ctx B) :
  EscrowCoin sender escrowAddress coin ctx = Done (None, ctx') ->
  0 <= CoinAmount coin /\
  forall denom,
    EscrowTotal ctx' denom =
    EscrowTotal ctx denom
    + (if String.eqb (CoinDenom coin) denom then CoinAmount coin else 0).
Proof.
  rewrite EscrowCoin_unfold.
  destruct (NewCoins coin) as [coins|] eqn:Hc; [|done].
  apply NewCoins_Done in Hc as [_ Hpos].
  destruct (SendCoins _ _ _ _) as [b [err|]]; [done|].
  destruct (overflows _); [done|].
  destruct (_ <? 0); [done|].
  intros [= <-]. split; [done|]. intros denom.
  rewrite EscrowTotal_insert.
  destruct (String.eqb_spec (CoinDenom coin) denom) as [->|]; lia.
Qed.

(** A successful UnescrowCoin takes the amount, which is not negative, from
    the total of the coin's denomination, which stays non-negative, and
    from no other. *)
Lemma UnescrowCoin_total (escrowAddress receiver : AccAddress) (coin : Coin)
    (ctx ctx' : Ctx B) :
  UnescrowCoin escrowAddress receiver coin ctx = Done (None, ctx') ->
  0 <= CoinAmount coin /\
  0 <= EscrowTotal ctx' (CoinDenom coin) /\
  forall denom,
    EscrowTotal ctx' denom =
    EscrowTotal ctx denom
    - (if String.eqb (CoinDenom coin) denom then CoinAmount coin else 0).
Proof.
  rewrite UnescrowCoin_unfold.
  destruct (NewCoins coin) as [coins|] eqn:Hc; [|done].
  apply NewCoins_Done in Hc as [_ Hpos].
  destruct (SendCoins _ _ _ _) as [b [err|]]; [done|].
  destruct (overflows _); [done|].
  destruct (Z.ltb_spec (EscrowTotal ctx (CoinDenom coin) - CoinAmount coin) 0);
    [done|].
  intros [= <-]. split; [done|]. split.
  - rewrite EscrowTotal_insert, String.eqb_refl. lia.
  - intros denom. rewrite EscrowTotal_insert.
    destruct (String.eqb_spec (CoinDenom coin) denom) as [->|]; lia.
Qed.

(** An erroring EscrowCoin or UnescrowCoin leaves every total as it was. *)
Lemma EscrowCoin_error_total (sender escrowAddress : AccAddress)
    (coin : Coin) (ctx ctx' : Ctx B) (err : error) :
  EscrowCoin sender escrowAddress coin ctx = Done (Some err, ctx') ->
  totalEscrow ctx' = totalEscrow ctx.
Proof.
  rewrite EscrowCoin_unfold.
  destruct (NewCoins coin) as [coins|]; [|done].
  destruct (SendCoins _ _ _ _) as [b [e|]].
  - by intros [= _ <-].
  - destruct (overflows _); [done|]. by destruct (_ <? 0).
Qed.

Lemma UnescrowCoin_error_total (escrowAddress receiver : AccAddress)
    (coin : Coin) (ctx ctx' : Ctx B) (err : error) :
  UnescrowCoin escrowAddress receiver coin ctx = Done (Some err, ctx') ->
  totalEscrow ctx' = totalEscrow ctx.
Proof.
  rewrite UnescrowCoin_unfold.
  destruct (NewCoins coin) as [coins|]; [|done].
  destruct (SendCoins _ _ _ _) as [b [e|]].
  - by intros [= _ <-].
  - destruct (overflows _); [done|]. by destruct (_ <? 0).
Qed.
End EscrowFacts.

Section EscrowLedger.
Context {B : Type}.
Context `{SDK} `{BankKeeper B}.

Lemma run_op_total (op : EscrowOp) (ctx ctx' : Ctx B) (denom : string) :
  run_op op ctx = Done (None, ctx') ->
  0 <= EscrowTotal ctx denom ->
  EscrowTotal ctx' denom =
    EscrowTotal ctx denom + escrowed denom [op] - unescrowed denom [op]
  /\ 0 <= EscrowTotal ctx' denom.
Proof.
  destruct op as [sender escrowAddress coin | escrowAddress receiver coin];
    simpl; intros Hrun Hnonneg.
  - apply EscrowCoin_total in Hrun as [Hpos Htot].
    rewrite (Htot denom).
    destruct (String.eqb (CoinDenom coin) denom); lia.
  - apply UnescrowCoin_total in Hrun as (Hpos & Hleft & Htot).
    rewrite (Htot denom).
    destruct (String.eqb_spec (CoinDenom coin) denom) as [<-|].
    + rewrite (Htot (CoinDenom coin)), String.eqb_refl in Hleft. lia.
    + lia.
Qed.

Lemma escrowed_app (denom : string) (ops1 ops2 : list EscrowOp) :
  escrowed denom (ops1 ++ ops2) = escrowed denom ops1 + escrowed denom ops2.
Proof.
  induction ops1 as [|[? ? coin|? ? coin] ops1 IH]; simpl; rewrite ?IH; lia.
Qed.

Lemma unescrowed_app (denom : string) (ops1 ops2 : list EscrowOp) :
  unescrowed denom (ops1 ++ ops2)
  = unescrowed denom ops1 + unescrowed denom ops2.
Proof.
  induction ops1 as [|[? ? coin|? ? coin] ops1 IH]; simpl; rewrite ?IH; lia.
Qed.

Lemma run_ops_cons (op : EscrowOp) (ops : list EscrowOp) (ctx ctx' : Ctx B) :
  run_ops (op :: ops) ctx = Done (None, ctx') ->
  exists ctx1, run_op op ctx = Done (None, ctx1)
               /\ run_ops ops ctx1 = Done (None, ctx').
Proof.
  simpl. unfold guard, bind.
  destruct (run_op op ctx) as [[[err|] ctx1]|]; [done| |done].
  intros Hrest. by exists ctx1.
Qed.

Lemma run_ops_app (ops1 ops2 : list EscrowOp) (ctx ctx' : Ctx B) :
  run_ops (ops1 ++ ops2) ctx = Done (None, ctx') ->
  exists ctx1, run_ops ops1 ctx = Done (None, ctx1)
               /\ run_ops ops2 ctx1 = Done (None, ctx').
Proof.
  revert ctx. induction ops1 as [|op ops1 IH]; intros ctx Hrun.
  - by exists ctx.
  - rewrite <- app_comm_cons in Hrun.
    apply run_ops_cons in Hrun as (ctx1 & Hop & Hrest).
    apply IH in Hrest as (ctx2 & Hrun1 & Hrun2).
    exists ctx2. split; [|done].
    simpl. unfold guard, bind. by rewrite Hop.
Qed.

Lemma run_ops_total (ops : list EscrowOp) (ctx ctx' : Ctx B) (denom : string) :
  run_ops ops ctx = Done (None, ctx') ->
  0 <= EscrowTotal ctx denom ->
  EscrowTotal ctx' denom =
    EscrowTotal ctx denom + escrowed denom ops - unescrowed denom ops
  /\ 0 <= EscrowTotal ctx' denom.
Proof.
  revert ctx. induction ops as [|op ops IH]; intros ctx Hrun Hnonneg.
  - injection Hrun as <-. simpl. split; lia.
  - apply run_ops_cons in Hrun as (ctx1 & Hop & Hrest).
    destruct (run_op_total _ _ _ denom Hop Hnonneg) as [Heq1 Hnonneg1].
    destruct (IH _ Hrest Hnonneg1) as [Heq Hnonneg'].
    split; [|done].
    change (op :: ops) with ([op] ++ ops)%list.
    rewrite escrowed_app, unescrowed_app. lia.
Qed.

(** C1. Escrow conservation. Along any sequence of successful EscrowCoin
    and UnescrowCoin calls, after every prefix of the sequence, the total
    escrowed for a denomination is its starting value plus the sum of the
    amounts escrowed in that denomination minus the sum of the amounts
    unescrowed in it, and it is not negative: these calls change the total
    by exactly their amounts. *)
Theorem escrow_total_conservation (ops : list EscrowOp) (ctx ctx' : Ctx B)
    (denom : string) :
  0 <= EscrowTotal ctx denom ->
  run_ops ops ctx = Done (None, ctx') ->
  forall ops_done ops_left, ops = (ops_done ++ ops_left)%list ->
    exists ctx1,
      run_ops ops_done ctx = Done (None, ctx1) /\
      EscrowTotal ctx1 denom =
        EscrowTotal ctx denom
        + escrowed denom ops_done - unescrowed denom ops_done /\
      0 <= EscrowTotal ctx1 denom.
Proof.
  intros Hnonneg Hrun ops_done ops_left ->.
  apply run_ops_app in Hrun as (ctx1 & Hdone & _).
  exists ctx1. split; [done|].
  by apply run_ops_total.
Qed.

(** C4, as the code has it. The results of EscrowCoin and UnescrowCoin, for
    a coin as sdk.NewCoin builds it. EscrowCoin returns nil exactly when
    the funds move succeeds and the total of the coin's denomination plus
    the coin's amount fits the 256 bits of an sdkmath.Int, and then that
    sum is the new total; when the funds move succeeds and the sum does not
    fit, EscrowCoin does not return: the addition panics. When the funds
    move fails, its error is returned as it is and the totals are
    unchanged. UnescrowCoin, when the funds move fails, returns the error
    under its own label and leaves the totals unchanged; when it returns
    nil the funds move succeeded and the amount is taken from the total.
    (When the funds move succeeds on more than the total holds,
    UnescrowCoin does not return: it panics.) *)
Theorem escrow_unescrow_results (sender escrowAddress receiver : AccAddress)
    (coin : Coin) (ctx : Ctx B) :
  valid_coin coin ->
  0 <= EscrowTotal ctx (CoinDenom coin) ->
  (* EscrowCoin, the funds move succeeds and the new total fits *)
  (forall b, SendCoins (bank ctx) sender escrowAddress (coins_of coin) = (b, None) ->
     EscrowTotal ctx (CoinDenom coin) + CoinAmount coin < 2 ^ MaxBitLen ->
     exists ctx',
       EscrowCoin sender escrowAddress coin ctx = Done (None, ctx') /\
       bank ctx' = b /\
       EscrowTotal ctx' (CoinDenom coin)
       = EscrowTotal ctx (CoinDenom coin) + CoinAmount coin) /\
  (* EscrowCoin, the funds move succeeds and the new total does not fit *)
  (forall b, SendCoins (bank ctx) sender escrowAddress (coins_of coin) = (b, None) ->
     2 ^ MaxBitLen <= EscrowTotal ctx (CoinDenom coin) + CoinAmount coin ->
     EscrowCoin sender escrowAddress coin ctx = Panic) /\
  (* EscrowCoin returns nil only after a successful funds move, on a total
     that fits *)
  (forall ctx',
     EscrowCoin sender escrowAddress coin ctx = Done (None, ctx') ->
     snd (SendCoins (bank ctx) sender escrowAddress (coins_of coin)) = None /\
     EscrowTotal ctx (CoinDenom coin) + CoinAmount coin < 2 ^ MaxBitLen /\
     EscrowTotal ctx' (CoinDenom coin)
     = EscrowTotal ctx (CoinDenom coin) + CoinAmount coin) /\
  (* EscrowCoin, the funds move fails *)
  (forall b err,
     SendCoins (bank ctx) sender escrowAddress (coins_of coin) = (b, Some err) ->
     exists ctx',
       EscrowCoin sender escrowAddress coin ctx = Done (Some err, ctx') /\
       totalEscrow ctx' = totalEscrow ctx) /\
  (* UnescrowCoin, the funds move fails *)
  (forall b err,
     SendCoins (bank ctx) escrowAddress receiver (coins_of coin) = (b, Some err) ->
     exists ctx',
       UnescrowCoin escrowAddress receiver coin ctx
       = Done (Some (Wrap err unescrow_failure), ctx') /\
       totalEscrow ctx' = totalEscrow ctx) /\
  (* UnescrowCoin, the funds move succeeds *)
  (forall b, SendCoins (bank ctx) escrowAddress receiver (coins_of coin) = (b, None) ->
     if (CoinAmount coin <=? EscrowTotal ctx (CoinDenom coin))
        && (EscrowTotal ctx (CoinDenom coin) - CoinAmount coin <? 2 ^ MaxBitLen)
     then exists ctx',
       UnescrowCoin escrowAddress receiver coin ctx = Done (None, ctx') /\
       bank ctx' = b /\
       EscrowTotal ctx' (CoinDenom coin)
       = EscrowTotal ctx (CoinDenom coin) - CoinAmount coin
     else UnescrowCoin escrowAddress receiver coin ctx = Panic) /\
  (* UnescrowCoin returns nil only after a successful funds move *)
  (forall ctx',
     UnescrowCoin escrowAddress receiver coin ctx = Done (None, ctx') ->
     snd (SendCoins (bank ctx) escrowAddress receiver (coins_of coin)) = None /\
     EscrowTotal ctx' (CoinDenom coin)
     = EscrowTotal ctx (CoinDenom coin) - CoinAmount coin).
Proof.
  intros Hvalid Hnonneg.
  pose proof (NewCoins_valid coin Hvalid) as Hcoins.
  destruct Hvalid as [_ Hpos].
  split; [|split; [|split; [|split; [|split; [|split]]]]].
  - intros b Hsend Hfits. rewrite EscrowCoin_unfold, Hcoins, Hsend.
    rewrite (proj2 (overflows_false _)) by lia.
    destruct (Z.ltb_spec (EscrowTotal ctx (CoinDenom coin) + CoinAmount coin) 0);
      [lia|].
    eexists. split; [done|]. split; [done|].
    by rewrite EscrowTotal_insert, String.eqb_refl.
  - intros b Hsend Hover. rewrite EscrowCoin_unfold, Hcoins, Hsend.
    by rewrite (proj2 (overflows_true _)) by lia.
  - intros ctx' Hrun. split; [|split].
    + rewrite EscrowCoin_unfold, Hcoins in Hrun.
      by destruct (SendCoins _ _ _ _) as [b [err|]].
    + rewrite EscrowCoin_unfold, Hcoins in Hrun.
      destruct (SendCoins _ _ _ _) as [b [err|]]; [done|].
      destruct (overflows _) eqn:Hover; [done|].
      apply overflows_false in Hover. lia.
    + apply EscrowCoin_total in Hrun as [_ Htot].
      by rewrite Htot, String.eqb_refl.
  - intros b err Hsend. rewrite EscrowCoin_unfold, Hcoins, Hsend.
    by eexists.
  - intros b err Hsend. rewrite UnescrowCoin_unfold, Hcoins, Hsend.
    by eexists.
  - intros b Hsend. rewrite UnescrowCoin_unfold, Hcoins, Hsend.
    destruct (Z.leb_spec (CoinAmount coin) (EscrowTotal ctx (CoinDenom coin)));
      destruct (Z.ltb_spec (EscrowTotal ctx (CoinDenom coin) - CoinAmount coin)
                  (2 ^ MaxBitLen));
      cbn [andb].
    + rewrite (proj2 (overflows_false _)) by lia.
      destruct (Z.ltb_spec (EscrowTotal ctx (CoinDenom coin) - CoinAmount coin) 0);
        [lia|].
      eexists. split; [done|]. split; [done|].
      by rewrite EscrowTotal_insert, String.eqb_refl.
    + by rewrite (proj2 (overflows_true _)) by lia.
    + destruct (overflows _); [done|].
      by destruct (Z.ltb_spec (EscrowTotal ctx (CoinDenom coin) - CoinAmount coin) 0);
        [|lia].
    + lia.
  - intros ctx' Hrun. split.
    + rewrite UnescrowCoin_unfold, Hcoins in Hrun.
      by destruct (SendCoins _ _ _ _) as [b [err|]].
    + apply UnescrowCoin_total in Hrun as (_ & _ & Htot).
      by rewrite Htot, String.eqb_refl.
Qed.
End EscrowLedger.

(** ** The send path *)

Section SendPath.
Context {B : Type}.
Context `{SDK} `{BankKeeper B} `{AuthKeeper} `{TransferTypes} `{KeeperDeps}.

Lemma ToCoin_Ok (token : Token) (coin : Coin) :
  ToCoin token = Done (Ok coin) ->
  valid_coin coin /\ CoinDenom coin = IBCDenom (TokenDenom token)
  /\ NewIntFromString (Amount token) = Some (CoinAmount coin).
Proof.
  unfold ToCoin.
  destruct (NewIntFromString (Amount token)) as [amount|]; [|done].
  destruct (NewCoin _ amount) as [c|] eqn:Hc; [|done].
  intros [= ->]. by apply NewCoin_Done in Hc as [-> Hv].
Qed.

Lemma set_bank_set_bank (b1 b2 : B) (ctx : Ctx B) :
  set_bank b2 (set_bank b1 ctx) = set_bank b2 ctx.
Proof. reflexivity. Qed.

(** The steps of the relay that do not go through EscrowCoin or
    UnescrowCoin leave the escrow totals as they were. *)
Lemma other_steps_keep_totals (account : AccAddress) (coin : Coin) (d : Denom)
    (r : option error) (ctx ctx' : Ctx B) :
  (burn_from_sender account coin ctx = Done (r, ctx') \/
   mint_voucher account coin ctx = Done (r, ctx') \/
   mint_back account coin ctx = Done (r, ctx') \/
   ctx' = register_if_unseen d ctx) ->
  totalEscrow ctx' = totalEscrow ctx.
Proof.
  unfold burn_from_sender, mint_voucher, mint_back, register_if_unseen.
  intros [Hstep|[Hstep|[Hstep| ->]]].
  - destruct (SendCoinsFromAccountToModule _ _ _ _) as [b1 [err|]].
    + by injection Hstep as _ <-.
    + destruct (BurnCoins _ _ _) as [b2 [err|]]; [done|].
      by injection Hstep as _ <-.
  - destruct (MintCoins _ _ _) as [b1 [err|]].
    + by injection Hstep as _ <-.
    + destruct (SendCoins _ _ _ _) as [b2 [err|]]; by injection Hstep as _ <-.
  - destruct (MintCoins _ _ _) as [b1 [err|]].
    + by injection Hstep as _ <-.
    + destruct (SendCoins _ _ _ _) as [b2 [err|]]; [done|].
      by injection Hstep as _ <-.
  - destruct (denoms ctx !! Hash d); by destruct (HasDenomMetaData _ _).
Qed.

(** A write at or beyond the end of a window of a list leaves the window
    as it was. *)
Lemma take_drop_insert_ge {A} (cells : list A) (off n j : nat) (x : A) :
  (off + n <= j)%nat ->
  take n (drop off (<[j := x]> cells)) = take n (drop off cells).
Proof.
  intros Hj. apply list_eq. intros k.
  destruct (decide (k < n)%nat) as [Hk|Hk].
  - rewrite !lookup_take_lt, !lookup_drop by done.
    apply list_lookup_insert_ne. lia.
  - by rewrite !lookup_take_ge by lia.
Qed.

(** The loop of SendTransfer, started at index [i] with [todo] elements to
    go, on a heap where the array of the ranged-over slice [r] holds the
    elements [l]: it runs the body over the rest of [l], whatever slice
    the variable [tokens] has become, and keeps the elements of [r]. *)
Lemma SendTransfer_range_spec (sourcePort sourceChannel : string)
    (sender : AccAddress) (r : Slice) (l : list Token) :
  forall (todo i : nat) (tokens : Slice) (h : Heap) (ctx : Ctx B)
         (cells : list Token),
    h !! array r = Some cells ->
    take (len r) (drop (offset r) cells) = l ->
    (offset r + len r <= length cells)%nat ->
    (i + todo = len r)%nat ->
    (array tokens = array r ->
     (offset r + len r <= offset tokens + len tokens)%nat) ->
    forget_heap (SendTransfer_range sourcePort sourceChannel sender
                   r i todo tokens (ctx, h))
    = send_each sourcePort sourceChannel sender (drop i l) ctx /\
    forall h',
      heap_of (SendTransfer_range sourcePort sourceChannel sender
                 r i todo tokens (ctx, h)) = Some h' ->
      elements h' r = l.
Proof.
  induction todo as [|todo IH];
    intros i tokens h ctx cells Hcells Hl Hlen Hi Htokens.
  - assert (length l = len r) as Hll.
    { rewrite <- Hl. rewrite length_take_le; [done|]. rewrite length_drop. lia. }
    rewrite drop_ge by lia. simpl. split; [done|].
    intros h' [= <-]. unfold elements. by rewrite Hcells.
  - assert (i < len r)%nat as Hlt by lia.
    assert (exists token, cells !! (offset r + i)%nat = Some token)
      as [token Htoken].
    { apply lookup_lt_is_Some. lia. }
    assert (l !! i = Some token) as Hli.
    { rewrite <- Hl. by rewrite lookup_take_lt, lookup_drop. }
    rewrite (drop_S _ _ _ Hli).
    cbn [SendTransfer_range send_each].
    unfold bind at 1 3. unfold index. cbn [fst snd].
    apply Nat.ltb_lt in Hlt as Hltb. rewrite Hltb.
    rewrite Hcells. cbn [mbind option_bind]. rewrite Htoken.
    unfold guard, bind, on_ctx. cbn [fst snd].
    destruct (SendTransfer_body sourcePort sourceChannel sender token ctx)
      as [[[err|] ctx1]|] eqn:Hbody; cbn [forget_heap heap_of ret].
    + split; [done|]. intros h' [= <-]. unfold elements. by rewrite Hcells.
    + unfold append. cbn [fst snd].
      destruct (len tokens <? cap tokens)%nat eqn:Hroom.
      * (* the append writes in place *)
        destruct (decide (array tokens = array r)) as [Heq|Hne].
        -- eapply (IH (S i) _ _ ctx1
                     (<[(offset tokens + len tokens)%nat := token]> cells)).
           ++ rewrite Heq, list_lookup_alter_eq, Hcells. done.
           ++ rewrite <- Hl. apply take_drop_insert_ge. by apply Htokens.
           ++ by rewrite length_insert.
           ++ lia.
           ++ cbn. intros _. specialize (Htokens Heq). lia.
        -- eapply (IH (S i) _ _ ctx1 cells); try done.
           ++ by rewrite list_lookup_alter_ne.
           ++ lia.
      * (* the append moves to a new array *)
        apply lookup_lt_Some in Hcells as Hin.
        eapply (IH (S i) _ _ ctx1 cells); try done.
        ++ by rewrite lookup_app_l.
        ++ lia.
        ++ cbn. lia.
    + done.
Qed.

(** C10. SendTransfer appends each processed token to [tokens] inside the
    loop over [tokens], and still processes each element of the slice it
    was given exactly once, in order: its result and its effects on the
    context are those of running the body over the elements the slice had
    on entry. The appended copies are never ranged over, and the elements
    of the caller's slice are not overwritten. *)
Theorem SendTransfer_processes_each_token_once
    (sourcePort sourceChannel : string) (tokens : Slice)
    (sender : AccAddress) (ctx : Ctx B) (h : Heap) :
  valid_slice h tokens ->
  SendEnabled (params ctx) = true ->
  IsBlockedAddr sender = false ->
  forget_heap (SendTransfer sourcePort sourceChannel tokens sender (ctx, h))
  = send_each sourcePort sourceChannel sender (elements h tokens) ctx /\
  forall h',
    heap_of (SendTransfer sourcePort sourceChannel tokens sender (ctx, h))
    = Some h' ->
    elements h' tokens = elements h tokens.
Proof.
  intros (Hcap & cells & Hcells & Hlen) Henabled Hsender.
  unfold SendTransfer, bind, on_ctx, GetParams. cbn [fst snd].
  rewrite Henabled, Hsender. cbn [negb].
  replace (send_each sourcePort sourceChannel sender (elements h tokens) ctx)
    with (send_each sourcePort sourceChannel sender
            (drop 0 (elements h tokens)) ctx) by done.
  eapply SendTransfer_range_spec; try done.
  - unfold elements. by rewrite Hcells.
  - lia.
Qed.
(** The body of SendTransfer's loop, in direct style. *)
Lemma SendTransfer_body_unfold (sourcePort sourceChannel : string)
    (sender : AccAddress) (token : Token) (ctx : Ctx B) :
  SendTransfer_body sourcePort sourceChannel sender token ctx =
  match ToCoin token with
  | Panic => Panic
  | Done (Err err) => Done (Some err, ctx)
  | Done (Ok coin) =>
      match IsSendEnabledCoins (bank ctx) coin with
      | Some err => Done (Some (WrapError ErrSendDisabled err), ctx)
      | None =>
          if HasPrefix (TokenDenom token) sourcePort sourceChannel
          then burn_from_sender sender coin ctx
          else EscrowCoin sender (GetEscrowAddress sourcePort sourceChannel)
                 coin ctx
      end
  end.
Proof.
  unfold SendTransfer_body, guard_val, guard, bind, lift_outcome.
  destruct (ToCoin token) as [[coin|err]|] eqn:Hcoin; [|done|done].
  destruct (ToCoin_Ok _ _ Hcoin) as (Hvalid & _ & _).
  destruct (IsSendEnabledCoins (bank ctx) coin) as [err|]; [done|].
  destruct (HasPrefix _ _ _).
  - rewrite (NewCoins_valid _ Hvalid).
    unfold bank_call, burn_from_sender, panic, ret.
    destruct (SendCoinsFromAccountToModule _ _ _ _) as [b1 [err|]]; cbn;
      [done|].
    by destruct (BurnCoins _ _ _) as [b2 [err|]].
  - by destruct (EscrowCoin _ _ _ _) as [[[err|] ctx']|].
Qed.

(** A SendTransfer call that returns passed both gates. *)
Lemma SendTransfer_returns (sourcePort sourceChannel : string)
    (tokens : Slice) (sender : AccAddress) (ctx : Ctx B) (h : Heap) :
  valid_slice h tokens ->
  forget_heap (SendTransfer sourcePort sourceChannel tokens sender (ctx, h))
  = if negb (SendEnabled (params ctx)) then Done (Some ErrSendDisabled, ctx)
    else if IsBlockedAddr sender
         then Done (Some (Wrapf ErrUnauthorized
                            "%s is not allowed to send funds"
                            [ArgAddress sender]), ctx)
         else send_each sourcePort sourceChannel sender (elements h tokens) ctx.
Proof.
  intros (Hcap & cells & Hcells & Hlen).
  unfold SendTransfer, bind, on_ctx, GetParams. cbn [fst snd].
  destruct (SendEnabled (params ctx)); cbn [negb]; [|done].
  destruct (IsBlockedAddr sender); [done|].
  replace (send_each sourcePort sourceChannel sender (elements h tokens) ctx)
    with (send_each sourcePort sourceChannel sender
            (drop 0 (elements h tokens)) ctx) by done.
  eapply SendTransfer_range_spec; try done.
  - unfold elements. by rewrite Hcells.
  - lia.
Qed.

Lemma send_each_app (sourcePort sourceChannel : string)
    (sender : AccAddress) (before after : list Token) (ctx ctx1 : Ctx B) :
  send_each sourcePort sourceChannel sender before ctx = Done (None, ctx1) ->
  send_each sourcePort sourceChannel sender (before ++ after)%list ctx
  = send_each sourcePort sourceChannel sender after ctx1.
Proof.
  revert ctx. induction before as [|token rest IH]; intros ctx.
  - by intros [= <-].
  - rewrite <- app_comm_cons. cbn [send_each]. unfold guard, bind.
    destruct (SendTransfer_body _ _ _ token ctx) as [[[err|] ctx0]|];
      [done| |done].
    apply IH.
Qed.

(** SendTransfer at one of its tokens: with both gates open and the tokens
    before it gone through, the call does the round of that token and, if
    it returns no error, goes on with the tokens after it. *)
Lemma SendTransfer_at (sourcePort sourceChannel : string) (tokens : Slice)
    (sender : AccAddress) (before after : list Token) (token : Token)
    (ctx ctx1 : Ctx B) (h : Heap) :
  valid_slice h tokens ->
  SendEnabled (params ctx) = true ->
  IsBlockedAddr sender = false ->
  elements h tokens = (before ++ token :: after)%list ->
  send_each sourcePort sourceChannel sender before ctx = Done (None, ctx1) ->
  forget_heap (SendTransfer sourcePort sourceChannel tokens sender (ctx, h))
  = match SendTransfer_body sourcePort sourceChannel sender token ctx1 with
    | Done (None, ctx2) => send_each sourcePort sourceChannel sender after ctx2
    | Done (Some err, ctx2) => Done (Some err, ctx2)
    | Panic => Panic
    end.
Proof.
  intros Hvalid Henabled Hsender Helems Hbefore.
  rewrite (SendTransfer_returns _ _ _ _ _ _ Hvalid), Henabled, Hsender, Helems.
  cbn [negb]. rewrite (send_each_app _ _ _ _ _ _ _ Hbefore).
  cbn [send_each]. unfold guard, bind.
  by destruct (SendTransfer_body _ _ _ token ctx1) as [[[err|] ctx2]|].
Qed.

(** C2. The direction test of the send path, for every token of a
    SendTransfer call. Let the call pass its gates and reach a token of
    its slice, the tokens before it having gone through, and let the token
    convert to a coin the ledger lets through. If the token's denom has the
    prefix (sourcePort, sourceChannel), the call moves the coin from the
    sender to the module account and then burns it, which leaves the escrow
    totals as they were; otherwise it escrows the coin with EscrowCoin at
    the escrow address of (sourcePort, sourceChannel). In both cases an
    error ends the call, and without one the call goes on with the tokens
    after it. *)
Theorem send_direction (sourcePort sourceChannel : string) (tokens : Slice)
    (sender : AccAddress) (before after : list Token) (token : Token)
    (coin : Coin) (ctx ctx1 : Ctx B) (h : Heap) :
  valid_slice h tokens ->
  SendEnabled (params ctx) = true ->
  IsBlockedAddr sender = false ->
  elements h tokens = (before ++ token :: after)%list ->
  send_each sourcePort sourceChannel sender before ctx = Done (None, ctx1) ->
  ToCoin token = Done (Ok coin) ->
  IsSendEnabledCoins (bank ctx1) coin = None ->
  (HasPrefix (TokenDenom token) sourcePort sourceChannel = true ->
     forget_heap (SendTransfer sourcePort sourceChannel tokens sender (ctx, h))
     = match burn_from_sender sender coin ctx1 with
       | Done (None, ctx2) => send_each sourcePort sourceChannel sender after ctx2
       | Done (Some err, ctx2) => Done (Some err, ctx2)
       | Panic => Panic
       end /\
     forall r ctx2,
       burn_from_sender sender coin ctx1 = Done (r, ctx2) ->
       totalEscrow ctx2 = totalEscrow ctx1) /\
  (HasPrefix (TokenDenom token) sourcePort sourceChannel = false ->
     forget_heap (SendTransfer sourcePort sourceChannel tokens sender (ctx, h))
     = match EscrowCoin sender (GetEscrowAddress sourcePort sourceChannel)
               coin ctx1 with
       | Done (None, ctx2) => send_each sourcePort sourceChannel sender after ctx2
       | Done (Some err, ctx2) => Done (Some err, ctx2)
       | Panic => Panic
       end).
Proof.
  intros Hvalid Henabled Hsender Helems Hbefore Hcoin Hallowed.
  pose proof (SendTransfer_at _ _ _ _ _ _ _ _ _ _
                Hvalid Henabled Hsender Helems Hbefore) as Hcall.
  rewrite SendTransfer_body_unfold, Hcoin, Hallowed in Hcall.
  split; intros Hprefix; rewrite Hprefix in Hcall; [|done].
  split; [done|].
  intros r ctx2 Hburn.
  apply (other_steps_keep_totals sender coin (TokenDenom token) r ctx1 ctx2).
  by left.
Qed.
End SendPath.

(** ** The receive path and the refund *)

Section ReceivePath.
Context {B : Type}.
Context `{SDK} `{BankKeeper B} `{AuthKeeper} `{TransferTypes} `{KeeperDeps}.

Lemma HasPrefix_true (d : Denom) (port channel : string) :
  HasPrefix d port channel = true ->
  exists rest, Trace d = NewHop port channel :: rest.
Proof.
  unfold HasPrefix. destruct (Trace d) as [|[p c] rest]; [done|]. simpl.
  intros [Hp Hc]%andb_prop.
  apply String.eqb_eq in Hp as ->. apply String.eqb_eq in Hc as ->.
  by exists rest.
Qed.

(** The state after the registration steps of the mint branch. *)
Lemma register_steps (d : Denom) (ctx : Ctx B) :
  (known <- HasDenom (Hash d);
   _ <- (if negb known then SetDenom d else ret tt);
   hasMeta <- (fun ctx => Done (HasDenomMetaData (bank ctx) (IBCDenom d), ctx));
   _ <- (if negb hasMeta then SetDenomMetadata d else ret tt);
   ret tt) ctx
  = Done (tt, register_if_unseen d ctx).
Proof.
  unfold bind, HasDenom, SetDenom, SetDenomMetadata, modify, ret,
    register_if_unseen.
  destruct (denoms ctx !! Hash d) as [d'|] eqn:Hd.
  - rewrite bool_decide_eq_true_2 by eauto. simpl.
    by destruct (HasDenomMetaData (bank ctx) (IBCDenom d)).
  - rewrite bool_decide_eq_false_2 by (by intros [? ?]). simpl.
    by destruct (HasDenomMetaData (bank ctx) (IBCDenom d)).
Qed.

Lemma register_if_unseen_events (d : Denom) (ctx : Ctx B) :
  events (register_if_unseen d ctx) = events ctx.
Proof.
  unfold register_if_unseen.
  destruct (denoms ctx !! Hash d); by destruct (HasDenomMetaData _ _).
Qed.

(** The body of OnRecvPacket's loop, in direct style. *)
Lemma OnRecvPacket_body_unfold
    (sourcePort sourceChannel destPort destChannel : string)
    (receiver : AccAddress) (token : Token) (receivedCoins : Coins)
    (ctx : Ctx B) :
  OnRecvPacket_body sourcePort sourceChannel destPort destChannel receiver
    token receivedCoins ctx =
  match NewIntFromString (Amount token) with
  | None =>
      Done (Err (Wrapf ErrInvalidAmount "unable to parse transfer amount: %s"
                   [ArgString (Amount token)]), ctx)
  | Some amount =>
      let denom := received_denom sourcePort sourceChannel destPort
                     destChannel (TokenDenom token) in
      match NewCoin (IBCDenom denom) amount with
      | Panic => Panic
      | Done coin =>
          match
            (if HasPrefix (TokenDenom token) sourcePort sourceChannel
             then UnescrowCoin (GetEscrowAddress destPort destChannel)
                    receiver coin ctx
             else mint_voucher receiver coin
                    (set_events
                       (events ctx ++ [DenomEvent (MkToken denom (Amount token))])%list
                       (register_if_unseen denom ctx)))
          with
          | Done (None, ctx') => Done (Ok (receivedCoins ++ [coin])%list, ctx')
          | Done (Some err, ctx') => Done (Err err, ctx')
          | Panic => Panic
          end
      end
  end.
Proof.
  unfold OnRecvPacket_body, received_denom.
  destruct (NewIntFromString (Amount token)) as [amount|]; [|done].
  destruct (HasPrefix (TokenDenom token) sourcePort sourceChannel) eqn:Hprefix.
  - destruct (HasPrefix_true _ _ _ Hprefix) as [rest Htrace].
    rewrite Htrace. unfold bind, lift_outcome, guard.
    cbn [from_1 TokenDenom tail].
    destruct (NewCoin _ amount) as [coin|]; [|done].
    unfold bind. by destruct (UnescrowCoin _ _ _ _) as [[[err|] ctx']|].
  - cbn [TokenDenom Amount app].
    set (denom := MkDenom _ _) in *.
    pose proof (register_steps denom ctx) as Hreg.
    unfold bind in Hreg |- *.
    destruct (HasDenom (Hash denom) ctx) as [[known ctx1]|]; [|done].
    destruct ((if negb known then SetDenom denom else ret tt) ctx1)
      as [[[] ctx2]|]; [|done].
    assert (Hstate :
      (if negb (HasDenomMetaData (bank ctx2) (IBCDenom denom))
       then set_bank (SetDenomMetaData (bank ctx2) denom) ctx2 else ctx2)
      = register_if_unseen denom ctx).
    { unfold SetDenomMetadata, modify, ret in Hreg.
      destruct (HasDenomMetaData (bank ctx2) (IBCDenom denom));
        cbn [negb] in *; congruence. }
    rewrite <- (register_if_unseen_events denom ctx), <- Hstate.
    unfold SetDenomMetadata, EmitDenomEvent, modify, lift_outcome, guard,
      bind, ret.
    destruct (NewCoin (IBCDenom denom) amount) as [voucher|] eqn:Hvoucher.
    2:{ by destruct (HasDenomMetaData (bank ctx2) (IBCDenom denom)). }
    apply NewCoin_Done in Hvoucher as [_ Hvalid].
    rewrite (NewCoins_valid _ Hvalid).
    unfold bank_call, mint_voucher.
    destruct (HasDenomMetaData (bank ctx2) (IBCDenom denom)); cbn [negb];
      cbn [bank set_events set_bank];
      (destruct (MintCoins _ _ _) as [b1 [err|]]; cbn; [done|];
       by destruct (SendCoins _ _ _ _) as [b2 [err|]]).
Qed.

(** OnRecvPacket, in direct style. *)
Lemma OnRecvPacket_unfold (data : FungibleTokenPacketDataV2)
    (sourcePort sourceChannel destPort destChannel : string) (ctx : Ctx B) :
  OnRecvPacket data sourcePort sourceChannel destPort destChannel ctx =
  match ValidateBasicV2 data with
  | Some err =>
      Done (Err (Wrapf err "error validating ICS-20 transfer packet data" []),
            ctx)
  | None =>
      if negb (ReceiveEnabled (params ctx)) then Done (Err ErrReceiveDisabled, ctx)
      else
        match getReceiverFromPacketData data with
        | Err err => Done (Err err, ctx)
        | Ok receiver =>
            if IsBlockedAddr receiver then
              Done (Err (Wrapf ErrUnauthorized
                           "%s is not allowed to receive funds"
                           [ArgAddress receiver]), ctx)
            else
              OnRecvPacket_range sourcePort sourceChannel destPort destChannel
                receiver (Tokens data) [] ctx
        end
  end.
Proof.
  unfold OnRecvPacket, bind, GetParams.
  destruct (ValidateBasicV2 data); [done|].
  destruct (ReceiveEnabled (params ctx)); cbn [negb]; [|done].
  destruct (getReceiverFromPacketData data) as [receiver|]; [|done].
  by destruct (IsBlockedAddr receiver).
Qed.

Lemma OnRecvPacket_range_app
    (sourcePort sourceChannel destPort destChannel : string)
    (receiver : AccAddress) (before after : list Token) :
  forall (receivedCoins coins : Coins) (ctx ctx1 : Ctx B),
    OnRecvPacket_range sourcePort sourceChannel destPort destChannel receiver
      before receivedCoins ctx = Done (Ok coins, ctx1) ->
    OnRecvPacket_range sourcePort sourceChannel destPort destChannel receiver
      (before ++ after)%list receivedCoins ctx
    = OnRecvPacket_range sourcePort sourceChannel destPort destChannel receiver
        after coins ctx1.
Proof.
  induction before as [|token rest IH]; intros receivedCoins coins ctx ctx1.
  - by intros [= <- <-].
  - rewrite <- app_comm_cons. cbn [OnRecvPacket_range]. unfold guard_val, bind.
    destruct (OnRecvPacket_body _ _ _ _ _ token receivedCoins ctx)
      as [[[coins0|err] ctx0]|]; [|done|done].
    apply IH.
Qed.

(** OnRecvPacket at one of its tokens: with valid data, the gate open, a
    receiver that is not blocked and the tokens before it gone through, the
    call does the round of that token and, if it returns no error, goes on
    with the tokens after it. *)
Lemma OnRecvPacket_at (data : FungibleTokenPacketDataV2)
    (sourcePort sourceChannel destPort destChannel : string)
    (receiver : AccAddress) (before after : list Token) (token : Token)
    (receivedCoins : Coins) (ctx ctx1 : Ctx B) :
  ValidateBasicV2 data = None ->
  ReceiveEnabled (params ctx) = true ->
  getReceiverFromPacketData data = Ok receiver ->
  IsBlockedAddr receiver = false ->
  Tokens data = (before ++ token :: after)%list ->
  OnRecvPacket_range sourcePort sourceChannel destPort destChannel receiver
    before [] ctx = Done (Ok receivedCoins, ctx1) ->
  OnRecvPacket data sourcePort sourceChannel destPort destChannel ctx
  = match OnRecvPacket_body sourcePort sourceChannel destPort destChannel
            receiver token receivedCoins ctx1 with
    | Done (Ok coins, ctx2) =>
        OnRecvPacket_range sourcePort sourceChannel destPort destChannel
          receiver after coins ctx2
    | Done (Err err, ctx2) => Done (Err err, ctx2)
    | Panic => Panic
    end.
Proof.
  intros Hvalid Henabled Hreceiver Hallowed Htokens Hbefore.
  rewrite OnRecvPacket_unfold, Hvalid, Henabled, Hreceiver, Hallowed, Htokens.
  cbn [negb]. rewrite (OnRecvPacket_range_app _ _ _ _ _ _ _ _ _ _ _ Hbefore).
  cbn [OnRecvPacket_range]. unfold guard_val, bind.
  by destruct (OnRecvPacket_body _ _ _ _ _ token receivedCoins ctx1)
    as [[[coins|err] ctx2]|].
Qed.

(** C3. The direction test of the receive path, for every token OnRecvPacket
    processes. Let the call pass validation and its gates and reach a token
    of the packet, the tokens before it having gone through, and let the
    token's amount parse. If the token's denom has the prefix (sourcePort,
    sourceChannel), the leading hop is dropped from its trace and the coin
    of the shorter trace is unescrowed from the escrow address of
    (destPort, destChannel) to the receiver. Otherwise the hop (destPort,
    destChannel) is put in front of the trace, the resulting denom is
    registered if no denom is registered under its hash, its metadata if
    the ledger has none for it, a denomination event is emitted, and the
    voucher is minted and sent from the module account to the receiver. In
    both cases an error ends the call; without one the coin credited is
    appended to the received coins and the call goes on with the tokens
    after it. *)
Theorem receive_direction (data : FungibleTokenPacketDataV2)
    (sourcePort sourceChannel destPort destChannel : string)
    (receiver : AccAddress) (before after : list Token) (token : Token)
    (amount : Z) (receivedCoins : Coins) (ctx ctx1 : Ctx B) :
  ValidateBasicV2 data = None ->
  ReceiveEnabled (params ctx) = true ->
  getReceiverFromPacketData data = Ok receiver ->
  IsBlockedAddr receiver = false ->
  Tokens data = (before ++ token :: after)%list ->
  OnRecvPacket_range sourcePort sourceChannel destPort destChannel receiver
    before [] ctx = Done (Ok receivedCoins, ctx1) ->
  NewIntFromString (Amount token) = Some amount ->
  (HasPrefix (TokenDenom token) sourcePort sourceChannel = true ->
     exists rest,
       Trace (TokenDenom token) = NewHop sourcePort sourceChannel :: rest /\
       forall coin,
         NewCoin (IBCDenom (MkDenom (Base (TokenDenom token)) rest)) amount
         = Done coin ->
         OnRecvPacket data sourcePort sourceChannel destPort destChannel ctx
         = match UnescrowCoin (GetEscrowAddress destPort destChannel)
                   receiver coin ctx1 with
           | Done (None, ctx2) =>
               OnRecvPacket_range sourcePort sourceChannel destPort
                 destChannel receiver after (receivedCoins ++ [coin])%list ctx2
           | Done (Some err, ctx2) => Done (Err err, ctx2)
           | Panic => Panic
           end) /\
  (HasPrefix (TokenDenom token) sourcePort sourceChannel = false ->
     forall denom voucher,
       denom = MkDenom (Base (TokenDenom token))
                 (NewHop destPort destChannel :: Trace (TokenDenom token)) ->
       NewCoin (IBCDenom denom) amount = Done voucher ->
       OnRecvPacket data sourcePort sourceChannel destPort destChannel ctx
       = match mint_voucher receiver voucher
                 (set_events
                    (events ctx1 ++ [DenomEvent (MkToken denom (Amount token))])%list
                    (register_if_unseen denom ctx1)) with
         | Done (None, ctx2) =>
             OnRecvPacket_range sourcePort sourceChannel destPort destChannel
               receiver after (receivedCoins ++ [voucher])%list ctx2
         | Done (Some err, ctx2) => Done (Err err, ctx2)
         | Panic => Panic
         end).
Proof.
  intros Hvalid Henabled Hreceiver Hallowed Htokens Hbefore Hamount.
  pose proof (OnRecvPacket_at _ _ _ _ _ _ _ _ _ _ _ _
                Hvalid Henabled Hreceiver Hallowed Htokens Hbefore) as Hcall.
  rewrite OnRecvPacket_body_unfold, Hamount in Hcall. cbn zeta in Hcall.
  unfold received_denom in Hcall.
  split; intros Hprefix; rewrite Hprefix in Hcall.
  - destruct (HasPrefix_true _ _ _ Hprefix) as [rest Htrace].
    exists rest. split; [done|]. intros coin Hcoin.
    rewrite Htrace in Hcall. cbn [tail] in Hcall. rewrite Hcoin in Hcall.
    rewrite Hcall.
    by destruct (UnescrowCoin _ _ _ _) as [[[err|] ctx2]|].
  - intros denom voucher -> Hvoucher. rewrite Hvoucher in Hcall.
    rewrite Hcall.
    by destruct (mint_voucher _ _ _) as [[[err|] ctx2]|].
Qed.
End ReceivePath.

Section Refund.
Context {B : Type}.
Context `{SDK} `{BankKeeper B} `{AuthKeeper} `{TransferTypes} `{KeeperDeps}.

Lemma refund_body_token (sourcePort sourceChannel : string)
    (sender : AccAddress) (token : Token) (ctx : Ctx B) :
  refundPacketTokens_body sourcePort sourceChannel sender
    (GetEscrowAddress sourcePort sourceChannel)
    (GetModuleAddress ModuleName) token ctx
  = refund_token sourcePort sourceChannel sender token ctx.
Proof.
  unfold refundPacketTokens_body, refund_token, guard_val, guard, bind,
    lift_outcome.
  destruct (ToCoin token) as [[coin|err]|] eqn:Hcoin; [|done|done].
  destruct (ToCoin_Ok _ _ Hcoin) as (Hvalid & _ & _).
  destruct (HasPrefix _ _ _).
  - rewrite (NewCoins_valid _ Hvalid). unfold bank_call, mint_back, panic, ret.
    destruct (MintCoins _ _ _) as [b1 [err|]]; cbn; [done|].
    by destruct (SendCoins _ _ _ _) as [b2 [err|]].
  - by destruct (UnescrowCoin _ _ _ _) as [[[err|] ctx']|].
Qed.

Lemma refund_range_each (sourcePort sourceChannel : string)
    (sender : AccAddress) (tokens : list Token) (ctx : Ctx B) :
  refundPacketTokens_range sourcePort sourceChannel sender
    (GetEscrowAddress sourcePort sourceChannel)
    (GetModuleAddress ModuleName) tokens ctx
  = refund_each sourcePort sourceChannel sender tokens ctx.
Proof.
  revert ctx. induction tokens as [|token rest IH]; intros ctx; [done|].
  cbn [refundPacketTokens_range refund_each]. unfold guard, bind.
  rewrite refund_body_token.
  destruct (refund_token _ _ _ _ _) as [[[err|] ctx']|]; [done| |done].
  apply IH.
Qed.

(** refundPacketTokens, in direct style. *)
Lemma refundPacketTokens_unfold (sourcePort sourceChannel : string)
    (data : FungibleTokenPacketDataV2) (ctx : Ctx B) :
  refundPacketTokens sourcePort sourceChannel data ctx =
  match AccAddressFromBech32 (Sender data) with
  | Err err => Done (Some err, ctx)
  | Ok sender =>
      if IsBlockedAddr sender
      then Done (Some (Wrapf ErrUnauthorized
                         "%s is not allowed to receive funds"
                         [ArgAddress sender]), ctx)
      else refund_each sourcePort sourceChannel sender (Tokens data) ctx
  end.
Proof.
  unfold refundPacketTokens.
  destruct (AccAddressFromBech32 (Sender data)) as [sender|err]; [|done].
  destruct (IsBlockedAddr sender); [done|]. apply refund_range_each.
Qed.

(** C5, as the code has it. Acknowledgements and timeouts. A success
    acknowledgement returns nil and changes nothing. An error
    acknowledgement does what a timeout does, and a timeout first looks at
    the sender of the packet: when the sender's address does not parse, the
    parse error is returned, and when the sender is a blocked address,
    ErrUnauthorized is, in both cases before any token is looked at and
    with the state untouched, so that nothing is refunded. For any other
    sender the sender is refunded: token by token, in order, a token whose
    denom has the prefix (sourcePort, sourceChannel) is minted back to the
    sender from the module account, any other is unescrowed back to the
    sender from the escrow address of that port and channel. *)
Theorem acknowledgement_and_timeout_refund
    (sourcePort sourceChannel : string) (data : FungibleTokenPacketDataV2)
    (ctx : Ctx B) :
  (forall result,
     OnAcknowledgementPacket sourcePort sourceChannel data
       (Acknowledgement_Result result) ctx = Done (None, ctx)) /\
  (forall err,
     OnAcknowledgementPacket sourcePort sourceChannel data
       (Acknowledgement_Error err) ctx
     = OnTimeoutPacket sourcePort sourceChannel data ctx) /\
  match AccAddressFromBech32 (Sender data) with
  | Err err =>
      OnTimeoutPacket sourcePort sourceChannel data ctx = Done (Some err, ctx)
  | Ok sender =>
      if IsBlockedAddr sender
      then OnTimeoutPacket sourcePort sourceChannel data ctx
           = Done (Some (Wrapf ErrUnauthorized
                           "%s is not allowed to receive funds"
                           [ArgAddress sender]), ctx)
      else OnTimeoutPacket sourcePort sourceChannel data ctx
           = refund_each sourcePort sourceChannel sender (Tokens data) ctx
  end /\
  (forall sender token coin (ctx1 : Ctx B),
     ToCoin token = Done (Ok coin) ->
     refund_token sourcePort sourceChannel sender token ctx1
     = if HasPrefix (TokenDenom token) sourcePort sourceChannel
       then mint_back sender coin ctx1
       else UnescrowCoin (GetEscrowAddress sourcePort sourceChannel)
              sender coin ctx1).
Proof.
  split; [done|]. split; [|split].
  - intros err. cbn [OnAcknowledgementPacket]. unfold OnTimeoutPacket, guard, bind.
    by destruct (refundPacketTokens _ _ _ _) as [[[e|] ctx']|].
  - unfold OnTimeoutPacket. rewrite refundPacketTokens_unfold.
    destruct (AccAddressFromBech32 (Sender data)) as [sender|err]; [|done].
    by destruct (IsBlockedAddr sender).
  - intros sender token coin ctx1 Hcoin. unfold refund_token.
    by rewrite Hcoin.
Qed.
End Refund.

(** ** Forwarded packets *)

Section ForwardedPackets.
Context {B : Type}.
Context `{TransferTypes} `{ForwardingDeps B}.

(** C6. The outcome of a forwarded packet. On a success acknowledgement
    the handler does nothing but write the trivial success acknowledgement
    for the original packet: nothing is reverted. On an error
    acknowledgement, and on a timeout, the receive is reverted first; if
    the revert fails its error is returned from the state the revert left,
    and no acknowledgement is written; only after a successful revert is
    the synthetic error (or timeout) acknowledgement built and handed
    over. *)
Theorem forwarded_packet_outcome (packet forwardedPacket : Packet)
    (data : FungibleTokenPacketDataV2) (ctx : Ctx B) :
  (forall result,
     HandleForwardedPacketAcknowledgement packet forwardedPacket data
       (Acknowledgement_Result result) ctx
     = acknowledgeForwardedPacket forwardedPacket packet
         (Acknowledgement_Result (String (Ascii.ascii_of_nat 1) "")) ctx) /\
  (forall err,
     HandleForwardedPacketAcknowledgement packet forwardedPacket data
       (Acknowledgement_Error err) ctx
     = match revertForwardedPacket forwardedPacket data ctx with
       | Done (None, ctx') =>
           acknowledgeForwardedPacket forwardedPacket packet
             (NewForwardErrorAcknowledgement packet
                (Acknowledgement_Error err)) ctx'
       | Done (Some e, ctx') => Done (Some e, ctx')
       | Panic => Panic
       end) /\
  HandleForwardedPacketTimeout packet forwardedPacket data ctx
  = match revertForwardedPacket forwardedPacket data ctx with
    | Done (None, ctx') =>
        acknowledgeForwardedPacket forwardedPacket packet
          (NewForwardTimeoutAcknowledgement packet) ctx'
    | Done (Some e, ctx') => Done (Some e, ctx')
    | Panic => Panic
    end.
Proof.
  split; [done|]. split; [intros err|];
    unfold HandleForwardedPacketAcknowledgement,
      HandleForwardedPacketTimeout, guard, bind;
    by destruct (revertForwardedPacket _ _ _) as [[[e|] ctx']|].
Qed.
End ForwardedPackets.

(** ** The gates *)

Section Gates.
Context {B : Type}.
Context `{SDK} `{BankKeeper B} `{AuthKeeper} `{TransferTypes} `{KeeperDeps}.

(** C7, as the code has it. SendTransfer with the send gate off returns
    ErrSendDisabled, and with the gate on and a blocked sender returns
    ErrUnauthorized (wrapped), before any token is looked at and with the
    state untouched. OnRecvPacket validates the packet data first: for
    data that passes validation, it returns ErrReceiveDisabled when the
    receive gate is off, and ErrUnauthorized (wrapped) when the gate is on
    and the resolved receiver is blocked; for data that fails validation
    it returns the validation error, wrapped, whatever the gate. In all
    these cases the state is untouched. *)
Theorem gates_reject_without_effects :
  (forall sourcePort sourceChannel tokens sender (ctx : Ctx B) (h : Heap),
     SendEnabled (params ctx) = false ->
     SendTransfer sourcePort sourceChannel tokens sender (ctx, h)
     = Done (Some ErrSendDisabled, (ctx, h))) /\
  (forall sourcePort sourceChannel tokens sender (ctx : Ctx B) (h : Heap),
     SendEnabled (params ctx) = true ->
     IsBlockedAddr sender = true ->
     SendTransfer sourcePort sourceChannel tokens sender (ctx, h)
     = Done (Some (Wrapf ErrUnauthorized "%s is not allowed to send funds"
                     [ArgAddress sender]), (ctx, h))) /\
  (forall data sourcePort sourceChannel destPort destChannel (ctx : Ctx B),
     ValidateBasicV2 data = None ->
     ReceiveEnabled (params ctx) = false ->
     OnRecvPacket data sourcePort sourceChannel destPort destChannel ctx
     = Done (Err ErrReceiveDisabled, ctx)) /\
  (forall data sourcePort sourceChannel destPort destChannel (ctx : Ctx B)
          receiver,
     ValidateBasicV2 data = None ->
     ReceiveEnabled (params ctx) = true ->
     getReceiverFromPacketData data = Ok receiver ->
     IsBlockedAddr receiver = true ->
     OnRecvPacket data sourcePort sourceChannel destPort destChannel ctx
     = Done (Err (Wrapf ErrUnauthorized "%s is not allowed to receive funds"
                    [ArgAddress receiver]), ctx)) /\
  (forall data sourcePort sourceChannel destPort destChannel (ctx : Ctx B)
          err,
     ValidateBasicV2 data = Some err ->
     OnRecvPacket data sourcePort sourceChannel destPort destChannel ctx
     = Done (Err (Wrapf err "error validating ICS-20 transfer packet data" []),
             ctx)).
Proof.
  split; [|split; [|split; [|split]]].
  - intros sp sc tokens sender [] h Hoff.
    unfold SendTransfer, bind, on_ctx, GetParams. cbn in *. by rewrite Hoff.
  - intros sp sc tokens sender [] h Hon Hblocked.
    unfold SendTransfer, bind, on_ctx, GetParams. cbn in *.
    by rewrite Hon, Hblocked.
  - intros data sp sc dp dc ctx Hvalid Hoff.
    unfold OnRecvPacket, bind, GetParams. by rewrite Hvalid, Hoff.
  - intros data sp sc dp dc ctx receiver Hvalid Hon Hreceiver Hblocked.
    unfold OnRecvPacket, bind, GetParams.
    by rewrite Hvalid, Hon, Hreceiver, Hblocked.
  - intros data sp sc dp dc ctx err Hinvalid.
    unfold OnRecvPacket. by rewrite Hinvalid.
Qed.
End Gates.

(** ** Packet data by application version *)

Section PacketData.
Context `{TransferTypes}.

(** C8. Under application version V1, a token list whose length is not 1
    is rejected with ErrInvalidRequest and no bytes are produced; so it is
    for every list of two tokens. *)
Theorem v1_rejects_other_than_one_token
    (sender receiver memo : string) (tokens : list Token) (hops : list Hop) :
  length tokens <> 1%nat ->
  createPacketDataBytesFromVersion V1 sender receiver memo tokens hops
  = Done (Err (Wrapf ErrInvalidRequest
                 "cannot transfer multiple coins with %s" [ArgString V1]))
  /\ forall t1 t2,
       createPacketDataBytesFromVersion V1 sender receiver memo [t1; t2] hops
       = Done (Err (Wrapf ErrInvalidRequest
                      "cannot transfer multiple coins with %s" [ArgString V1])).
Proof.
  intros Hlen. split; [|done].
  unfold createPacketDataBytesFromVersion. cbn [String.eqb V1].
  change (String.eqb V1 V1) with true. cbn iota.
  by destruct (Nat.eqb_spec (length tokens) 1).
Qed.

(** C9. Under application version V2, with hops the packet data validated
    and serialized carries the memo and the hops in its forwarding payload
    and an empty top-level memo; without hops it carries the memo at the
    top level and an empty forwarding payload. *)
Theorem v2_memo_moves_to_forwarding
    (sender receiver memo : string) (tokens : list Token) (hops : list Hop) :
  (hops <> [] ->
     createPacketDataBytesFromVersion V2 sender receiver memo tokens hops
     = emit_v2 (MkPacketDataV2 tokens sender receiver ""
                  (MkForwarding memo hops))) /\
  (hops = [] ->
     createPacketDataBytesFromVersion V2 sender receiver memo tokens hops
     = emit_v2 (MkPacketDataV2 tokens sender receiver memo
                  (MkForwarding "" []))).
Proof.
  unfold createPacketDataBytesFromVersion, emit_v2.
  change (String.eqb V2 V1) with false. change (String.eqb V2 V2) with true.
  cbn iota. split.
  - intros Hhops. by destruct hops.
  - by intros ->.
Qed.
End PacketData.

(** ** Accounting of the send path and of the refund *)

Section Accounts.
Context {B : Type}.
Context `{SDK} `{BankKeeper B} `{AuthKeeper} `{TransferTypes} `{KeeperDeps}.

Lemma same_frame_refl (ctx : Ctx B) : same_frame ctx ctx.
Proof. by repeat split. Qed.

Lemma same_frame_trans (ctx1 ctx2 ctx3 : Ctx B) :
  same_frame ctx1 ctx2 -> same_frame ctx2 ctx3 -> same_frame ctx1 ctx3.
Proof.
  intros (? & ? & ? & ?) (? & ? & ? & ?). repeat split; congruence.
Qed.

Lemma same_frame_set_bank (b : B) (ctx : Ctx B) : same_frame ctx (set_bank b ctx).
Proof. by repeat split. Qed.

Lemma EscrowCoin_frame (sender escrowAddress : AccAddress) (coin : Coin)
    (r : option error) (ctx ctx' : Ctx B) :
  EscrowCoin sender escrowAddress coin ctx = Done (r, ctx') ->
  same_frame ctx ctx'.
Proof.
  rewrite EscrowCoin_unfold.
  destruct (NewCoins coin) as [coins|]; [|done].
  destruct (SendCoins _ _ _ _) as [b [err|]].
  - intros [= _ <-]. by repeat split.
  - destruct (overflows _); [done|].
    destruct (_ <? 0); [done|]. intros [= _ <-]. by repeat split.
Qed.

Lemma UnescrowCoin_frame (escrowAddress receiver : AccAddress) (coin : Coin)
    (r : option error) (ctx ctx' : Ctx B) :
  UnescrowCoin escrowAddress receiver coin ctx = Done (r, ctx') ->
  same_frame ctx ctx'.
Proof.
  rewrite UnescrowCoin_unfold.
  destruct (NewCoins coin) as [coins|]; [|done].
  destruct (SendCoins _ _ _ _) as [b [err|]].
  - intros [= _ <-]. by repeat split.
  - destruct (overflows _); [done|].
    destruct (_ <? 0); [done|]. intros [= _ <-]. by repeat split.
Qed.

Lemma burn_from_sender_frame (sender : AccAddress) (coin : Coin)
    (r : option error) (ctx ctx' : Ctx B) :
  burn_from_sender sender coin ctx = Done (r, ctx') ->
  same_frame ctx ctx' /\ totalEscrow ctx' = totalEscrow ctx.
Proof.
  unfold burn_from_sender.
  destruct (SendCoinsFromAccountToModule _ _ _ _) as [b1 [err|]].
  - intros [= _ <-]. by repeat split.
  - destruct (BurnCoins _ _ _) as [b2 [err|]]; [done|].
    intros [= _ <-]. by repeat split.
Qed.

Lemma mint_back_frame (sender : AccAddress) (coin : Coin)
    (r : option error) (ctx ctx' : Ctx B) :
  mint_back sender coin ctx = Done (r, ctx') ->
  same_frame ctx ctx' /\ totalEscrow ctx' = totalEscrow ctx.
Proof.
  unfold mint_back.
  destruct (MintCoins _ _ _) as [b1 [err|]].
  - intros [= _ <-]. by repeat split.
  - destruct (SendCoins _ _ _ _) as [b2 [err|]]; [done|].
    intros [= _ <-]. by repeat split.
Qed.

Lemma ToCoin_amount (token : Token) (coin : Coin) :
  ToCoin token = Done (Ok coin) -> token_amount token = CoinAmount coin.
Proof.
  intros Hcoin. destruct (ToCoin_Ok _ _ Hcoin) as (_ & _ & Hamount).
  unfold token_amount. by rewrite Hamount.
Qed.

(** What one round of SendTransfer's loop does to the context. *)
Lemma SendTransfer_body_effects (sourcePort sourceChannel : string)
    (sender : AccAddress) (token : Token) (r : option error)
    (ctx ctx' : Ctx B) :
  SendTransfer_body sourcePort sourceChannel sender token ctx = Done (r, ctx') ->
  same_frame ctx ctx' /\
  match r with
  | Some _ => totalEscrow ctx' = totalEscrow ctx
  | None =>
      forall denom,
        EscrowTotal ctx' denom
        = EscrowTotal ctx denom
          + source_amount sourcePort sourceChannel denom [token]
  end.
Proof.
  rewrite SendTransfer_body_unfold.
  destruct (ToCoin token) as [[coin|err]|] eqn:Hcoin; [| |done].
  - destruct (ToCoin_Ok _ _ Hcoin) as (_ & Hdenom & _).
    pose proof (ToCoin_amount _ _ Hcoin) as Hamount.
    destruct (IsSendEnabledCoins (bank ctx) coin) as [err|].
    { intros [= <- <-]. split; [apply same_frame_refl | done]. }
    cbn [source_amount].
    destruct (HasPrefix _ _ _).
    + intros Hburn. apply burn_from_sender_frame in Hburn as [Hframe Htotal].
      split; [done|]. destruct r; [done|].
      intros denom. unfold EscrowTotal. rewrite Htotal. lia.
    + intros Hescrow. split; [by eapply EscrowCoin_frame|].
      destruct r as [err|].
      * by eapply EscrowCoin_error_total.
      * apply EscrowCoin_total in Hescrow as [_ Htotal].
        intros denom. rewrite (Htotal denom), <- Hdenom, Hamount.
        lia.
  - intros [= <- <-]. split; [apply same_frame_refl | done].
Qed.

Lemma source_amount_cons (port channel denom : string) (token : Token)
    (tokens : list Token) :
  source_amount port channel denom (token :: tokens)
  = source_amount port channel denom [token]
    + source_amount port channel denom tokens.
Proof. cbn [source_amount]. lia. Qed.

(** What a run of the loop body over a list of tokens does to the
    context. *)
Lemma send_each_effects (sourcePort sourceChannel : string)
    (sender : AccAddress) (tokens : list Token) :
  forall (r : option error) (ctx ctx' : Ctx B),
    send_each sourcePort sourceChannel sender tokens ctx = Done (r, ctx') ->
    same_frame ctx ctx' /\
    (r = None ->
     forall denom,
       EscrowTotal ctx' denom
       = EscrowTotal ctx denom
         + source_amount sourcePort sourceChannel denom tokens).
Proof.
  induction tokens as [|token rest IH]; intros r ctx ctx'.
  - intros [= <- <-]. split; [apply same_frame_refl|].
    intros _ denom. cbn. lia.
  - cbn [send_each]. unfold guard, bind.
    destruct (SendTransfer_body _ _ _ token ctx) as [[[err|] ctx1]|] eqn:Hbody;
      [| |done].
    + intros [= <- <-].
      apply SendTransfer_body_effects in Hbody as [Hframe _].
      split; [done | done].
    + intros Hrest.
      apply SendTransfer_body_effects in Hbody as [Hframe1 Htotal1].
      apply IH in Hrest as [Hframe2 Htotal2].
      split; [by eapply same_frame_trans|].
      intros -> denom.
      rewrite (Htotal2 eq_refl denom), (Htotal1 denom),
        (source_amount_cons _ _ _ token rest). lia.
Qed.

Lemma forget_heap_Done {A St} (o : outcome (A * (St * Heap))) a s h :
  o = Done (a, (s, h)) -> forget_heap o = Done (a, s).
Proof. by intros ->. Qed.

(** X1. What a successful SendTransfer leaves in the escrow ledger: for
    every denomination, the total grows by the amounts of the tokens
    without the prefix (sourcePort, sourceChannel) that are held under
    that denomination, and by nothing for the tokens with the prefix. The
    call changes neither the parameters nor the denom registry, and emits
    no event. *)
Theorem SendTransfer_escrow_accounting (sourcePort sourceChannel : string)
    (tokens : Slice) (sender : AccAddress) (ctx ctx' : Ctx B) (h h' : Heap) :
  valid_slice h tokens ->
  SendTransfer sourcePort sourceChannel tokens sender (ctx, h)
  = Done (None, (ctx', h')) ->
  same_frame ctx ctx' /\
  forall denom,
    EscrowTotal ctx' denom
    = EscrowTotal ctx denom
      + source_amount sourcePort sourceChannel denom (elements h tokens).
Proof.
  intros Hvalid Hsend.
  apply forget_heap_Done in Hsend.
  rewrite (SendTransfer_returns _ _ _ _ _ _ Hvalid) in Hsend.
  destruct (SendEnabled (params ctx)); cbn [negb] in Hsend; [|done].
  destruct (IsBlockedAddr sender); [done|].
  apply send_each_effects in Hsend as [Hframe Htotal]. by split; [|apply Htotal].
Qed.

(** X2. SendTransfer stops at the first token that fails and rolls nothing
    back: when the tokens before it went through and the body returns an
    error on it, the call returns that error from the state the failing
    round left, with the effects of the earlier tokens in place; the tokens
    after it are not looked at. *)
Theorem SendTransfer_stops_at_first_error (sourcePort sourceChannel : string)
    (tokens : Slice) (sender : AccAddress) (before after : list Token)
    (token : Token) (err : error) (ctx ctx1 ctx2 : Ctx B) (h : Heap) :
  valid_slice h tokens ->
  SendEnabled (params ctx) = true ->
  IsBlockedAddr sender = false ->
  elements h tokens = (before ++ token :: after)%list ->
  send_each sourcePort sourceChannel sender before ctx = Done (None, ctx1) ->
  SendTransfer_body sourcePort sourceChannel sender token ctx1
  = Done (Some err, ctx2) ->
  forget_heap (SendTransfer sourcePort sourceChannel tokens sender (ctx, h))
  = Done (Some err, ctx2) /\
  forall denom,
    EscrowTotal ctx2 denom
    = EscrowTotal ctx denom
      + source_amount sourcePort sourceChannel denom before.
Proof.
  intros Hvalid Henabled Hsender Helems Hbefore Hbody.
  rewrite (SendTransfer_returns _ _ _ _ _ _ Hvalid), Henabled, Hsender, Helems.
  cbn [negb]. rewrite (send_each_app _ _ _ _ _ _ _ Hbefore).
  cbn [send_each]. unfold guard, bind. rewrite Hbody. split; [done|].
  apply send_each_effects in Hbefore as [_ Htotal].
  apply SendTransfer_body_effects in Hbody as [_ Hsame].
  intros denom. unfold EscrowTotal at 1. rewrite Hsame.
  apply (Htotal eq_refl denom).
Qed.

(** What the refund of one token does to the context. *)
Lemma refund_token_effects (sourcePort sourceChannel : string)
    (sender : AccAddress) (token : Token) (r : option error)
    (ctx ctx' : Ctx B) :
  refund_token sourcePort sourceChannel sender token ctx = Done (r, ctx') ->
  same_frame ctx ctx' /\
  match r with
  | Some _ => totalEscrow ctx' = totalEscrow ctx
  | None =>
      forall denom,
        EscrowTotal ctx' denom
        = EscrowTotal ctx denom
          - source_amount sourcePort sourceChannel denom [token]
  end.
Proof.
  unfold refund_token.
  destruct (ToCoin token) as [[coin|err]|] eqn:Hcoin; [| |done].
  - destruct (ToCoin_Ok _ _ Hcoin) as (_ & Hdenom & _).
    pose proof (ToCoin_amount _ _ Hcoin) as Hamount.
    cbn [source_amount].
    destruct (HasPrefix _ _ _).
    + intros Hmint. apply mint_back_frame in Hmint as [Hframe Htotal].
      split; [done|]. destruct r; [done|].
      intros denom. unfold EscrowTotal. rewrite Htotal. lia.
    + intros Hunescrow. split; [by eapply UnescrowCoin_frame|].
      destruct r as [err|].
      * by eapply UnescrowCoin_error_total.
      * apply UnescrowCoin_total in Hunescrow as (_ & _ & Htotal).
        intros denom. rewrite (Htotal denom), <- Hdenom, Hamount. lia.
  - intros [= <- <-]. split; [apply same_frame_refl | done].
Qed.

Lemma refund_each_effects (sourcePort sourceChannel : string)
    (sender : AccAddress) (tokens : list Token) :
  forall (r : option error) (ctx ctx' : Ctx B),
    refund_each sourcePort sourceChannel sender tokens ctx = Done (r, ctx') ->
    same_frame ctx ctx' /\
    (r = None ->
     forall denom,
       EscrowTotal ctx' denom
       = EscrowTotal ctx denom
         - source_amount sourcePort sourceChannel denom tokens).
Proof.
  induction tokens as [|token rest IH]; intros r ctx ctx'.
  - intros [= <- <-]. split; [apply same_frame_refl|].
    intros _ denom. cbn. lia.
  - cbn [refund_each]. unfold guard, bind.
    destruct (refund_token _ _ _ token ctx) as [[[err|] ctx1]|] eqn:Hbody;
      [| |done].
    + intros [= <- <-].
      apply refund_token_effects in Hbody as [Hframe _].
      split; [done | done].
    + intros Hrest.
      apply refund_token_effects in Hbody as [Hframe1 Htotal1].
      apply IH in Hrest as [Hframe2 Htotal2].
      split; [by eapply same_frame_trans|].
      intros -> denom.
      rewrite (Htotal2 eq_refl denom), (Htotal1 denom),
        (source_amount_cons _ _ _ token rest). lia.
Qed.

(** X3. A successful refund takes out of escrow what the send put in: for
    every denomination the total falls by the amounts of the tokens without
    the prefix (sourcePort, sourceChannel) held under it, whether the refund
    comes from a timeout or from an error acknowledgement. Parameters,
    registry, events and written acknowledgements are untouched. *)
Theorem refund_escrow_accounting (sourcePort sourceChannel : string)
    (data : FungibleTokenPacketDataV2) (ack_error : string)
    (ctx ctx' : Ctx B) :
  (OnTimeoutPacket sourcePort sourceChannel data ctx = Done (None, ctx') \/
   OnAcknowledgementPacket sourcePort sourceChannel data
     (Acknowledgement_Error ack_error) ctx = Done (None, ctx')) ->
  same_frame ctx ctx' /\
  forall denom,
    EscrowTotal ctx' denom
    = EscrowTotal ctx denom
      - source_amount sourcePort sourceChannel denom (Tokens data).
Proof.
  intros Hrefund.
  assert (refundPacketTokens sourcePort sourceChannel data ctx
          = Done (None, ctx')) as Hrun.
  { destruct Hrefund as [Hrun|Hrun]; [done|].
    cbn [OnAcknowledgementPacket] in Hrun. unfold guard, bind in Hrun.
    by destruct (refundPacketTokens _ _ _ _) as [[[e|] ctx0]|]. }
  rewrite refundPacketTokens_unfold in Hrun.
  destruct (AccAddressFromBech32 (Sender data)) as [sender|err]; [|done].
  destruct (IsBlockedAddr sender); [done|].
  apply refund_each_effects in Hrun as [Hframe Htotal].
  by split; [|apply Htotal].
Qed.

(** X4. Send, then refund: when SendTransfer succeeds and the packet built
    from the same tokens later times out and is refunded over the same port
    and channel, every escrow total is back to what it was before the
    send. *)
Theorem send_then_refund_restores_escrow (sourcePort sourceChannel : string)
    (tokens : Slice) (sender : AccAddress) (data : FungibleTokenPacketDataV2)
    (ctx ctx1 ctx2 : Ctx B) (h h1 : Heap) :
  valid_slice h tokens ->
  Tokens data = elements h tokens ->
  SendTransfer sourcePort sourceChannel tokens sender (ctx, h)
  = Done (None, (ctx1, h1)) ->
  OnTimeoutPacket sourcePort sourceChannel data ctx1 = Done (None, ctx2) ->
  forall denom, EscrowTotal ctx2 denom = EscrowTotal ctx denom.
Proof.
  intros Hvalid Htokens Hsend Htimeout denom.
  apply forget_heap_Done in Hsend.
  rewrite (SendTransfer_returns _ _ _ _ _ _ Hvalid) in Hsend.
  destruct (SendEnabled (params ctx)); cbn [negb] in Hsend; [|done].
  destruct (IsBlockedAddr sender); [done|].
  apply send_each_effects in Hsend as [_ Hsent].
  unfold OnTimeoutPacket in Htimeout.
  rewrite refundPacketTokens_unfold in Htimeout.
  destruct (AccAddressFromBech32 (Sender data)) as [refunded|err]; [|done].
  destruct (IsBlockedAddr refunded); [done|].
  apply refund_each_effects in Htimeout as [_ Hback].
  rewrite (Hback eq_refl denom), (Hsent eq_refl denom), Htokens. lia.
Qed.

(** X5. The refund has its own gate, and it is tested before any token.
    When the sender of the packet does not parse, a timeout returns the
    parse error and leaves the state as it was, and so does an error
    acknowledgement; when the sender is a blocked address, a timeout
    returns ErrUnauthorized and leaves the state as it was, and so does an
    error acknowledgement. In all four cases nothing is moved: the escrowed
    or burned funds stay where they are. *)
Theorem refund_gate (sourcePort sourceChannel : string)
    (data : FungibleTokenPacketDataV2) (ctx : Ctx B) :
  (forall err,
     AccAddressFromBech32 (Sender data) = Err err ->
     OnTimeoutPacket sourcePort sourceChannel data ctx = Done (Some err, ctx) /\
     forall ack_error,
       OnAcknowledgementPacket sourcePort sourceChannel data
         (Acknowledgement_Error ack_error) ctx = Done (Some err, ctx)) /\
  (forall sender,
     AccAddressFromBech32 (Sender data) = Ok sender ->
     IsBlockedAddr sender = true ->
     exists err,
       root_cause err = ErrUnauthorized /\
       OnTimeoutPacket sourcePort sourceChannel data ctx = Done (Some err, ctx) /\
       forall ack_error,
         OnAcknowledgementPacket sourcePort sourceChannel data
           (Acknowledgement_Error ack_error) ctx = Done (Some err, ctx)).
Proof.
  unfold OnTimeoutPacket. split.
  - intros err Hsender. split.
    + by rewrite refundPacketTokens_unfold, Hsender.
    + intros ack_error. cbn [OnAcknowledgementPacket]. unfold guard, bind.
      by rewrite refundPacketTokens_unfold, Hsender.
  - intros sender Hsender Hblocked. eexists. split; [|split].
    2:{ by rewrite refundPacketTokens_unfold, Hsender, Hblocked. }
    + done.
    + intros ack_error. cbn [OnAcknowledgementPacket]. unfold guard, bind.
      by rewrite refundPacketTokens_unfold, Hsender, Hblocked.
Qed.
End Accounts.

(** ** Accounting of the receive path *)

Section ReceiveAccounts.
Context {B : Type}.
Context `{SDK} `{BankKeeper B} `{AuthKeeper} `{TransferTypes} `{KeeperDeps}.

Lemma register_if_unseen_facts (d : Denom) (ctx : Ctx B) :
  params (register_if_unseen d ctx) = params ctx /\
  acks (register_if_unseen d ctx) = acks ctx /\
  totalEscrow (register_if_unseen d ctx) = totalEscrow ctx /\
  denoms ctx ⊆ denoms (register_if_unseen d ctx) /\
  is_Some (denoms (register_if_unseen d ctx) !! Hash d) /\
  (forall hash denom,
     denoms (register_if_unseen d ctx) !! hash = Some denom ->
     denoms ctx !! hash = Some denom \/ (denom = d /\ hash = Hash d)).
Proof.
  unfold register_if_unseen.
  destruct (denoms ctx !! Hash d) as [d0|] eqn:Hd.
  - destruct (HasDenomMetaData _ _); cbn; rewrite ?Hd; by eauto 10.
  - assert (forall hash denom,
              <[Hash d := d]> (denoms ctx) !! hash = Some denom ->
              denoms ctx !! hash = Some denom \/ (denom = d /\ hash = Hash d))
      as Horigin.
    { intros hash denom.
      destruct (decide (Hash d = hash)) as [<-|Hne].
      - rewrite lookup_insert_eq. intros [= <-]. by right.
      - rewrite lookup_insert_ne by done. by left. }
    destruct (HasDenomMetaData _ _); cbn; rewrite ?lookup_insert_eq;
      repeat split; eauto; by apply insert_subseteq.
Qed.

Lemma mint_voucher_frame (receiver : AccAddress) (voucher : Coin)
    (r : option error) (ctx ctx' : Ctx B) :
  mint_voucher receiver voucher ctx = Done (r, ctx') ->
  same_frame ctx ctx' /\ totalEscrow ctx' = totalEscrow ctx.
Proof.
  unfold mint_voucher.
  destruct (MintCoins _ _ _) as [b1 [err|]].
  - intros [= _ <-]. by repeat split.
  - destruct (SendCoins _ _ _ _) as [b2 [err|]];
      intros [= _ <-]; by repeat split.
Qed.

(** What one round of OnRecvPacket's loop does to the context and to the
    received coins. *)
Lemma OnRecvPacket_body_effects
    (sourcePort sourceChannel destPort destChannel : string)
    (receiver : AccAddress) (token : Token) (receivedCoins : Coins)
    (r : result Coins) (ctx ctx' : Ctx B) :
  OnRecvPacket_body sourcePort sourceChannel destPort destChannel receiver
    token receivedCoins ctx = Done (r, ctx') ->
  params ctx' = params ctx /\ acks ctx' = acks ctx /\
  denoms ctx ⊆ denoms ctx' /\
  (forall hash denom,
     denoms ctx' !! hash = Some denom ->
     denoms ctx !! hash = Some denom \/
     (HasPrefix (TokenDenom token) sourcePort sourceChannel = false /\
      denom = received_denom sourcePort sourceChannel destPort destChannel
                (TokenDenom token) /\
      hash = Hash denom)) /\
  match r with
  | Err _ => totalEscrow ctx' = totalEscrow ctx
  | Ok coins =>
      is_Some (NewIntFromString (Amount token)) /\
      coins = (receivedCoins
               ++ [received_coin sourcePort sourceChannel destPort destChannel
                     token])%list /\
      (forall denom,
         EscrowTotal ctx' denom
         = EscrowTotal ctx denom
           - returning_amount sourcePort sourceChannel denom [token]) /\
      events ctx'
      = (events ctx
         ++ map (denom_event sourcePort sourceChannel destPort destChannel)
              (minted_tokens sourcePort sourceChannel [token]))%list /\
      (HasPrefix (TokenDenom token) sourcePort sourceChannel = false ->
       is_Some (denoms ctx'
                  !! Hash (received_denom sourcePort sourceChannel destPort
                             destChannel (TokenDenom token))))
  end.
Proof.
  rewrite OnRecvPacket_body_unfold.
  unfold received_coin, denom_event, minted_tokens.
  destruct (NewIntFromString (Amount token)) as [amount|] eqn:Hparse.
  2:{ intros [= <- <-]. repeat split; try done. by left. }
  assert (token_amount token = amount) as Hamount.
  { unfold token_amount. by rewrite Hparse. }
  rewrite Hamount. cbn zeta.
  destruct (NewCoin _ amount) as [coin|] eqn:Hcoin; [|done].
  apply NewCoin_Done in Hcoin as [-> _].
  cbn [returning_amount default].
  rewrite filter_cons, filter_nil.
  destruct (HasPrefix (TokenDenom token) sourcePort sourceChannel) eqn:Hprefix.
  - rewrite decide_False by done. cbn [map].
    destruct (UnescrowCoin _ _ _ _) as [[[err|] ctx1]|] eqn:Hun; [| |done].
    + intros [= <- <-].
      pose proof (UnescrowCoin_frame _ _ _ _ _ _ Hun) as (Hp & Hd & He & Ha).
      apply UnescrowCoin_error_total in Hun.
      split; [done|]. split; [done|]. split; [by rewrite Hd|].
      split; [|done]. intros hash denom. rewrite Hd. by left.
    + intros [= <- <-].
      pose proof (UnescrowCoin_frame _ _ _ _ _ _ Hun) as (Hp & Hd & He & Ha).
      apply UnescrowCoin_total in Hun as (_ & _ & Htotal).
      split; [done|]. split; [done|]. split; [by rewrite Hd|].
      split; [intros hash denom; rewrite Hd; by left|].
      split; [by eexists|]. split; [done|]. split; [|split; [|done]].
      * intros denom. rewrite (Htotal denom).
        unfold received_denom. rewrite Hprefix, Hamount.
        cbn [CoinDenom CoinAmount]. lia.
      * by rewrite He, app_nil_r.
  - rewrite decide_True by done. cbn [map].
    set (denom := received_denom _ _ _ _ _) in *.
    destruct (register_if_unseen_facts denom ctx)
      as (Hp & Ha & Ht & Hsub & Hreg & Horigin).
    assert (forall ctx1 : Ctx B,
              denoms ctx1 = denoms (register_if_unseen denom ctx) ->
              forall hash d,
                denoms ctx1 !! hash = Some d ->
                denoms ctx !! hash = Some d \/
                (false = false /\ d = denom /\ hash = Hash d)) as Horigin'.
    { intros ctx1 -> hash d [Hold|[-> ->]]%Horigin; [by left | by right]. }
    destruct (mint_voucher _ _ _) as [[[err|] ctx1]|] eqn:Hmint; [| |done].
    + intros [= <- <-].
      apply mint_voucher_frame in Hmint as [(Hp1 & Hd1 & He1 & Ha1) Ht1].
      cbn in Hp1, Hd1, He1, Ha1, Ht1.
      split; [congruence|]. split; [congruence|]. split; [by rewrite Hd1|].
      split; [by apply Horigin'|]. congruence.
    + intros [= <- <-].
      apply mint_voucher_frame in Hmint as [(Hp1 & Hd1 & He1 & Ha1) Ht1].
      cbn in Hp1, Hd1, He1, Ha1, Ht1.
      split; [congruence|]. split; [congruence|]. split; [by rewrite Hd1|].
      split; [by apply Horigin'|].
      split; [by eexists|]. split; [done|]. split; [|split].
      * intros d. unfold EscrowTotal. rewrite Ht1, Ht. lia.
      * done.
      * intros _. by rewrite Hd1.
Qed.
Lemma returning_amount_cons (port channel denom : string) (token : Token)
    (tokens : list Token) :
  returning_amount port channel denom (token :: tokens)
  = returning_amount port channel denom [token]
    + returning_amount port channel denom tokens.
Proof. cbn [returning_amount]. lia. Qed.

Lemma minted_tokens_cons (port channel : string) (token : Token)
    (tokens : list Token) :
  minted_tokens port channel (token :: tokens)
  = (minted_tokens port channel [token] ++ minted_tokens port channel tokens)%list.
Proof.
  unfold minted_tokens. rewrite !filter_cons, filter_nil.
  by destruct (decide _).
Qed.

(** What the loop of OnRecvPacket does, from any received coins so far. *)
Lemma OnRecvPacket_range_effects
    (sourcePort sourceChannel destPort destChannel : string)
    (receiver : AccAddress) (tokens : list Token) :
  forall (receivedCoins : Coins) (r : result Coins) (ctx ctx' : Ctx B),
    OnRecvPacket_range sourcePort sourceChannel destPort destChannel receiver
      tokens receivedCoins ctx = Done (r, ctx') ->
    params ctx' = params ctx /\ acks ctx' = acks ctx /\
    denoms ctx ⊆ denoms ctx' /\
    (forall hash denom,
       denoms ctx' !! hash = Some denom ->
       denoms ctx !! hash = Some denom \/
       exists token,
         token ∈ minted_tokens sourcePort sourceChannel tokens /\
         denom = received_denom sourcePort sourceChannel destPort destChannel
                   (TokenDenom token) /\
         hash = Hash denom) /\
    match r with
    | Err _ => True
    | Ok coins =>
        Forall (fun token => is_Some (NewIntFromString (Amount token))) tokens /\
        coins = (receivedCoins
                 ++ map (received_coin sourcePort sourceChannel destPort
                           destChannel) tokens)%list /\
        (forall denom,
           EscrowTotal ctx' denom
           = EscrowTotal ctx denom
             - returning_amount sourcePort sourceChannel denom tokens) /\
        events ctx'
        = (events ctx
           ++ map (denom_event sourcePort sourceChannel destPort destChannel)
                (minted_tokens sourcePort sourceChannel tokens))%list /\
        (forall token,
           token ∈ minted_tokens sourcePort sourceChannel tokens ->
           is_Some (denoms ctx'
                      !! Hash (received_denom sourcePort sourceChannel destPort
                                 destChannel (TokenDenom token))))
    end.
Proof.
  induction tokens as [|token rest IH]; intros receivedCoins r ctx ctx'.
  - intros [= <- <-]. split; [done|]. split; [done|]. split; [done|].
    split; [by left|]. split; [done|]. split; [by rewrite app_nil_r|].
    split; [intros denom; cbn; lia|]. split; [by rewrite app_nil_r|].
    intros token Hin. by apply elem_of_nil in Hin.
  - cbn [OnRecvPacket_range]. unfold guard_val, bind.
    assert (forall t, t ∈ minted_tokens sourcePort sourceChannel [token] ->
                      t = token /\
                      HasPrefix (TokenDenom token) sourcePort sourceChannel
                      = false) as Hone.
    { intros t. unfold minted_tokens. rewrite filter_cons, filter_nil.
      destruct (decide _) as [Hnoprefix|]; [|by intros ?%elem_of_nil].
      by intros ->%list_elem_of_singleton. }
    assert (HasPrefix (TokenDenom token) sourcePort sourceChannel = false ->
            token ∈ minted_tokens sourcePort sourceChannel [token]) as Hin1.
    { intros Hnoprefix. unfold minted_tokens. rewrite filter_cons, filter_nil.
      rewrite decide_True by done. by apply list_elem_of_singleton. }
    destruct (OnRecvPacket_body _ _ _ _ _ token receivedCoins ctx)
      as [[[coins1|err] ctx1]|] eqn:Hbody; [| |done].
    + intros Hrest.
      apply OnRecvPacket_body_effects in Hbody
        as (Hp1 & Ha1 & Hsub1 & Horigin1 & Hparse1 & -> & Htotal1 & Hev1 & Hreg1).
      apply IH in Hrest as (Hp2 & Ha2 & Hsub2 & Horigin2 & Hrest).
      split; [congruence|]. split; [congruence|].
      split; [by etrans|]. split.
      { intros hash denom [Hmid|(t & Hin & -> & ->)]%Horigin2.
        - apply Horigin1 in Hmid as [Hold|(Hnoprefix & -> & ->)]; [by left|].
          right. exists token. split; [|done].
          rewrite (minted_tokens_cons _ _ token rest).
          apply elem_of_app. left. by apply Hin1.
        - right. exists t. split; [|done].
          rewrite (minted_tokens_cons _ _ token rest).
          apply elem_of_app. by right. }
      destruct r as [coins|err]; [|done].
      destruct Hrest as (Hparse2 & -> & Htotal2 & Hev2 & Hreg2).
      split; [by constructor|].
      split; [by rewrite <- app_assoc|]. split; [|split].
      * intros denom.
        rewrite (Htotal2 denom), (Htotal1 denom),
          (returning_amount_cons _ _ _ token rest). lia.
      * rewrite Hev2, Hev1, (minted_tokens_cons _ _ token rest), map_app.
        by rewrite <- app_assoc.
      * intros t. rewrite (minted_tokens_cons _ _ token rest).
        intros [Hin|Hin]%elem_of_app; [|by apply Hreg2].
        apply Hone in Hin as [-> Hnoprefix].
        destruct (Hreg1 Hnoprefix) as [d Hd].
        exists d. by eapply lookup_weaken.
    + intros [= <- <-].
      apply OnRecvPacket_body_effects in Hbody
        as (Hp1 & Ha1 & Hsub1 & Horigin1 & _).
      split; [done|]. split; [done|]. split; [done|]. split; [|done].
      intros hash denom [Hold|(Hnoprefix & -> & ->)]%Horigin1; [by left|].
      right. exists token. split; [|done].
      rewrite (minted_tokens_cons _ _ token rest).
      apply elem_of_app. left. by apply Hin1.
Qed.

(** Under a hash the registry does not hold, a successful run of the loop
    of OnRecvPacket stores the denom of the first token with that hash it
    mints a voucher for, if there is one. *)
Lemma OnRecvPacket_range_first
    (sourcePort sourceChannel destPort destChannel : string)
    (receiver : AccAddress) (hash : string) (tokens : list Token) :
  let minted := received_denom sourcePort sourceChannel destPort destChannel in
  forall (receivedCoins coins : Coins) (ctx ctx' : Ctx B),
    OnRecvPacket_range sourcePort sourceChannel destPort destChannel receiver
      tokens receivedCoins ctx = Done (Ok coins, ctx') ->
    denoms ctx !! hash = None ->
    (denoms ctx' !! hash = None /\
     forall t, t ∈ minted_tokens sourcePort sourceChannel tokens ->
               Hash (minted (TokenDenom t)) <> hash) \/
    exists before first after,
      minted_tokens sourcePort sourceChannel tokens
      = (before ++ first :: after)%list /\
      Hash (minted (TokenDenom first)) = hash /\
      (forall t, t ∈ before -> Hash (minted (TokenDenom t)) <> hash) /\
      denoms ctx' !! hash = Some (minted (TokenDenom first)).
Proof.
  intros minted.
  induction tokens as [|token rest IH]; intros receivedCoins coins ctx ctx'.
  - intros [= <- <-] Hunseen. left. split; [done|].
    intros t Hin. by apply elem_of_nil in Hin.
  - cbn [OnRecvPacket_range]. unfold guard_val, bind.
    destruct (OnRecvPacket_body _ _ _ _ _ token receivedCoins ctx)
      as [[[coins1|err] ctx1]|] eqn:Hbody; [|done|done].
    intros Hrest Hunseen.
    apply OnRecvPacket_body_effects in Hbody
      as (_ & _ & _ & Horigin1 & _ & _ & _ & _ & Hreg1).
    fold minted in Horigin1, Hreg1.
    pose proof (OnRecvPacket_range_effects _ _ _ _ _ _ _ _ _ _ Hrest)
      as (_ & _ & Hsub2 & _).
    destruct (HasPrefix (TokenDenom token) sourcePort sourceChannel)
      eqn:Hprefix.
    + assert (denoms ctx1 !! hash = None) as Hunseen1.
      { destruct (denoms ctx1 !! hash) as [d|] eqn:Hd; [|done].
        apply Horigin1 in Hd as [Hold|(Hno & _)]; congruence. }
      assert (minted_tokens sourcePort sourceChannel (token :: rest)
              = minted_tokens sourcePort sourceChannel rest) as ->.
      { unfold minted_tokens. rewrite filter_cons.
        destruct (decide _) as [Hno|]; [congruence | done]. }
      by eapply IH.
    + assert (minted_tokens sourcePort sourceChannel (token :: rest)
              = token :: minted_tokens sourcePort sourceChannel rest) as ->.
      { unfold minted_tokens. rewrite filter_cons.
        destruct (decide _) as [|Hno]; [done | congruence]. }
      destruct (decide (Hash (minted (TokenDenom token)) = hash)) as [Hsame|Hother].
      * right. exists [], token, (minted_tokens sourcePort sourceChannel rest).
        split; [done|]. split; [done|].
        split; [intros t Hin; by apply elem_of_nil in Hin|].
        destruct (Hreg1 eq_refl) as [d Hd]. rewrite Hsame in Hd.
        eapply lookup_weaken; [|exact Hsub2].
        by destruct (Horigin1 _ _ Hd) as [Hold|(_ & -> & _)]; [congruence|].
      * assert (denoms ctx1 !! hash = None) as Hunseen1.
        { destruct (denoms ctx1 !! hash) as [d|] eqn:Hd; [|done].
          apply Horigin1 in Hd as [Hold|(_ & -> & ->)]; congruence. }
        destruct (IH _ _ _ _ Hrest Hunseen1)
          as [[Hnone Hnot]|(before & first & after & -> & Hfirst & Hbefore & Hin)].
        -- left. split; [done|].
           intros t [->|Hin]%elem_of_cons; [done | by apply Hnot].
        -- right. exists (token :: before), first, after.
           split; [done|]. split; [done|]. split; [|done].
           intros t [->|Hint]%elem_of_cons; [done | by apply Hbefore].
Qed.

(** Whatever OnRecvPacket returns, it got there through its loop or left
    the context alone. *)
Lemma OnRecvPacket_cases (data : FungibleTokenPacketDataV2)
    (sourcePort sourceChannel destPort destChannel : string)
    (r : result Coins) (ctx ctx' : Ctx B) :
  OnRecvPacket data sourcePort sourceChannel destPort destChannel ctx
  = Done (r, ctx') ->
  (ctx' = ctx /\ exists err, r = Err err) \/
  exists receiver,
    OnRecvPacket_range sourcePort sourceChannel destPort destChannel
      receiver (Tokens data) [] ctx = Done (r, ctx').
Proof.
  rewrite OnRecvPacket_unfold.
  destruct (ValidateBasicV2 data); [intros [= <- <-]; eauto|].
  destruct (negb _); [intros [= <- <-]; eauto|].
  destruct (getReceiverFromPacketData data) as [receiver|];
    [|intros [= <- <-]; eauto].
  destruct (IsBlockedAddr receiver); [intros [= <- <-]; eauto|].
  eauto.
Qed.

(** X6. The coins OnRecvPacket reports: on success every token's amount
    is an integer, and there is exactly one coin per token of the packet, in
    the order of the tokens, each with the token's amount, under the ledger
    denomination of the token's denom without its first hop (for a token
    coming back through the source port and channel) or with the
    destination hop in front (for any other). *)
Theorem OnRecvPacket_received_coins (data : FungibleTokenPacketDataV2)
    (sourcePort sourceChannel destPort destChannel : string)
    (coins : Coins) (ctx ctx' : Ctx B) :
  OnRecvPacket data sourcePort sourceChannel destPort destChannel ctx
  = Done (Ok coins, ctx') ->
  Forall (fun token => is_Some (NewIntFromString (Amount token))) (Tokens data) /\
  coins = map (received_coin sourcePort sourceChannel destPort destChannel)
            (Tokens data).
Proof.
  intros [(_ & err & [=]) | [receiver Hrange]]%OnRecvPacket_cases.
  by apply OnRecvPacket_range_effects in Hrange
    as (_ & _ & _ & _ & Hparse & -> & _).
Qed.

(** X7. What a successful OnRecvPacket takes out of escrow: for every
    denomination, the total falls by the amounts of the tokens coming back
    through (sourcePort, sourceChannel) whose denomination, once the first
    hop is removed, is that one; the tokens vouchers are minted for leave
    the totals alone. The parameters and the written acknowledgements are
    untouched. *)
Theorem OnRecvPacket_escrow_accounting (data : FungibleTokenPacketDataV2)
    (sourcePort sourceChannel destPort destChannel : string)
    (coins : Coins) (ctx ctx' : Ctx B) :
  OnRecvPacket data sourcePort sourceChannel destPort destChannel ctx
  = Done (Ok coins, ctx') ->
  params ctx' = params ctx /\ acks ctx' = acks ctx /\
  forall denom,
    EscrowTotal ctx' denom
    = EscrowTotal ctx denom
      - returning_amount sourcePort sourceChannel denom (Tokens data).
Proof.
  intros [(_ & err & [=]) | [receiver Hrange]]%OnRecvPacket_cases.
  apply OnRecvPacket_range_effects in Hrange
    as (Hp & Ha & _ & _ & _ & _ & Htotal & _). by repeat split.
Qed.

(** X8. The denom registry under OnRecvPacket. Whatever the call returns,
    no entry of the registry is removed or overwritten, and every entry
    there is afterwards was there before or is the denom of a token a
    voucher is minted for, stored under its own hash; so a registry whose
    entries are all stored under the hash of their denom stays so. On
    success, one denom event per token a voucher was minted for, in order,
    has been added to the events, and for every such token the registry has
    an entry under the hash of the token's denom (with the destination hop
    in front): the entry that was there before the call when there was one,
    and otherwise the denom of the first token of the packet a voucher was
    minted for whose denom has that hash. So the entry is the token's own
    denom when the hash was not in the registry before and no other denom
    minted for the packet shares it. *)
Theorem OnRecvPacket_registry (data : FungibleTokenPacketDataV2)
    (sourcePort sourceChannel destPort destChannel : string)
    (r : result Coins) (ctx ctx' : Ctx B) :
  let minted := received_denom sourcePort sourceChannel destPort destChannel in
  OnRecvPacket data sourcePort sourceChannel destPort destChannel ctx
  = Done (r, ctx') ->
  denoms ctx ⊆ denoms ctx' /\
  (forall hash denom,
     denoms ctx' !! hash = Some denom ->
     denoms ctx !! hash = Some denom \/
     exists token,
       token ∈ minted_tokens sourcePort sourceChannel (Tokens data) /\
       denom = minted (TokenDenom token) /\
       hash = Hash denom) /\
  (registry_ok ctx -> registry_ok ctx') /\
  (forall coins,
     r = Ok coins ->
     events ctx'
     = (events ctx
        ++ map (denom_event sourcePort sourceChannel destPort destChannel)
             (minted_tokens sourcePort sourceChannel (Tokens data)))%list /\
     forall token,
       token ∈ minted_tokens sourcePort sourceChannel (Tokens data) ->
       match denoms ctx !! Hash (minted (TokenDenom token)) with
       | Some old =>
           denoms ctx' !! Hash (minted (TokenDenom token)) = Some old
       | None =>
           (exists before first after,
              minted_tokens sourcePort sourceChannel (Tokens data)
              = (before ++ first :: after)%list /\
              Hash (minted (TokenDenom first))
              = Hash (minted (TokenDenom token)) /\
              (forall earlier,
                 earlier ∈ before ->
                 Hash (minted (TokenDenom earlier))
                 <> Hash (minted (TokenDenom token))) /\
              denoms ctx' !! Hash (minted (TokenDenom token))
              = Some (minted (TokenDenom first))) /\
           ((forall other,
               other ∈ minted_tokens sourcePort sourceChannel (Tokens data) ->
               Hash (minted (TokenDenom other))
               = Hash (minted (TokenDenom token)) ->
               minted (TokenDenom other) = minted (TokenDenom token)) ->
            denoms ctx' !! Hash (minted (TokenDenom token))
            = Some (minted (TokenDenom token)))
       end).
Proof.
  intros minted Hrecv.
  assert (denoms ctx ⊆ denoms ctx' /\
          (forall hash denom,
             denoms ctx' !! hash = Some denom ->
             denoms ctx !! hash = Some denom \/
             exists token,
               token ∈ minted_tokens sourcePort sourceChannel (Tokens data) /\
               denom = minted (TokenDenom token) /\
               hash = Hash denom) /\
          (forall coins,
             r = Ok coins ->
             events ctx'
             = (events ctx
                ++ map (denom_event sourcePort sourceChannel destPort
                          destChannel)
                     (minted_tokens sourcePort sourceChannel (Tokens data)))%list))
    as (Hsub & Horigin & Hok).
  { apply OnRecvPacket_cases in Hrecv as [(-> & err & ->) | [receiver Hrange]].
    - split; [done|]. split; [by left|]. by intros coins [=].
    - apply OnRecvPacket_range_effects in Hrange
        as (_ & _ & Hsub & Horigin & Hr).
      split; [done|]. split; [done|].
      intros coins ->. by destruct Hr as (_ & _ & _ & Hev & _). }
  split; [done|]. split; [done|]. split.
  { intros Hreg hash denom [Hold|(t & _ & -> & ->)]%Horigin;
      [by apply Hreg|done]. }
  intros coins ->. split; [by eapply Hok|]. intros token Hin.
  destruct (denoms ctx !! Hash (minted (TokenDenom token))) as [old|] eqn:Hold.
  { by eapply lookup_weaken. }
  apply OnRecvPacket_cases in Hrecv as [(_ & err & [=]) | [receiver Hrange]].
  destruct (OnRecvPacket_range_first _ _ _ _ _ _ _ _ _ _ _ Hrange Hold)
    as [[_ Hnot]|(before & first & after & Hlist & Hhash & Hbefore & Hstored)].
  { by destruct (Hnot token Hin). }
  split; [by exists before, first, after|].
  intros Hunique. rewrite Hstored. f_equal. apply Hunique; [|done].
  rewrite Hlist. apply elem_of_app. right. apply list_elem_of_here.
Qed.
End ReceiveAccounts.

(** ** TokenFromCoin *)

Section TokenFromCoinFacts.
Context {B : Type}.
Context `{SDK} `{TransferTypes} `{DenomCodec}.

(** A string with a prefix can be sliced after the prefix. *)
Lemma string_from_prefix (p s : string) :
  String.prefix p s = true ->
  exists rest, s = p ++ rest /\ string_from (String.length p) s = Done rest.
Proof.
  revert s. induction p as [|c p IH]; intros s.
  - intros _. by exists s.
  - destruct s as [|c' s]; [done|]. cbn [String.prefix].
    destruct (Ascii.ascii_dec c c') as [<-|]; [|done].
    intros [rest [-> Hfrom]]%IH. by exists rest.
Qed.

Lemma prefix_app (p rest : string) : String.prefix p (p ++ rest) = true.
Proof.
  induction p as [|c p IH]; [by destruct rest|].
  change (String.prefix (String c p) (String c (p ++ rest)) = true).
  cbn [String.prefix]. by destruct (Ascii.ascii_dec c c).
Qed.

Lemma string_from_app (p rest : string) :
  string_from (String.length p) (p ++ rest) = Done rest.
Proof.
  induction p as [|c p IH]; [done|].
  change (string_from (S (String.length p)) (String c (p ++ rest)) = Done rest).
  apply IH.
Qed.

(** TokenFromCoin, in direct style. *)
Lemma TokenFromCoin_unfold (coin : Coin) (ctx : Ctx B) :
  TokenFromCoin coin ctx =
  if negb (String.prefix "ibc/" (CoinDenom coin))
  then Done (Ok (MkToken (MkDenom (CoinDenom coin) [])
                   (IntString (CoinAmount coin))), ctx)
  else
    match string_from 4 (CoinDenom coin) with
    | Panic => Panic
    | Done hexHash =>
        match ParseHexHash hexHash with
        | Err err => Done (Err (WrapError ErrInvalidDenomForTransfer err), ctx)
        | Ok hash =>
            match denoms ctx !! hash with
            | None => Done (Err (Wrap ErrDenomNotFound hexHash), ctx)
            | Some denom =>
                Done (Ok (MkToken denom (IntString (CoinAmount coin))), ctx)
            end
        end
    end.
Proof.
  unfold TokenFromCoin, strings_HasPrefix, NewDenom.
  destruct (String.prefix "ibc/" (CoinDenom coin)); [|done].
  cbn [negb]. unfold bind, lift_outcome, GetDenom, ret.
  change (String.length (DenomPrefix ++ "/")) with 4%nat.
  destruct (string_from 4 (CoinDenom coin)) as [hexHash|]; [|done].
  destruct (ParseHexHash hexHash) as [hash|err]; [|done].
  by destruct (denoms ctx !! hash).
Qed.

(** X9. TokenFromCoin only reads: for every coin and context it returns
    (the slice after "ibc/" is never out of range) and leaves the context as
    it was. When it fails, the error is ErrInvalidDenomForTransfer (the text
    after "ibc/" is no hash) or ErrDenomNotFound (the hash is not in the
    registry); a coin whose denomination does not start with "ibc/" never
    fails. *)
Theorem TokenFromCoin_reads_only (coin : Coin) (ctx : Ctx B) :
  exists r,
    TokenFromCoin coin ctx = Done (r, ctx) /\
    (forall err,
       r = Err err ->
       String.prefix "ibc/" (CoinDenom coin) = true /\
       (root_cause err = ErrInvalidDenomForTransfer \/
        root_cause err = ErrDenomNotFound)).
Proof.
  rewrite TokenFromCoin_unfold.
  destruct (String.prefix "ibc/" (CoinDenom coin)) eqn:Hprefix; cbn [negb].
  2:{ eexists. split; [done|]. by intros err [=]. }
  destruct (string_from_prefix _ _ Hprefix) as (rest & _ & Hfrom).
  change (String.length "ibc/") with 4%nat in Hfrom. rewrite Hfrom.
  destruct (ParseHexHash rest) as [hash|err].
  - destruct (denoms ctx !! hash).
    + eexists. split; [done|]. by intros err [=].
    + eexists. split; [done|]. intros err [= <-]. split; [done|]. by right.
  - eexists. split; [done|]. intros e [= <-]. split; [done|]. by left.
Qed.

(** TokenFromCoin on the ledger denomination of a denom the ledger can
    name. *)
Lemma TokenFromCoin_named (d : Denom) (amount : Z) (ctx : Ctx B) :
  (if IsNative d then String.prefix "ibc/" (Base d) = false
   else denoms ctx !! Hash d = Some d /\
        ParseHexHash (HexString (Hash d)) = Ok (Hash d)) ->
  TokenFromCoin (MkCoin (IBCDenom d) amount) ctx
  = Done (Ok (MkToken d (IntString amount)), ctx).
Proof.
  intros Hnamed.
  rewrite TokenFromCoin_unfold. unfold IBCDenom in *. cbn [CoinDenom CoinAmount].
  destruct d as [base trace]. unfold IsNative in *. cbn [Trace Base] in *.
  destruct trace as [|hop trace].
  - by rewrite Hnamed.
  - destruct Hnamed as [Hregistered Hparse].
    change (DenomPrefix ++ "/" ++ ?x) with ("ibc/" ++ x).
    rewrite prefix_app. cbn [negb].
    rewrite (string_from_app "ibc/"), Hparse, Hregistered. done.
Qed.

(** X10. Coin to token and back. For a denom that the ledger can name -- a
    base denomination that does not itself start with "ibc/", or a denom
    with a trace that is in the registry under its hash, the hash being one
    that ParseHexHash reads back from its hexadecimal text -- TokenFromCoin
    on the coin of that denom's ledger denomination returns the denom with
    the amount's text; and when NewIntFromString reads that text back and
    the ledger denomination is valid, ToCoin turns the token into the coin
    again. *)
Theorem TokenFromCoin_ToCoin_round_trip (d : Denom) (amount : Z)
    (ctx : Ctx B) :
  (if IsNative d then String.prefix "ibc/" (Base d) = false
   else denoms ctx !! Hash d = Some d /\
        ParseHexHash (HexString (Hash d)) = Ok (Hash d)) ->
  TokenFromCoin (MkCoin (IBCDenom d) amount) ctx
  = Done (Ok (MkToken d (IntString amount)), ctx) /\
  (NewIntFromString (IntString amount) = Some amount ->
   valid_coin (MkCoin (IBCDenom d) amount) ->
   ToCoin (MkToken d (IntString amount))
   = Done (Ok (MkCoin (IBCDenom d) amount))).
Proof.
  intros Hnamed. split; [by apply TokenFromCoin_named|].
  - intros Hparse [Hdenom Hpos]. unfold ToCoin, NewCoin. cbn [Amount TokenDenom].
    cbn [CoinDenom CoinAmount] in *. rewrite Hparse, Hdenom.
    by destruct (Z.leb_spec 0 amount); [|lia].
Qed.
End TokenFromCoinFacts.

Section ReceivedVouchers.
Context {B : Type}.
Context `{SDK} `{BankKeeper B} `{AuthKeeper} `{TransferTypes} `{KeeperDeps}
        `{DenomCodec}.

(** X11. A received voucher can be named again. After a successful
    OnRecvPacket, take a token a voucher was minted for, whose denom (with
    the destination hop in front) was not in the registry before and shares
    its hash with no other denom minted by this packet, the hash being one
    ParseHexHash reads back from its hexadecimal text: TokenFromCoin on the
    coin credited for that token returns the denom with the destination hop
    in front. *)
Theorem received_voucher_resolves (data : FungibleTokenPacketDataV2)
    (sourcePort sourceChannel destPort destChannel : string)
    (coins : Coins) (token : Token) (ctx ctx' : Ctx B) :
  let minted := received_denom sourcePort sourceChannel destPort destChannel in
  OnRecvPacket data sourcePort sourceChannel destPort destChannel ctx
  = Done (Ok coins, ctx') ->
  token ∈ minted_tokens sourcePort sourceChannel (Tokens data) ->
  denoms ctx !! Hash (minted (TokenDenom token)) = None ->
  (forall other,
     other ∈ minted_tokens sourcePort sourceChannel (Tokens data) ->
     Hash (minted (TokenDenom other)) = Hash (minted (TokenDenom token)) ->
     minted (TokenDenom other) = minted (TokenDenom token)) ->
  ParseHexHash (HexString (Hash (minted (TokenDenom token))))
  = Ok (Hash (minted (TokenDenom token))) ->
  TokenFromCoin
    (received_coin sourcePort sourceChannel destPort destChannel token) ctx'
  = Done (Ok (MkToken (minted (TokenDenom token))
                (IntString (token_amount token))), ctx').
Proof.
  intros minted Hrecv Hin Hunseen Hunique Hparse.
  apply OnRecvPacket_cases in Hrecv as [(_ & err & [=]) | [receiver Hrange]].
  apply OnRecvPacket_range_effects in Hrange
    as (_ & _ & _ & Horigin & _ & _ & _ & _ & Hreg).
  destruct (Hreg token Hin) as [d Hd]. fold minted in Hd.
  assert (d = minted (TokenDenom token)) as ->.
  { destruct (Horigin _ _ Hd) as [Hold|(other & Hother & -> & Hhash)];
      [congruence|].
    apply Hunique; [done|]. by symmetry. }
  assert (HasPrefix (TokenDenom token) sourcePort sourceChannel = false)
    as Hnoprefix.
  { unfold minted_tokens in Hin. by apply list_elem_of_filter in Hin as [? _]. }
  assert (IsNative (minted (TokenDenom token)) = false) as Hhop.
  { unfold minted, received_denom. by rewrite Hnoprefix. }
  unfold received_coin. fold minted.
  apply TokenFromCoin_named. by rewrite Hhop.
Qed.
End ReceivedVouchers.

(** ** More on the escrow ledger and on the packet data *)

Section EscrowPairs.
Context {B : Type}.
Context `{SDK} `{BankKeeper B}.

(** X12. Escrow, then unescrow. After a successful EscrowCoin of a coin on a
    non-negative total, an UnescrowCoin of the same coin never panics on
    the ledger arithmetic: it returns, and when it returns nil every escrow
    total is what it was before the escrow. *)
Theorem escrow_then_unescrow (sender escrowAddress receiver : AccAddress)
    (coin : Coin) (ctx ctx1 : Ctx B) :
  0 <= EscrowTotal ctx (CoinDenom coin) ->
  EscrowCoin sender escrowAddress coin ctx = Done (None, ctx1) ->
  exists r ctx2,
    UnescrowCoin escrowAddress receiver coin ctx1 = Done (r, ctx2) /\
    (r = None -> forall denom, EscrowTotal ctx2 denom = EscrowTotal ctx denom).
Proof.
  intros Hnonneg Hescrow.
  pose proof (EscrowCoin_total _ _ _ _ _ Hescrow) as [Hpos Hup].
  rewrite EscrowCoin_unfold in Hescrow.
  destruct (NewCoins coin) as [coins|] eqn:Hcoins; [|done].
  assert (overflows (EscrowTotal ctx (CoinDenom coin) + CoinAmount coin) = false)
    as Hfits%overflows_false.
  { destruct (SendCoins (bank ctx) sender escrowAddress coins) as [b [err|]];
      [done|].
    by destruct (overflows _). }
  rewrite UnescrowCoin_unfold, Hcoins.
  destruct (SendCoins (bank ctx1) escrowAddress receiver coins) as [b [err|]].
  - do 2 eexists. split; [done|]. by intros [=].
  - rewrite (Hup (CoinDenom coin)), String.eqb_refl.
    rewrite (proj2 (overflows_false _)) by lia.
    destruct (Z.ltb_spec (EscrowTotal ctx (CoinDenom coin) + CoinAmount coin
                          - CoinAmount coin) 0); [lia|].
    do 2 eexists. split; [done|]. intros _ denom.
    rewrite EscrowTotal_insert, (Hup denom).
    destruct (String.eqb_spec (CoinDenom coin) denom) as [->|]; lia.
Qed.
End EscrowPairs.

Section PacketDataTotal.
Context `{TransferTypes}.

(** X13. createPacketDataBytesFromVersion never panics: the first token is
    only read from a list of length one. It produces bytes in two cases
    only: version V1 with exactly one token whose V1 packet data passes
    validation, and version V2 with packet data over the given tokens that
    passes validation; the bytes are those of that packet data. Any version
    other than V1 and V2 is answered with ErrInvalidVersion. *)
Theorem createPacketDataBytesFromVersion_total
    (appVersion sender receiver memo : string) (tokens : list Token)
    (hops : list Hop) :
  exists r,
    createPacketDataBytesFromVersion appVersion sender receiver memo tokens hops
    = Done r /\
    (forall bytes,
       r = Ok bytes ->
       (appVersion = V1 /\
        exists token,
          tokens = [token] /\
          ValidateBasicV1 (MkPacketDataV1 (Path (TokenDenom token))
                             (Amount token) sender receiver memo) = None /\
          bytes = GetBytesV1 (MkPacketDataV1 (Path (TokenDenom token))
                                (Amount token) sender receiver memo)) \/
       (appVersion = V2 /\
        exists packetData,
          Tokens packetData = tokens /\ Sender packetData = sender /\
          Receiver packetData = receiver /\
          Hops (Forwarding packetData) = hops /\
          ValidateBasicV2 packetData = None /\
          bytes = GetBytesV2 packetData)) /\
    (appVersion <> V1 -> appVersion <> V2 ->
     exists err, r = Err err /\ root_cause err = ErrInvalidVersion).
Proof.
  unfold createPacketDataBytesFromVersion.
  destruct (String.eqb_spec appVersion V1) as [->|Hv1].
  - destruct tokens as [|token [|token2 rest]]; cbn [length Nat.eqb negb].
    + eexists. split; [done|]. split; [by intros bytes [=] | done].
    + unfold NewFungibleTokenPacketData.
      destruct (ValidateBasicV1 _) as [err|] eqn:Hvalid.
      * eexists. split; [done|]. split; [by intros bytes [=] | done].
      * eexists. split; [done|]. split; [|done].
        intros bytes [= <-]. left. split; [done|]. by exists token.
    + eexists. split; [done|]. split; [by intros bytes [=] | done].
  - destruct (String.eqb_spec appVersion V2) as [->|Hv2].
    + unfold NewFungibleTokenPacketDataV2, NewForwardingPacketData.
      destruct hops as [|hop hops]; cbn [length Nat.ltb Nat.leb];
        (destruct (ValidateBasicV2 _) as [err|] eqn:Hvalid;
         [ eexists; split; [done|]; split; [by intros bytes [=] | done]
         | eexists; split; [done|]; split; [|done];
           intros bytes [= <-]; right; split; [done|];
           eexists; by repeat split ]).
    + eexists. split; [done|]. split; [by intros bytes [=]|].
      intros _ _. by eexists.
Qed.
End PacketDataTotal.

Section VoucherRoundTrip.
Context {B : Type}.
Context `{SDK} `{BankKeeper B} `{AuthKeeper} `{TransferTypes} `{KeeperDeps}.

(** X14. A voucher goes back the way it came. Take a token without the
    prefix (sourcePort, sourceChannel) whose amount parses. An OnRecvPacket
    call that reaches it in a packet received on (destPort, destChannel)
    mints the voucher for its denom with the hop (destPort, destChannel) in
    front. A SendTransfer call over that same port and channel that reaches
    the voucher's token burns it, never escrows it, and the coin burned is
    the coin that was minted. An OnRecvPacket call on the other side, whose
    packet source is then (destPort, destChannel), that reaches the
    voucher's token unescrows it under the ledger denomination of the denom
    it started from. *)
Theorem voucher_goes_back_the_way_it_came
    (sourcePort sourceChannel destPort destChannel : string)
    (token : Token) (amount : Z) (voucher : Coin) :
  let minted := received_denom sourcePort sourceChannel destPort destChannel
                  (TokenDenom token) in
  let back := MkToken minted (Amount token) in
  HasPrefix (TokenDenom token) sourcePort sourceChannel = false ->
  NewIntFromString (Amount token) = Some amount ->
  NewCoin (IBCDenom minted) amount = Done voucher ->
  voucher = received_coin sourcePort sourceChannel destPort destChannel token /\
  (* received: the voucher is minted *)
  (forall data receiver before after receivedCoins (ctx ctx1 : Ctx B),
     ValidateBasicV2 data = None ->
     ReceiveEnabled (params ctx) = true ->
     getReceiverFromPacketData data = Ok receiver ->
     IsBlockedAddr receiver = false ->
     Tokens data = (before ++ token :: after)%list ->
     OnRecvPacket_range sourcePort sourceChannel destPort destChannel receiver
       before [] ctx = Done (Ok receivedCoins, ctx1) ->
     OnRecvPacket data sourcePort sourceChannel destPort destChannel ctx
     = match mint_voucher receiver voucher
               (set_events (events ctx1 ++ [DenomEvent back])%list
                  (register_if_unseen minted ctx1)) with
       | Done (None, ctx2) =>
           OnRecvPacket_range sourcePort sourceChannel destPort destChannel
             receiver after (receivedCoins ++ [voucher])%list ctx2
       | Done (Some err, ctx2) => Done (Err err, ctx2)
       | Panic => Panic
       end) /\
  (* sent back: the voucher is burned *)
  (forall tokens sender before after (ctx ctx1 : Ctx B) (h : Heap),
     valid_slice h tokens ->
     SendEnabled (params ctx) = true ->
     IsBlockedAddr sender = false ->
     elements h tokens = (before ++ back :: after)%list ->
     send_each destPort destChannel sender before ctx = Done (None, ctx1) ->
     IsSendEnabledCoins (bank ctx1) voucher = None ->
     forget_heap (SendTransfer destPort destChannel tokens sender (ctx, h))
     = match burn_from_sender sender voucher ctx1 with
       | Done (None, ctx2) => send_each destPort destChannel sender after ctx2
       | Done (Some err, ctx2) => Done (Some err, ctx2)
       | Panic => Panic
       end) /\
  (* received on the other side: the coin it started from is unescrowed *)
  (forall data port channel receiver before after receivedCoins original
          (ctx ctx1 : Ctx B),
     ValidateBasicV2 data = None ->
     ReceiveEnabled (params ctx) = true ->
     getReceiverFromPacketData data = Ok receiver ->
     IsBlockedAddr receiver = false ->
     Tokens data = (before ++ back :: after)%list ->
     OnRecvPacket_range destPort destChannel port channel receiver
       before [] ctx = Done (Ok receivedCoins, ctx1) ->
     NewCoin (IBCDenom (TokenDenom token)) amount = Done original ->
     OnRecvPacket data destPort destChannel port channel ctx
     = match UnescrowCoin (GetEscrowAddress port channel) receiver original
               ctx1 with
       | Done (None, ctx2) =>
           OnRecvPacket_range destPort destChannel port channel receiver
             after (receivedCoins ++ [original])%list ctx2
       | Done (Some err, ctx2) => Done (Err err, ctx2)
       | Panic => Panic
       end).
Proof.
  intros minted back Hnoprefix Hamount Hvoucher.
  assert (minted = MkDenom (Base (TokenDenom token))
                     (NewHop destPort destChannel :: Trace (TokenDenom token)))
    as Hminted.
  { unfold minted, received_denom. by rewrite Hnoprefix. }
  assert (HasPrefix minted destPort destChannel = true) as Hprefix.
  { rewrite Hminted. unfold HasPrefix. cbn. by rewrite !String.eqb_refl. }
  assert (received_denom destPort destChannel destPort destChannel minted
          = TokenDenom token) as Hback.
  { unfold received_denom. rewrite Hprefix, Hminted. cbn.
    by destruct (TokenDenom token). }
  split; [|split; [|split]].
  - apply NewCoin_Done in Hvoucher as [-> _].
    unfold received_coin, token_amount. by rewrite Hamount.
  - intros data receiver before after receivedCoins ctx ctx1
      Hvalid Henabled Hreceiver Hallowed Htokens Hbefore.
    rewrite (OnRecvPacket_at _ _ _ _ _ _ _ _ _ _ _ _
               Hvalid Henabled Hreceiver Hallowed Htokens Hbefore).
    rewrite OnRecvPacket_body_unfold, Hamount. cbn zeta. fold minted.
    rewrite Hvoucher, Hnoprefix. fold back.
    by destruct (mint_voucher _ _ _) as [[[err|] ctx2]|].
  - intros tokens sender before after ctx ctx1 h
      Hvalid Henabled Hsender Helems Hbefore Hallowed.
    rewrite (SendTransfer_at _ _ _ _ _ _ _ _ _ _
               Hvalid Henabled Hsender Helems Hbefore).
    rewrite SendTransfer_body_unfold. unfold ToCoin.
    cbn [Amount TokenDenom back].
    by rewrite Hamount, Hvoucher, Hallowed, Hprefix.
  - intros data port channel receiver before after receivedCoins original
      ctx ctx1 Hvalid Henabled Hreceiver Hallowed Htokens Hbefore Horiginal.
    rewrite (OnRecvPacket_at _ _ _ _ _ _ _ _ _ _ _ _
               Hvalid Henabled Hreceiver Hallowed Htokens Hbefore).
    rewrite OnRecvPacket_body_unfold. cbn [Amount TokenDenom back].
    rewrite Hamount. cbn zeta.
    assert (received_denom destPort destChannel port channel minted
            = TokenDenom token) as ->.
    { unfold received_denom in *. by rewrite Hprefix in *. }
    rewrite Horiginal, Hprefix.
    by destruct (UnescrowCoin _ _ _ _) as [[[err|] ctx2]|].
Qed.
End VoucherRoundTrip.

(** ** What SendTransfer writes on the heap *)

Section SendTransferHeap.
Context {B : Type}.
Context `{SDK} `{BankKeeper B} `{AuthKeeper} `{TransferTypes} `{KeeperDeps}.

Lemma same_heap_but_spare_refl (r : Slice) (h : Heap) :
  same_heap_but_spare r h h.
Proof.
  split; [done|]. split; [done|]. intros cells0 Hcells. by exists cells0.
Qed.

Lemma SendTransfer_range_heap (sourcePort sourceChannel : string)
    (sender : AccAddress) (r : Slice) (h0 : Heap) :
  (array r < length h0)%nat ->
  forall (todo i : nat) (tokens : Slice) (h h' : Heap) (ctx : Ctx B),
    same_heap_but_spare r h0 h ->
    grown_from r h0 tokens ->
    heap_of (SendTransfer_range sourcePort sourceChannel sender
               r i todo tokens (ctx, h)) = Some h' ->
    same_heap_but_spare r h0 h'.
Proof.
  intros Hr. induction todo as [|todo IH];
    intros i tokens h h' ctx Hsame Hgrown.
  - by intros [= <-].
  - cbn [SendTransfer_range]. unfold bind at 1. unfold index. cbn [fst snd].
    destruct (i <? len r)%nat; [|done].
    destruct (h !! array r ≫= _) as [token|]; [|done].
    unfold guard, bind, on_ctx. cbn [fst snd].
    destruct (SendTransfer_body sourcePort sourceChannel sender token ctx)
      as [[[err|] ctx1]|]; cbn [heap_of ret]; [by intros [= <-]| |done].
    unfold append. cbn [fst snd].
    destruct Hsame as (Hlen & Hothers & Hmine).
    destruct (len tokens <? cap tokens)%nat eqn:Hroom.
    + apply Nat.ltb_lt in Hroom.
      apply IH.
      * split; [by rewrite length_alter|]. split.
        -- intros a Ha Halen.
           destruct (decide (a = array tokens)) as [->|Hne].
           ++ destruct Hgrown as [(Harr & _)|Hnew]; [done | lia].
           ++ rewrite list_lookup_alter_ne by done. by apply Hothers.
        -- intros cells0 Hcells0.
           destruct (Hmine cells0 Hcells0) as (cells & Hcells & Hclen & Hsamecells).
           destruct Hgrown as [(Harr & Hoff & Hcap & Hge)|Hnew].
           ++ exists (<[(offset tokens + len tokens)%nat := token]> cells).
              split; [by rewrite Harr, list_lookup_alter_eq, Hcells|].
              split; [by rewrite length_insert|].
              intros j Hj. rewrite list_lookup_insert_ne by lia.
              by apply Hsamecells.
           ++ exists cells. split; [|done].
              rewrite list_lookup_alter_ne by lia. done.
      * destruct Hgrown as [(Harr & Hoff & Hcap & Hge)|Hnew].
        -- left. cbn. repeat split; try done. lia.
        -- right. done.
    + apply IH.
      * split; [rewrite length_app; lia|]. split.
        -- intros a Ha Halen. rewrite lookup_app_l by lia. by apply Hothers.
        -- intros cells0 Hcells0.
           destruct (Hmine cells0 Hcells0) as (cells & Hcells & Hrest).
           exists cells. split; [|done].
           rewrite lookup_app_l; [done|]. by eapply lookup_lt_Some.
      * right. cbn. lia.
Qed.

(** X15. SendTransfer re-assigns [tokens] with [append] in its loop, so it
    writes on the heap; the writes stay within bounds. After a call that
    does not panic, no array has been freed or resized, every array other
    than the one under [tokens] holds what it held, and in the array under
    [tokens] only cells of the slice's spare capacity (from its length up
    to its capacity) can have changed: the elements of the slice, and
    everything outside its capacity, are as they were. *)
Theorem SendTransfer_writes_only_spare_capacity
    (sourcePort sourceChannel : string) (tokens : Slice)
    (sender : AccAddress) (ctx : Ctx B) (h h' : Heap) :
  valid_slice h tokens ->
  heap_of (SendTransfer sourcePort sourceChannel tokens sender (ctx, h))
  = Some h' ->
  (length h <= length h')%nat /\
  (forall a, a <> array tokens -> (a < length h)%nat -> h' !! a = h !! a) /\
  exists cells cells',
    h !! array tokens = Some cells /\ h' !! array tokens = Some cells' /\
    length cells' = length cells /\
    forall j,
      (j < offset tokens + len tokens \/ offset tokens + cap tokens <= j)%nat ->
      cells' !! j = cells !! j.
Proof.
  intros (Hcap & cells & Hcells & Hlen) Hheap.
  assert (same_heap_but_spare tokens h h') as (Hgrow & Hothers & Hmine).
  { revert Hheap. unfold SendTransfer, bind, on_ctx, GetParams. cbn [fst snd].
    destruct (negb _); [intros [= <-]; apply same_heap_but_spare_refl|].
    destruct (IsBlockedAddr sender);
      [intros [= <-]; apply same_heap_but_spare_refl|].
    apply SendTransfer_range_heap.
    - by eapply lookup_lt_Some.
    - apply same_heap_but_spare_refl.
    - left. by repeat split. }
  split; [done|]. split; [done|].
  destruct (Hmine cells Hcells) as (cells' & Hcells' & Hlen' & Hsame).
  by exists cells, cells'.
Qed.
End SendTransferHeap.

(** ** Varints of the generated marshalling code *)

Section Varints.
Local Open Scope Z_scope.

Lemma Len64_pos (x : Z) : 0 < x -> Len64 x = Z.log2 x + 1.
Proof. intros Hx. unfold Len64. by destruct (Z.eqb_spec x 0); [lia|]. Qed.

Lemma lor_1_pos (x : Z) : 0 <= x -> 0 < Z.lor x 1.
Proof.
  intros Hx. assert (0 <= Z.lor x 1) by (apply Z.lor_nonneg; lia).
  assert (Z.lor x 1 <> 0); [|lia].
  intros [_ ?]%Z.lor_eq_0_iff. lia.
Qed.

Lemma log2_lor_1 (x : Z) : 0 <= x -> Z.log2 (Z.lor x 1) = Z.log2 x.
Proof.
  intros Hx. rewrite Z.log2_lor by lia.
  change (Z.log2 1) with 0. pose proof (Z.log2_nonneg x). lia.
Qed.

Lemma sovGenesis_log2 (x : Z) : 0 <= x -> sovGenesis x = (Z.log2 x + 7) / 7.
Proof.
  intros Hx. unfold sovGenesis.
  rewrite Len64_pos by (by apply lor_1_pos). rewrite log2_lor_1 by done.
  f_equal. lia.
Qed.

Lemma sovGenesis_small (v : Z) : 0 <= v < 128 -> sovGenesis v = 1.
Proof.
  intros Hv. rewrite sovGenesis_log2 by lia.
  assert (0 <= Z.log2 v < 7).
  { split; [apply Z.log2_nonneg|].
    destruct (Z.eq_dec v 0) as [->|]; [done|].
    apply Z.log2_lt_pow2; lia. }
  symmetry. apply Z.div_unique with (r := Z.log2 v); lia.
Qed.

Lemma sovGenesis_step (v : Z) :
  128 <= v -> sovGenesis v = 1 + sovGenesis (Z.shiftr v 7).
Proof.
  intros Hv.
  assert (7 <= Z.log2 v) by (apply Z.log2_le_pow2; lia).
  assert (0 <= Z.shiftr v 7) by (apply Z.shiftr_nonneg; lia).
  rewrite !sovGenesis_log2 by lia.
  rewrite Z.log2_shiftr by lia.
  replace (Z.max 0 (Z.log2 v - 7) + 7) with (Z.log2 v) by lia.
  replace (Z.log2 v + 7) with (Z.log2 v + 1 * 7) by lia.
  rewrite Z.div_add by lia. lia.
Qed.

Lemma sovGenesis_range (v : Z) :
  0 <= v < 2 ^ 64 ->
  1 <= sovGenesis v <= 10 /\
  v < 2 ^ (7 * sovGenesis v) /\
  (1 < sovGenesis v -> 2 ^ (7 * (sovGenesis v - 1)) <= v).
Proof.
  intros Hv. rewrite sovGenesis_log2 by lia.
  pose proof (Z.log2_nonneg v) as Hnonneg.
  assert (Z.log2 v < 64) as Hlt.
  { destruct (Z.eq_dec v 0) as [->|]; [done|]. apply Z.log2_lt_pow2; lia. }
  pose proof (Z.div_mod (Z.log2 v + 7) 7 ltac:(lia)) as Hdiv.
  pose proof (Z.mod_pos_bound (Z.log2 v + 7) 7 ltac:(lia)) as Hmod.
  set (n := (Z.log2 v + 7) / 7) in *.
  split; [lia|]. split.
  - destruct (Z.eq_dec v 0) as [->|]; [apply Z.pow_pos_nonneg; lia|].
    apply Z.log2_lt_pow2; lia.
  - intros Hn. destruct (Z.eq_dec v 0) as [->|].
    + change (Z.log2 0) with 0 in *. lia.
    + apply Z.log2_le_pow2; lia.
Qed.

(** X16. The size of a varint: sovGenesis of a uint64 is between 1 and 10,
    it is the least number of groups of seven bits the value fits in. *)
Theorem sovGenesis_bounds (v : Z) :
  0 <= v < 2 ^ 64 ->
  1 <= sovGenesis v <= 10 /\
  v < 2 ^ (7 * sovGenesis v) /\
  (1 < sovGenesis v -> 2 ^ (7 * (sovGenesis v - 1)) <= v).
Proof. apply sovGenesis_range. Qed.

Lemma lor_shifted (a b n : Z) :
  0 <= n -> 0 <= a < 2 ^ n -> 0 <= b ->
  Z.lor a (b * 2 ^ n) = a + b * 2 ^ n.
Proof.
  intros Hn Ha Hb.
  assert (Z.land a (b * 2 ^ n) = 0) as Hdisjoint.
  { apply Z.bits_inj'. intros i Hi. rewrite Z.land_spec, Z.bits_0.
    destruct (Z.lt_ge_cases i n) as [Hlt|Hge].
    - rewrite Z.mul_pow2_bits_low by done. apply andb_false_r.
    - destruct (Z.eq_dec a 0) as [->|]; [by rewrite Z.bits_0|].
      rewrite (Z.bits_above_log2 a i); [done | lia |].
      assert (Z.log2 a < n) by (apply Z.log2_lt_pow2; lia). lia. }
  by rewrite <- Z.lxor_lor, <- Z.add_nocarry_lxor.
Qed.

Lemma store_in_range (dAtA : list Z) (i b : Z) :
  0 <= i < Z.of_nat (length dAtA) ->
  store dAtA i b = Returns (<[Z.to_nat i := b]> dAtA).
Proof.
  intros Hi. unfold store.
  destruct (Z.leb_spec 0 i); [|lia].
  by destruct (Z.ltb_spec i (Z.of_nat (length dAtA))); [|lia].
Qed.

Lemma load_in_range (dAtA : list Z) (i b : Z) :
  0 <= i -> dAtA !! Z.to_nat i = Some b -> load dAtA i = Returns b.
Proof.
  intros Hi Hb. unfold load. rewrite Hb.
  apply lookup_lt_Some in Hb.
  destruct (Z.leb_spec 0 i); [|lia].
  by destruct (Z.ltb_spec i (Z.of_nat (length dAtA))); [|lia].
Qed.

(** The byte written for a group that is not the last. *)
Lemma continuation_byte (v : Z) :
  0 <= v ->
  uint8 (Z.lor (Z.land v 127) 128) = v mod 128 + 128 /\
  Z.land (v mod 128 + 128) 127 = v mod 128.
Proof.
  intros Hv. change 127 with (Z.ones 7).
  rewrite Z.land_ones by lia. change (2 ^ 7) with 128.
  pose proof (Z.mod_pos_bound v 128 ltac:(lia)) as Hm.
  assert (Z.lor (v mod 128) 128 = v mod 128 + 128) as ->.
  { apply (lor_shifted (v mod 128) 1 7); lia. }
  unfold uint8. split.
  - apply Z.mod_small. lia.
  - rewrite Z.land_ones by lia. change (2 ^ 7) with 128.
    replace (v mod 128 + 128) with (v mod 128 + 1 * 128) by lia.
    rewrite Z.mod_add by lia. apply Z.mod_small. lia.
Qed.

(** Writing a varint and reading it back, round by round. *)
Lemma encode_decode_rounds (rounds : nat) :
  forall (v : Z) (dAtA : list Z) (offset : Z),
    (0 < rounds)%nat ->
    0 <= v < 2 ^ (7 * Z.of_nat rounds) ->
    0 <= offset ->
    offset + sovGenesis v <= Z.of_nat (length dAtA) ->
    exists dAtA',
      encodeVarint_loop rounds dAtA offset v = Returns dAtA' /\
      length dAtA' = length dAtA /\
      (forall j : nat,
         Z.of_nat j < offset \/ offset + sovGenesis v <= Z.of_nat j ->
         dAtA' !! j = dAtA !! j) /\
      (forall j : nat,
         offset <= Z.of_nat j < offset + sovGenesis v ->
         exists b, dAtA' !! j = Some b /\ 0 <= b < 256 /\
                   (128 <= b <-> Z.of_nat j < offset + sovGenesis v - 1)) /\
      (forall (rounds' : nat) (shift wire : Z),
         sovGenesis v <= Z.of_nat rounds' ->
         0 <= shift < 64 -> 0 <= wire < 2 ^ shift ->
         v * 2 ^ shift < 2 ^ 64 ->
         decodeVarint_loop rounds' dAtA' (Z.of_nat (length dAtA')) offset
           shift wire
         = Returns (wire + v * 2 ^ shift, offset + sovGenesis v)).
Proof.
  induction rounds as [|rounds IH];
    intros v dAtA offset Hrounds Hv Hoffset Hroom; [lia|].
  cbn [encodeVarint_loop]. change (2 ^ 7) with 128.
  destruct (Z.leb_spec 128 v) as [Hbig|Hsmall].
  - (* a group with the continuation bit, then the rest *)
    destruct (continuation_byte v ltac:(lia)) as [Hbyte Hlow].
    pose proof (Z.mod_pos_bound v 128 ltac:(lia)) as Hm.
    pose proof (sovGenesis_step v Hbig) as Hsov.
    assert (Z.shiftr v 7 = v / 128) as Hshift
      by (by rewrite Z.shiftr_div_pow2 by lia).
    assert (v = 128 * (v / 128) + v mod 128) as Hsplit
      by (apply Z.div_mod; lia).
    assert (1 <= v / 128) as Hq by (apply Z.div_le_lower_bound; lia).
    assert (v / 128 < 2 ^ (7 * Z.of_nat rounds)) as Hrest.
    { apply Z.div_lt_upper_bound; [lia|].
      replace (7 * Z.of_nat (S rounds)) with (7 + 7 * Z.of_nat rounds) in Hv
        by lia.
      rewrite Z.pow_add_r in Hv by lia. change (2 ^ 7) with 128 in Hv. lia. }
    assert (1 <= sovGenesis (v / 128)) as Hsov1.
    { rewrite sovGenesis_log2 by lia.
      pose proof (Z.log2_nonneg (v / 128)).
      apply Z.div_le_lower_bound; lia. }
    rewrite Hshift in *.
    rewrite Hbyte, store_in_range by lia.
    destruct (IH (v / 128) (<[Z.to_nat offset := v mod 128 + 128]> dAtA)
                (offset + 1)) as (dAtA' & Hrun & Hlen & Hframe & Hbytes & Hread).
    { destruct rounds; [|lia]. change (2 ^ (7 * Z.of_nat 0)) with 1 in Hrest.
      lia. }
    { lia. }
    { lia. }
    { rewrite length_insert. lia. }
    clear IH. rewrite length_insert in Hlen.
    assert (dAtA' !! Z.to_nat offset = Some (v mod 128 + 128)) as Hfirst.
    { rewrite Hframe by lia. apply list_lookup_insert_eq. lia. }
    exists dAtA'. split; [done|]. split; [done|]. split; [|split].
    + intros j Hj. rewrite Hframe by lia.
      apply list_lookup_insert_ne. lia.
    + intros j Hj. destruct (decide (Z.of_nat j = offset)) as [Heq|Hne].
      * exists (v mod 128 + 128).
        replace j with (Z.to_nat offset) by lia. split; [done|]. lia.
      * destruct (Hbytes j ltac:(lia)) as (b & Hb & Hrange & Hcont).
        exists b. split; [done|]. split; [done|]. rewrite Hcont. lia.
    + intros rounds' shift wire Hrounds' Hshiftr Hwire Hfits.
      destruct rounds' as [|rounds']; [lia|].
      cbn [decodeVarint_loop].
      destruct (Z.leb_spec 64 shift); [lia|].
      destruct (Z.leb_spec (Z.of_nat (length dAtA')) offset); [lia|].
      rewrite (load_in_range _ _ _ Hoffset Hfirst). cbn zeta.
      destruct (Z.ltb_spec (v mod 128 + 128) 128); [lia|].
      rewrite Hlow.
      assert (0 < 2 ^ shift) as Hpow by (apply Z.pow_pos_nonneg; lia).
      assert (2 ^ (shift + 7) = 2 ^ shift * 128) as Hpow7
        by (by rewrite Z.pow_add_r by lia).
      assert (shift + 7 < 64) as Hshift7.
      { apply (Z.pow_lt_mono_r_iff 2); [lia | lia |]. rewrite Hpow7. nia. }
      unfold uint64 at 2. rewrite (Z.mod_small (v mod 128)) by lia.
      rewrite Z.shiftl_mul_pow2 by lia.
      unfold uint64. rewrite (Z.mod_small (v mod 128 * 2 ^ shift)) by nia.
      rewrite lor_shifted by lia.
      rewrite Hread.
      * f_equal. f_equal; [|lia]. rewrite Hpow7. nia.
      * lia.
      * lia.
      * rewrite Hpow7. nia.
      * rewrite Hpow7. nia.
  - (* the last group *)
    rewrite sovGenesis_small in * by lia.
    assert (uint8 v = v) as -> by (apply Z.mod_small; lia).
    rewrite store_in_range by lia.
    eexists. split; [done|]. split; [by rewrite length_insert|].
    assert (<[Z.to_nat offset := v]> dAtA !! Z.to_nat offset = Some v)
      as Hfirst by (apply list_lookup_insert_eq; lia).
    split; [|split].
    + intros j Hj. apply list_lookup_insert_ne. lia.
    + intros j Hj. exists v. replace j with (Z.to_nat offset) by lia.
      split; [done|]. lia.
    + intros rounds' shift wire Hrounds' Hshiftr Hwire Hfits.
      destruct rounds' as [|rounds']; [lia|].
      cbn [decodeVarint_loop]. rewrite length_insert.
      destruct (Z.leb_spec 64 shift); [lia|].
      destruct (Z.leb_spec (Z.of_nat (length dAtA)) offset); [lia|].
      rewrite (load_in_range _ _ _ Hoffset Hfirst). cbn zeta.
      destruct (Z.ltb_spec v 128); [|lia].
      change 127 with (Z.ones 7). rewrite Z.land_ones by lia.
      change (2 ^ 7) with 128. rewrite (Z.mod_small v 128) by lia.
      assert (0 < 2 ^ shift) as Hpow by (apply Z.pow_pos_nonneg; lia).
      unfold uint64 at 2. rewrite (Z.mod_small v) by lia.
      rewrite Z.shiftl_mul_pow2 by lia.
      unfold uint64. rewrite (Z.mod_small (v * 2 ^ shift)) by nia.
      by rewrite lor_shifted by lia.
Qed.
(** X17. What encodeVarintGenesis writes. For a uint64 [v] and an offset
    with room for the varint below it, the call returns the index
    [offset - sovGenesis v] and has written exactly the cells from that
    index up to [offset]: the buffer keeps its length and every other cell;
    the cells written hold bytes, with the continuation bit on all of them
    but the last. Without room below the offset the call panics on its
    first store. *)
Theorem encodeVarintGenesis_writes (dAtA : list Z) (offset v : Z) :
  0 <= v < 2 ^ 64 ->
  offset <= Z.of_nat (length dAtA) ->
  (sovGenesis v <= offset ->
   exists dAtA',
     encodeVarintGenesis dAtA offset v
     = Returns (dAtA', offset - sovGenesis v) /\
     length dAtA' = length dAtA /\
     (forall j : nat,
        Z.of_nat j < offset - sovGenesis v \/ offset <= Z.of_nat j ->
        dAtA' !! j = dAtA !! j) /\
     (forall j : nat,
        offset - sovGenesis v <= Z.of_nat j < offset ->
        exists b, dAtA' !! j = Some b /\ 0 <= b < 256 /\
                  (128 <= b <-> Z.of_nat j < offset - 1))) /\
  (offset < sovGenesis v -> encodeVarintGenesis dAtA offset v = Panics).
Proof.
  intros Hv Hoffset. split.
  - intros Hroom. unfold encodeVarintGenesis. cbn zeta.
    destruct (encode_decode_rounds 10 v dAtA (offset - sovGenesis v))
      as (dAtA' & -> & Hlen & Hframe & Hbytes & _); try lia.
    exists dAtA'. split; [done|]. split; [done|]. split.
    + intros j Hj. apply Hframe. lia.
    + intros j Hj. destruct (Hbytes j ltac:(lia)) as (b & Hb & Hrange & Hcont).
      exists b. split; [done|]. split; [done|]. rewrite Hcont. lia.
  - intros Hnoroom. unfold encodeVarintGenesis. cbn zeta.
    cbn [encodeVarint_loop]. unfold store.
    destruct (Z.leb_spec 0 (offset - sovGenesis v)); [lia|]. cbn.
    by destruct (2 ^ 7 <=? v).
Qed.

(** X18. A varint written is the varint read: decoding, with the loop
    Unmarshal reads its tags with, at the index
    encodeVarintGenesis returns gives back the value that was encoded and
    stops at the offset it was encoded below. *)
Theorem encodeVarintGenesis_round_trip (dAtA dAtA' : list Z)
    (offset base v : Z) :
  0 <= v < 2 ^ 64 ->
  encodeVarintGenesis dAtA offset v = Returns (dAtA', base) ->
  offset <= Z.of_nat (length dAtA) ->
  decodeVarint dAtA' base = Returns (v, offset).
Proof.
  intros Hv Hencode Hoffset.
  pose proof (sovGenesis_range v Hv) as (Hsov & _).
  destruct (Z.lt_ge_cases offset (sovGenesis v)) as [Hnoroom|Hroom].
  { unfold encodeVarintGenesis in Hencode. cbn zeta in Hencode.
    cbn [encodeVarint_loop] in Hencode. unfold store in Hencode.
    destruct (Z.leb_spec 0 (offset - sovGenesis v)); [lia|]. cbn in Hencode.
    by destruct (2 ^ 7 <=? v). }
  unfold encodeVarintGenesis in Hencode. cbn zeta in Hencode.
  destruct (encode_decode_rounds 10 v dAtA (offset - sovGenesis v))
    as (dAtA1 & Hrun & Hlen & _ & _ & Hread); try lia.
  rewrite Hrun in Hencode. injection Hencode as <- <-.
  unfold decodeVarint. rewrite (Hread 11%nat 0 0) by lia.
  f_equal. f_equal; lia.
Qed.

Lemma lor_uint64 (a b : Z) :
  0 <= a < 2 ^ 64 -> 0 <= b < 2 ^ 64 -> 0 <= Z.lor a b < 2 ^ 64.
Proof.
  intros Ha Hb. split; [apply Z.lor_nonneg; lia|].
  destruct (Z.eq_dec (Z.lor a b) 0) as [->|Hne]; [done|].
  apply Z.log2_lt_pow2; [pose proof (Z.lor_nonneg a b); lia|].
  rewrite Z.log2_lor by lia.
  destruct (Z.eq_dec a 0) as [->|]; destruct (Z.eq_dec b 0) as [->|];
    change (Z.log2 0) with 0;
    repeat match goal with
           | H : ?x <> 0 |- _ =>
               assert (Z.log2 x < 64) by (apply Z.log2_lt_pow2; lia);
               clear H
           end; lia.
Qed.

Lemma decodeVarint_loop_safe (rounds : nat) :
  forall (dAtA : list Z) (iNdEx shift wire : Z),
    0 <= iNdEx -> 0 <= shift -> 0 <= wire < 2 ^ 64 ->
    (0 < rounds)%nat -> 64 <= shift + 7 * (Z.of_nat rounds - 1) ->
    match decodeVarint_loop rounds dAtA (Z.of_nat (length dAtA)) iNdEx
            shift wire with
    | Returns (value, next) =>
        iNdEx < next <= Z.of_nat (length dAtA) /\
        7 * (next - iNdEx) <= 70 - shift /\
        0 <= value < 2 ^ 64
    | Fails e => e = ErrUnexpectedEOF \/ e = ErrIntOverflowGenesis
    | Panics => False
    | OutOfRounds => False
    end.
Proof.
  induction rounds as [|rounds IH];
    intros dAtA iNdEx shift wire Hi Hshift Hwire Hpos Hrounds.
  { lia. }
  cbn [decodeVarint_loop].
  destruct (Z.leb_spec 64 shift); [by right|].
  destruct (Z.leb_spec (Z.of_nat (length dAtA)) iNdEx); [by left|].
  destruct (lookup_lt_is_Some_2 dAtA (Z.to_nat iNdEx) ltac:(lia)) as [b Hb].
  rewrite (load_in_range _ _ _ Hi Hb). cbn zeta.
  assert (0 <= Z.lor wire (uint64 (Z.shiftl (uint64 (Z.land b 127)) shift))
          < 2 ^ 64) as Hwire'.
  { apply lor_uint64; [done|]. apply Z.mod_pos_bound. lia. }
  destruct (b <? 128).
  - split; [lia|]. split; [lia|]. done.
  - specialize (IH dAtA (iNdEx + 1) (shift + 7) _ ltac:(lia) ltac:(lia)
                  Hwire' ltac:(lia) ltac:(lia)).
    destruct (decodeVarint_loop _ _ _ _ _ _) as [[value next]| | |];
      [|done|done|done].
    lia.
Qed.

(** X19. The varint loop of Unmarshal is safe on any input: from any index
    that is not negative it never reads outside the buffer and always
    comes to an end within ten bytes. It returns a uint64 and an index
    beyond the one it started at, at most ten further and within the buffer,
    or fails with ErrUnexpectedEOF or ErrIntOverflowGenesis. *)
Theorem decodeVarint_safe (dAtA : list Z) (iNdEx : Z) :
  0 <= iNdEx ->
  match decodeVarint dAtA iNdEx with
  | Returns (value, next) =>
      iNdEx < next <= Z.of_nat (length dAtA) /\ next <= iNdEx + 10 /\
      0 <= value < 2 ^ 64
  | Fails e => e = ErrUnexpectedEOF \/ e = ErrIntOverflowGenesis
  | Panics => False
  | OutOfRounds => False
  end.
Proof.
  intros Hi. unfold decodeVarint.
  pose proof (decodeVarint_loop_safe 11 dAtA iNdEx 0 0 Hi ltac:(lia)
                ltac:(lia) ltac:(lia) ltac:(lia)) as Hsafe.
  destruct (decodeVarint_loop _ _ _ _ _ _) as [[value next]| | |]; try done.
  lia.
Qed.
End Varints.

(** ** The wire encoding of GenesisState *)

Section Integers.

Lemma int_small (x : Z) : - 2 ^ 63 <= x < 2 ^ 63 -> int x = x.
Proof. intros Hx. unfold int. rewrite Z.mod_small; lia. Qed.

Lemma int_range (x : Z) : - 2 ^ 63 <= int x < 2 ^ 63.
Proof.
  unfold int. pose proof (Z.mod_pos_bound (x + 2 ^ 63) (2 ^ 64)). lia.
Qed.

Lemma uint64_small (x : Z) : 0 <= x < 2 ^ 64 -> uint64 x = x.
Proof. apply Z.mod_small. Qed.

Lemma int_of_uint64 (x : Z) : uint64 x < 2 ^ 63 -> int x = uint64 x.
Proof.
  unfold int, uint64. intros Hx.
  pose proof (Z.mod_pos_bound x (2 ^ 64) ltac:(lia)) as Hm.
  pose proof (Z.div_mod x (2 ^ 64) ltac:(lia)) as Hd.
  replace (x + 2 ^ 63)
    with (x mod 2 ^ 64 + 2 ^ 63 + (x / 2 ^ 64) * 2 ^ 64) by lia.
  rewrite Z.mod_add by lia. rewrite Z.mod_small; lia.
Qed.

Lemma lor_ge (a b : Z) : 0 <= a -> 0 <= b -> a <= Z.lor a b /\ b <= Z.lor a b.
Proof.
  assert (forall a b, 0 <= a -> 0 <= b -> a <= Z.lor a b) as Hle.
  { clear. intros a b Ha Hb.
    assert (Z.lor a b = Z.lor a (Z.ldiff b a)) as ->.
    { apply Z.bits_inj'. intros i _.
      rewrite !Z.lor_spec, Z.ldiff_spec.
      by destruct (Z.testbit a i), (Z.testbit b i). }
    rewrite <- Z.add_nocarry_lor
      by (rewrite Z.land_comm; apply Z.land_ldiff).
    pose proof (proj2 (Z.ldiff_nonneg b a) (or_introl Hb)). lia. }
  intros Ha Hb. split; [by apply Hle|]. rewrite Z.lor_comm. by apply Hle.
Qed.

End Integers.

Section VarintBytes.

Lemma encodeVarint_loop_stored (rounds : nat) :
  forall (v : Z) (dAtA dAtA' : list Z) (offset : Z),
    0 <= offset ->
    encodeVarint_loop rounds dAtA offset v = Returns dAtA' ->
    dAtA' = (take (Z.to_nat offset) dAtA ++ stored_groups rounds v
             ++ drop (Z.to_nat offset + length (stored_groups rounds v)) dAtA)%list.
Proof.
  induction rounds as [|rounds IH]; intros v dAtA dAtA' offset Hoffset Hrun;
    [done|].
  cbn [encodeVarint_loop stored_groups] in *.
  assert (forall b d, store dAtA offset b = Returns d ->
            (Z.to_nat offset < length dAtA)%nat /\
            d = <[Z.to_nat offset := b]> dAtA) as Hstore.
  { intros b d. unfold store.
    destruct (Z.leb_spec 0 offset); [|done].
    destruct (Z.ltb_spec offset (Z.of_nat (length dAtA))); [|done].
    cbn. intros [= <-]. split; [lia | done]. }
  destruct (2 ^ 7 <=? v).
  - destruct (store dAtA offset _) as [d| | |] eqn:Hd; try done.
    apply Hstore in Hd as [Hlt ->].
    apply IH in Hrun; [|lia]. rewrite Hrun.
    replace (Z.to_nat (offset + 1)) with (S (Z.to_nat offset)) by lia.
    rewrite (take_S_r _ _ (uint8 (Z.lor (Z.land v 127) 128)))
      by (by apply list_lookup_insert_eq).
    rewrite take_insert_ge by lia.
    rewrite drop_insert_lt by lia.
    rewrite <- app_assoc. cbn [app length]. do 4 f_equal. lia.
  - apply Hstore in Hrun as [Hlt ->].
    rewrite insert_take_drop by done. cbn [app length].
    do 3 f_equal. lia.
Qed.

Lemma stored_groups_length (rounds : nat) :
  forall v : Z,
    (0 < rounds)%nat -> 0 <= v < 2 ^ (7 * Z.of_nat rounds) ->
    Z.of_nat (length (stored_groups rounds v)) = sovGenesis v.
Proof.
  induction rounds as [|rounds IH]; intros v Hrounds Hv; [lia|].
  cbn [stored_groups]. change (2 ^ 7) with 128.
  destruct (Z.leb_spec 128 v) as [Hbig|Hsmall].
  - rewrite (sovGenesis_step v Hbig). cbn [length].
    rewrite Z.shiftr_div_pow2 by lia. change (2 ^ 7) with 128.
    assert (1 <= v / 128) as Hq by (apply Z.div_le_lower_bound; lia).
    assert (v / 128 < 2 ^ (7 * Z.of_nat rounds)) as Hrest.
    { apply Z.div_lt_upper_bound; [lia|].
      replace (7 * Z.of_nat (S rounds)) with (7 + 7 * Z.of_nat rounds) in Hv
        by lia.
      rewrite Z.pow_add_r in Hv by lia. change (2 ^ 7) with 128 in Hv. lia. }
    rewrite Nat2Z.inj_succ, IH; [lia | | lia].
    destruct rounds; [|lia]. change (2 ^ (7 * Z.of_nat 0)) with 1 in Hrest.
    lia.
  - by rewrite sovGenesis_small by lia.
Qed.

(** The bytes of a varint are those the loop stores, as many as sovGenesis
    says. *)
Lemma varint_stored (v : Z) :
  0 <= v < 2 ^ 64 ->
  varint v = stored_groups 10 v /\
  Z.of_nat (length (varint v)) = sovGenesis v.
Proof.
  intros Hv. pose proof (sovGenesis_range v Hv) as (Hsov & _).
  pose proof (stored_groups_length 10 v ltac:(lia) ltac:(lia)) as Hlen.
  assert (varint v = stored_groups 10 v) as Heq.
  { unfold varint, encodeVarintGenesis. cbn zeta.
    replace (sovGenesis v - sovGenesis v) with 0 by lia.
    destruct (encode_decode_rounds 10 v
                (replicate (Z.to_nat (sovGenesis v)) 0) 0)
      as (dAtA' & Hrun & _); try lia.
    { rewrite length_replicate. lia. }
    rewrite Hrun.
    apply encodeVarint_loop_stored in Hrun; [|lia]. rewrite Hrun.
    change (Z.to_nat 0) with 0%nat. rewrite take_0. cbn [app].
    rewrite drop_ge, app_nil_r; [done|]. rewrite length_replicate. lia. }
  by rewrite Heq.
Qed.

(** encodeVarintGenesis writes the bytes of the varint below the offset. *)
Lemma encodeVarintGenesis_varint (dAtA : list Z) (offset v : Z) :
  0 <= v < 2 ^ 64 ->
  sovGenesis v <= offset <= Z.of_nat (length dAtA) ->
  encodeVarintGenesis dAtA offset v
  = Returns ((take (Z.to_nat (offset - sovGenesis v)) dAtA ++ varint v
              ++ drop (Z.to_nat offset) dAtA)%list,
             offset - sovGenesis v).
Proof.
  intros Hv Hoffset. pose proof (sovGenesis_range v Hv) as (Hsov & _).
  destruct (varint_stored v Hv) as [Heq Hlen].
  unfold encodeVarintGenesis. cbn zeta.
  destruct (encode_decode_rounds 10 v dAtA (offset - sovGenesis v))
    as (dAtA' & Hrun & _); try lia.
  rewrite Hrun. apply encodeVarint_loop_stored in Hrun; [|lia].
  subst dAtA'. rewrite <- Heq. do 5 f_equal. lia.
Qed.

(** Reading, with the loop for a tag, where the bytes of a varint lie. *)
Lemma decodeVarint_loop_varint (before after : list Z) (v : Z) :
  0 <= v < 2 ^ 64 ->
  decodeVarint_loop 11 (before ++ varint v ++ after)
    (Z.of_nat (length (before ++ varint v ++ after)))
    (Z.of_nat (length before)) 0 0
  = Returns (v, Z.of_nat (length before) + sovGenesis v).
Proof.
  intros Hv. pose proof (sovGenesis_range v Hv) as (Hsov & _).
  destruct (varint_stored v Hv) as [Heq Hlen].
  destruct (encode_decode_rounds 10 v
              (before ++ replicate (Z.to_nat (sovGenesis v)) 0 ++ after)
              (Z.of_nat (length before)))
    as (dAtA' & Hrun & _ & _ & _ & Hread); try lia.
  { rewrite !length_app, length_replicate. lia. }
  apply encodeVarint_loop_stored in Hrun; [|lia].
  rewrite <- Heq, Nat2Z.id, take_app_length in Hrun.
  rewrite drop_app_add', drop_app_length' in Hrun
    by (rewrite ?length_replicate; lia).
  subst dAtA'. rewrite (Hread 11%nat 0 0) by lia.
  f_equal. f_equal. lia.
Qed.

(** Where the loop for a tag reads a value that fits an [int], the loop for
    a length reads the same. *)
Lemma decodeLength_loop_agrees (rounds : nat) :
  forall (dAtA : list Z) (l iNdEx shift wire value next : Z),
    0 <= shift -> 0 <= wire ->
    decodeVarint_loop rounds dAtA l iNdEx shift wire = Returns (value, next) ->
    value < 2 ^ 63 ->
    wire <= value /\
    decodeLength_loop rounds dAtA l iNdEx shift wire = Returns (value, next).
Proof.
  induction rounds as [|rounds IH];
    intros dAtA l iNdEx shift wire value next Hshift Hwire Hrun Hvalue;
    [done|].
  cbn [decodeVarint_loop decodeLength_loop] in *.
  destruct (64 <=? shift); [done|].
  destruct (l <=? iNdEx); [done|].
  destruct (load dAtA iNdEx) as [b| | |]; try done. cbn zeta in *.
  set (group := Z.shiftl (uint64 (Z.land b 127)) shift) in *.
  assert (0 <= uint64 group < 2 ^ 64) as Hgroup
    by (apply Z.mod_pos_bound; lia).
  destruct (lor_ge wire (uint64 group) ltac:(lia) ltac:(lia)) as [Hge1 Hge2].
  assert (Z.lor wire (uint64 group) < 2 ^ 63 ->
          int (Z.lor wire (int (Z.shiftl (Z.land b 127) shift)))
          = Z.lor wire (uint64 group)) as Hsame.
  { intros Hlt.
    assert (uint64 (Z.land b 127) = Z.land b 127) as Hbyte.
    { apply uint64_small. change 127 with (Z.ones 7).
      rewrite Z.land_ones by lia.
      pose proof (Z.mod_pos_bound b (2 ^ 7) ltac:(lia)). lia. }
    unfold group in *. rewrite Hbyte in *.
    rewrite (int_of_uint64 (Z.shiftl (Z.land b 127) shift)) by lia.
    apply int_small. lia. }
  destruct (b <? 128).
  - injection Hrun as <- <-. split; [lia|]. by rewrite Hsame.
  - apply IH in Hrun as [Hle Hrun]; [|lia|lia|done].
    split; [lia|]. by rewrite Hsame by lia.
Qed.

End VarintBytes.

(** Lists that are equal up to the nesting of their appends. *)
Ltac same_list :=
  repeat first [rewrite <- app_assoc | rewrite app_nil_r
               | progress cbn [app]];
  done.

(** Arithmetic on the lengths of appended lists. *)
Ltac list_length :=
  repeat first [rewrite length_app | rewrite length_replicate
               | rewrite length_insert | progress cbn [length]];
  lia.

Section FieldsOnTheWire.
Context {M : Type} `{!Message M}.

Lemma field_length (tag : Z) (bytes : list Z) :
  Z.of_nat (length bytes) < 2 ^ 64 ->
  Z.of_nat (length (field tag bytes))
  = 1 + sovGenesis (Z.of_nat (length bytes)) + Z.of_nat (length bytes).
Proof.
  intros Hlen. unfold field. cbn [length].
  destruct (varint_stored (Z.of_nat (length bytes)) ltac:(lia)) as [_ Hvar].
  rewrite length_app. lia.
Qed.

(** A field is written in the room it takes, next to what lies before and
    after it. *)
Lemma marshal_field_framed (sub : M) (bytes : list Z) (tag : Z)
    (before gap after : list Z) :
  marshals sub bytes ->
  length gap = length (field tag bytes) ->
  Z.of_nat (length (before ++ gap ++ after)) < 2 ^ 63 ->
  marshal_field sub tag (before ++ gap ++ after)
    (Z.of_nat (length before + length gap))
  = Returns ((before ++ field tag bytes ++ after)%list,
             Z.of_nat (length before)).
Proof.
  intros [Hsize Hwrite] Hgap Hfits.
  set (n := Z.of_nat (length bytes)) in *.
  assert (n < 2 ^ 63) as Hn.
  { rewrite !length_app, Hgap in Hfits. unfold field in Hfits.
    cbn [length] in Hfits. rewrite length_app in Hfits. lia. }
  destruct (varint_stored n ltac:(lia)) as [_ Hvar].
  pose proof (sovGenesis_range n ltac:(lia)) as (Hsov & _).
  assert (exists g gv gb, gap = (g :: gv ++ gb)%list /\
            length gv = length (varint n) /\ length gb = length bytes)
    as (g & gv & gb & -> & Hgv & Hgb).
  { unfold field in Hgap. cbn [length] in Hgap. rewrite length_app in Hgap.
    fold n in Hgap.
    destruct gap as [|g gap]; [done|]. cbn [length] in Hgap.
    exists g, (take (length (varint n)) gap),
      (drop (length (varint n)) gap).
    rewrite take_drop, length_take, length_drop. split; [done|]. lia. }
  clear Hgap. rewrite !length_app in Hfits. cbn [length] in Hfits.
  rewrite length_app in Hfits.
  unfold marshal_field.
  destruct (Z.leb_spec 0 (Z.of_nat (length before + length (g :: gv ++ gb))));
    [|lia].
  destruct (Z.leb_spec (Z.of_nat (length before + length (g :: gv ++ gb)))
              (Z.of_nat (length (before ++ (g :: gv ++ gb) ++ after))));
    [|rewrite !length_app in *; lia].
  cbn [andb negb length]. rewrite length_app.
  rewrite Hwrite by (rewrite !length_app; cbn [length];
                     rewrite !length_app; lia).
  cbn [mbind exec_bind]. fold n.
  assert ((take
             (Z.to_nat (Z.of_nat (length before + S (length gv + length gb)))
              - length bytes) (before ++ (g :: gv ++ gb) ++ after)
           ++ bytes
           ++ drop (Z.to_nat (Z.of_nat (length before
                                       + S (length gv + length gb))))
                (before ++ (g :: gv ++ gb) ++ after))%list
          = ((before ++ g :: gv) ++ bytes ++ after)%list) as ->.
  { rewrite Nat2Z.id. f_equal; [|f_equal].
    - replace (before ++ (g :: gv ++ gb) ++ after)%list
        with ((before ++ g :: gv) ++ gb ++ after)%list
        by same_list.
      apply take_app_length'. rewrite length_app. cbn [length]. lia.
    - replace (before ++ (g :: gv ++ gb) ++ after)%list
        with ((before ++ g :: gv ++ gb) ++ after)%list
        by same_list.
      apply drop_app_length'. rewrite length_app. cbn [length].
      rewrite length_app. lia. }
  assert (int (Z.of_nat (length before + S (length gv + length gb)) - n)
          = Z.of_nat (length before) + 1 + sovGenesis n) as ->.
  { rewrite int_small; lia. }
  rewrite (uint64_small n) by lia.
  rewrite encodeVarintGenesis_varint; [|lia|].
  2:{ list_length. }
  cbn [mbind exec_bind].
  replace (Z.of_nat (length before) + 1 + sovGenesis n - sovGenesis n)
    with (Z.of_nat (length (before ++ [g]))) by list_length.
  rewrite Nat2Z.id.
  replace ((before ++ g :: gv) ++ bytes ++ after)%list
    with ((before ++ [g]) ++ gv ++ bytes ++ after)%list at 1
    by same_list.
  rewrite take_app_length.
  replace (Z.to_nat (Z.of_nat (length before) + 1 + sovGenesis n))
    with (length (before ++ g :: gv))
    by list_length.
  rewrite drop_app_length.
  rewrite int_small by list_length.
  rewrite store_in_range by list_length.
  cbn [mbind exec_bind mret exec_ret]. do 2 f_equal; [|list_length].
  replace (Z.to_nat (Z.of_nat (length (before ++ [g])) - 1))
    with (length before + 0)%nat by list_length.
  rewrite <- !app_assoc. rewrite insert_app_r. unfold field.
  cbn [app insert list_insert]. same_list.
Qed.

End FieldsOnTheWire.

Section GenesisStateOnTheWire.
Context {Client Connection Channel ChannelV2 : Type}.
Context `{!Message Client, !Message Connection, !Message Channel,
          !Message ChannelV2}.
Implicit Types m : GenesisState Client Connection Channel ChannelV2.

Lemma marshal_field_at {M : Type} `{!Message M} (sub : M) (bytes : list Z)
    (tag : Z) (dAtA : list Z) (i : Z) (before gap after : list Z) :
  marshals sub bytes ->
  dAtA = (before ++ gap ++ after)%list ->
  length gap = length (field tag bytes) ->
  i = Z.of_nat (length before + length gap) ->
  Z.of_nat (length dAtA) < 2 ^ 63 ->
  marshal_field sub tag dAtA i
  = Returns ((before ++ field tag bytes ++ after)%list,
             Z.of_nat (length before)).
Proof. intros Hsub -> Hgap -> Hfits. by apply marshal_field_framed. Qed.

Lemma wire_format_length (b1 b2 b3 b4 : list Z) :
  length (wire_format b1 b2 b3 b4)
  = (length (field 0xa b1) + length (field 0x12 b2)
     + length (field 0x1a b3) + length (field 0x22 b4))%nat.
Proof. unfold wire_format. rewrite !length_app. lia. Qed.

Lemma field_longer (tag : Z) (bytes : list Z) :
  (length bytes < length (field tag bytes))%nat.
Proof. unfold field. cbn [length]. rewrite length_app. lia. Qed.

Lemma Size_wire_format m (b1 b2 b3 b4 : list Z) :
  marshals (ClientGenesis m) b1 -> marshals (ConnectionGenesis m) b2 ->
  marshals (ChannelGenesis m) b3 -> marshals (ChannelV2Genesis m) b4 ->
  Z.of_nat (length (wire_format b1 b2 b3 b4)) < 2 ^ 63 ->
  GenesisState_Size m = Z.of_nat (length (wire_format b1 b2 b3 b4)).
Proof.
  intros [H1 _] [H2 _] [H3 _] [H4 _] Hfits.
  rewrite wire_format_length in *.
  pose proof (field_longer 0xa b1). pose proof (field_longer 0x12 b2).
  pose proof (field_longer 0x1a b3). pose proof (field_longer 0x22 b4).
  pose proof (field_length 0xa b1 ltac:(lia)).
  pose proof (field_length 0x12 b2 ltac:(lia)).
  pose proof (field_length 0x1a b3 ltac:(lia)).
  pose proof (field_length 0x22 b4 ltac:(lia)).
  unfold GenesisState_Size. cbn zeta. rewrite H1, H2, H3, H4.
  rewrite !uint64_small by lia.
  rewrite (int_small (0 + _)) by lia.
  rewrite (int_small (0 + _ + _)) by lia.
  rewrite (int_small (0 + _ + _ + _)) by lia.
  rewrite (int_small (0 + _ + _ + _ + _)) by lia.
  lia.
Qed.

(** The fields are written at the end of the buffer, next to what lies
    before them. *)
Lemma MarshalToSizedBuffer_framed m (b1 b2 b3 b4 : list Z)
    (before gap : list Z) :
  marshals (ClientGenesis m) b1 -> marshals (ConnectionGenesis m) b2 ->
  marshals (ChannelGenesis m) b3 -> marshals (ChannelV2Genesis m) b4 ->
  length gap = length (wire_format b1 b2 b3 b4) ->
  Z.of_nat (length (before ++ gap)) < 2 ^ 63 ->
  GenesisState_MarshalToSizedBuffer m (before ++ gap)
  = Returns ((before ++ wire_format b1 b2 b3 b4)%list,
             Z.of_nat (length (wire_format b1 b2 b3 b4))).
Proof.
  intros H1 H2 H3 H4 Hgap Hfits.
  rewrite wire_format_length in *.
  set (k1 := length (field 0xa b1)) in *.
  set (k2 := length (field 0x12 b2)) in *.
  set (k3 := length (field 0x1a b3)) in *.
  set (k4 := length (field 0x22 b4)) in *.
  assert (exists g1 g2 g3 g4, gap = (g1 ++ g2 ++ g3 ++ g4)%list /\
            length g1 = k1 /\ length g2 = k2 /\ length g3 = k3 /\
            length g4 = k4) as (g1 & g2 & g3 & g4 & -> & Hg1 & Hg2 & Hg3 & Hg4).
  { exists (take k1 gap), (take k2 (drop k1 gap)),
      (take k3 (drop k2 (drop k1 gap))), (drop k3 (drop k2 (drop k1 gap))).
    rewrite !take_drop, !length_take, !length_drop. split; [done|]. lia. }
  clear Hgap. rewrite !length_app in Hfits.
  unfold GenesisState_MarshalToSizedBuffer. cbn zeta.
  rewrite (marshal_field_at _ b4 _ _ _ (before ++ g1 ++ g2 ++ g3) g4 []);
    [|done|same_list|done|list_length|list_length].
  cbn [mbind exec_bind].
  rewrite (marshal_field_at _ b3 _ _ _ (before ++ g1 ++ g2) g3
             (field 0x22 b4 ++ []));
    [|done|same_list|done|list_length|fold k4; list_length].
  cbn [mbind exec_bind].
  rewrite (marshal_field_at _ b2 _ _ _ (before ++ g1) g2
             (field 0x1a b3 ++ field 0x22 b4 ++ []));
    [|done|same_list|done|list_length|fold k3 k4; list_length].
  cbn [mbind exec_bind].
  rewrite (marshal_field_at _ b1 _ _ _ before g1
             (field 0x12 b2 ++ field 0x1a b3 ++ field 0x22 b4 ++ []));
    [|done|same_list|done|list_length|fold k2 k3 k4; list_length].
  cbn [mbind exec_bind mret exec_ret]. rewrite app_nil_r.
  f_equal. f_equal. rewrite int_small; rewrite !length_app; lia.
Qed.

Lemma Marshal_returns_wire_format m (b1 b2 b3 b4 : list Z) :
  marshals (ClientGenesis m) b1 -> marshals (ConnectionGenesis m) b2 ->
  marshals (ChannelGenesis m) b3 -> marshals (ChannelV2Genesis m) b4 ->
  Z.of_nat (length (wire_format b1 b2 b3 b4)) < 2 ^ 63 ->
  GenesisState_Marshal m = Returns (wire_format b1 b2 b3 b4) /\
  GenesisState_Size m = Z.of_nat (length (wire_format b1 b2 b3 b4)).
Proof.
  intros H1 H2 H3 H4 Hfits.
  pose proof (Size_wire_format m b1 b2 b3 b4 H1 H2 H3 H4 Hfits) as Hsize.
  split; [|done].
  unfold GenesisState_Marshal. cbn zeta. rewrite Hsize.
  set (data := wire_format b1 b2 b3 b4) in *.
  unfold make. destruct (Z.ltb_spec (Z.of_nat (length data)) 0); [lia|].
  cbn [mbind exec_bind]. rewrite Nat2Z.id.
  assert (forall l : list Z,
            slice l 0 (Z.of_nat (length l)) = Returns l) as Hwhole.
  { intros l. unfold slice. change (0 <=? 0) with true.
    rewrite (proj2 (Z.leb_le 0 (Z.of_nat (length l)))) by lia.
    rewrite Z.leb_refl. cbn [andb].
    rewrite Z.sub_0_r, Nat2Z.id. change (Z.to_nat 0) with 0%nat.
    rewrite drop_0, take_ge; [done|lia]. }
  rewrite <- (length_replicate (length data) 0) at 2.
  rewrite Hwhole. cbn [mbind exec_bind].
  pose proof (MarshalToSizedBuffer_framed m b1 b2 b3 b4 []
                (replicate (length data) 0) H1 H2 H3 H4) as Hrun.
  cbn [app] in Hrun. rewrite Hrun by (rewrite length_replicate; done || lia).
  cbn [mbind exec_bind]. apply Hwhole.
Qed.

(** X20. Marshal writes the wire format and Size is its length. If each
    field's message writes its bytes where MarshalToSizedBuffer tells it to
    and reports their number as its Size, then Marshal returns, for the
    fields 1 to 4 in this order, the tag byte (0xa, 0x12, 0x1a, 0x22), the
    number of the field's bytes as a varint and the field's bytes; and Size
    is the length of what Marshal returns. *)
Theorem Marshal_wire_format m (b1 b2 b3 b4 : list Z) :
  marshals (ClientGenesis m) b1 -> marshals (ConnectionGenesis m) b2 ->
  marshals (ChannelGenesis m) b3 -> marshals (ChannelV2Genesis m) b4 ->
  Z.of_nat (length (wire_format b1 b2 b3 b4)) < 2 ^ 63 ->
  GenesisState_Marshal m = Returns (wire_format b1 b2 b3 b4) /\
  GenesisState_Size m = Z.of_nat (length (wire_format b1 b2 b3 b4)).
Proof. apply Marshal_returns_wire_format. Qed.


(** X21. MarshalToSizedBuffer fills the end of the buffer. Under the same
    condition on the fields, on a buffer with room for the wire format the
    call writes it in the last cells, leaves the cells before them as they
    are, and returns the number of cells it wrote. *)
Theorem MarshalToSizedBuffer_fills_the_end m (b1 b2 b3 b4 : list Z)
    (dAtA : list Z) :
  marshals (ClientGenesis m) b1 -> marshals (ConnectionGenesis m) b2 ->
  marshals (ChannelGenesis m) b3 -> marshals (ChannelV2Genesis m) b4 ->
  (length (wire_format b1 b2 b3 b4) <= length dAtA)%nat ->
  Z.of_nat (length dAtA) < 2 ^ 63 ->
  GenesisState_MarshalToSizedBuffer m dAtA
  = Returns ((take (length dAtA - length (wire_format b1 b2 b3 b4)) dAtA
              ++ wire_format b1 b2 b3 b4)%list,
             Z.of_nat (length (wire_format b1 b2 b3 b4))).
Proof.
  intros H1 H2 H3 H4 Hroom Hfits.
  set (k := length (wire_format b1 b2 b3 b4)) in *.
  rewrite <- (take_drop (length dAtA - k) dAtA) at 1.
  apply MarshalToSizedBuffer_framed; try done.
  - rewrite length_drop. lia.
  - by rewrite take_drop.
Qed.

(** X22. XXX_Marshal returns the first cells of the buffer, while
    MarshalToSizedBuffer fills the last ones. With [deterministic] false and
    fields that marshal as above, the call returns the wire format on a
    buffer whose capacity is exactly Size. On a buffer with more room it
    returns as many cells as the wire format has, taken from the start of
    the buffer: the first of them, as many as the buffer has cells to
    spare, are what the buffer held before, and the rest is the start of
    the wire format. *)
Theorem XXX_Marshal_returns_first_cells m (b1 b2 b3 b4 : list Z)
    (b : list Z) :
  marshals (ClientGenesis m) b1 -> marshals (ConnectionGenesis m) b2 ->
  marshals (ChannelGenesis m) b3 -> marshals (ChannelV2Genesis m) b4 ->
  (length (wire_format b1 b2 b3 b4) <= length b)%nat ->
  Z.of_nat (length b) < 2 ^ 63 ->
  let data := wire_format b1 b2 b3 b4 in
  let spare := (length b - length data)%nat in
  GenesisState_XXX_Marshal m b
  = Returns (take (length data) (take spare b ++ data)) /\
  (spare = 0%nat -> GenesisState_XXX_Marshal m b = Returns data) /\
  (forall j : nat,
     (j < spare)%nat -> (j < length data)%nat ->
     take (length data) (take spare b ++ data) !! j = b !! j).
Proof.
  intros H1 H2 H3 H4 Hroom Hfits data spare. fold data in Hroom.
  assert (GenesisState_XXX_Marshal m b
          = Returns (take (length data) (take spare b ++ data))) as Hrun.
  { unfold GenesisState_XXX_Marshal.
    rewrite <- (take_drop spare b) at 1.
    rewrite (MarshalToSizedBuffer_framed m b1 b2 b3 b4); try done.
    - cbn [mbind exec_bind]. fold data. unfold slice.
      change (0 <=? 0) with true.
      rewrite (proj2 (Z.leb_le 0 (Z.of_nat (length data)))) by lia.
      rewrite (proj2 (Z.leb_le (Z.of_nat (length data)) _))
        by (rewrite length_app; lia).
      cbn [andb]. rewrite Z.sub_0_r, Nat2Z.id.
      change (Z.to_nat 0) with 0%nat. by rewrite drop_0.
    - rewrite length_drop. fold data. unfold spare. lia.
    - by rewrite take_drop. }
  split; [done|]. split.
  - intros Hspare. rewrite Hrun, Hspare, take_0. cbn [app].
    by rewrite take_ge by lia.
  - intros j Hj Hjdata. rewrite lookup_take_lt by done.
    rewrite lookup_app_l by (rewrite length_take; unfold spare in *; lia).
    by rewrite lookup_take_lt by done.
Qed.

Lemma varint_small (v : Z) : 0 <= v < 128 -> varint v = [v].
Proof.
  intros Hv. destruct (varint_stored v ltac:(lia)) as [-> _].
  cbn [stored_groups]. change (2 ^ 7) with 128.
  destruct (Z.leb_spec 128 v); [lia|]. unfold uint8.
  by rewrite Z.mod_small by lia.
Qed.

(** Reading a tag of one byte. *)
Lemma decodeVarint_loop_tag (before after : list Z) (tag : Z) :
  0 <= tag < 128 ->
  decodeVarint_loop 11 (before ++ tag :: after)
    (Z.of_nat (length (before ++ tag :: after)))
    (Z.of_nat (length before)) 0 0
  = Returns (tag, Z.of_nat (length before) + 1).
Proof.
  intros Htag.
  pose proof (decodeVarint_loop_varint before after tag ltac:(lia)) as Hread.
  rewrite varint_small, sovGenesis_small in Hread by lia. done.
Qed.

Lemma slice_middle (before bytes after : list Z) :
  slice (before ++ bytes ++ after) (Z.of_nat (length before))
    (Z.of_nat (length before) + Z.of_nat (length bytes))
  = Returns bytes.
Proof.
  unfold slice.
  rewrite (proj2 (Z.leb_le 0 _)) by lia.
  rewrite (proj2 (Z.leb_le (Z.of_nat (length before)) _)) by lia.
  rewrite (proj2 (Z.leb_le _ (Z.of_nat (length (before ++ bytes ++ after)))))
    by list_length.
  cbn [andb]. rewrite Nat2Z.id, drop_app_length.
  replace (Z.to_nat _) with (length bytes) by lia.
  by rewrite take_app_length.
Qed.

(** A case of the switch, where the length and the bytes of a field lie. *)
Lemma unmarshal_field_at {M : Type} `{!Message M} (name : string) (sub : M)
    (before bytes after : list Z) :
  let n := Z.of_nat (length bytes) in
  let dAtA := (before ++ varint n ++ bytes ++ after)%list in
  Z.of_nat (length dAtA) < 2 ^ 63 ->
  unmarshal_field name sub dAtA (Z.of_nat (length dAtA))
    (Z.of_nat (length before)) 2
  = sub' ← Unmarshal sub bytes;
    Returns (sub', Z.of_nat (length before) + sovGenesis n + n).
Proof.
  intros n dAtA Hfits.
  assert (n < 2 ^ 63) as Hn by (subst n dAtA; revert Hfits; list_length).
  destruct (varint_stored n ltac:(lia)) as [_ Hvar].
  pose proof (sovGenesis_range n ltac:(lia)) as (Hsov & _).
  assert (Z.of_nat (length dAtA)
          = Z.of_nat (length before) + sovGenesis n + n
            + Z.of_nat (length after)) as Hlen
    by (subst n dAtA; list_length).
  unfold unmarshal_field. cbn [Z.eqb Pos.eqb negb].
  pose proof (decodeVarint_loop_varint before (bytes ++ after) n
                ltac:(lia)) as Hread.
  subst dAtA. set (dAtA := (before ++ varint n ++ bytes ++ after)%list) in *.
  apply decodeLength_loop_agrees in Hread as [_ ->]; [|lia|lia|lia].
  cbn [mbind exec_bind].
  destruct (Z.ltb_spec n 0); [lia|].
  rewrite int_small by lia.
  destruct (Z.ltb_spec (Z.of_nat (length before) + sovGenesis n + n) 0);
    [lia|].
  destruct (Z.ltb_spec (Z.of_nat (length dAtA))
              (Z.of_nat (length before) + sovGenesis n + n)); [lia|].
  assert (slice dAtA (Z.of_nat (length before) + sovGenesis n)
            (Z.of_nat (length before) + sovGenesis n + n)
          = Returns bytes) as ->.
  { pose proof (slice_middle (before ++ varint n) bytes after) as Hslice.
    rewrite length_app, Nat2Z.inj_add, Hvar in Hslice.
    rewrite <- Hslice. subst dAtA. f_equal. same_list. }
  done.
Qed.

(** A round of the loop of Unmarshal where a field with the tag [tag], the
    number [number] and the name [name] lies: the field's message [sub]
    unmarshals the bytes of the field, and the loop goes on after it. *)
Ltac field_round tag number name sub :=
  let dAtA := fresh "dAtA" in
  let Hfits := fresh "Hfits" in
  let Hless := fresh "Hless" in
  let Hfield := fresh "Hfield" in
  let Hvar := fresh "Hvar" in
  intros dAtA Hfits; subst dAtA; unfold field in *;
  match goal with
  | |- context [(?before ++ (tag :: varint ?n ++ ?bytes) ++ ?after)%list] =>
      replace (before ++ (tag :: varint n ++ bytes) ++ after)%list
        with (before ++ tag :: varint n ++ bytes ++ after)%list in *
        by same_list;
      cbn [GenesisState_Unmarshal_loop];
      match goal with
      | |- context [?i <? ?l] =>
          destruct (Z.ltb_spec i l) as [Hless|Hless];
          [|revert Hless; list_length]
      end;
      rewrite decodeVarint_loop_tag by lia;
      cbn [mbind exec_bind];
      change (int (Z.land tag 7)) with 2;
      change (int32 (Z.shiftr tag 3)) with number;
      change (2 =? 4) with false; change (number <=? 0) with false;
      cbv iota;
      pose proof (unmarshal_field_at name sub (before ++ [tag]) bytes after)
        as Hfield;
      cbn zeta in Hfield;
      replace ((before ++ [tag]) ++ varint n ++ bytes ++ after)%list
        with (before ++ tag :: varint n ++ bytes ++ after)%list in Hfield
        by same_list;
      replace (Z.of_nat (length (before ++ [tag])))
        with (Z.of_nat (length before) + 1) in Hfield by list_length;
      rewrite Hfield by done;
      destruct (Unmarshal sub bytes) as [?| | |]; try done;
      cbn [mbind exec_bind]; f_equal;
      destruct (varint_stored n) as [_ Hvar];
      [revert Hfits; list_length | revert Hvar; list_length]
  end.

Lemma Unmarshal_loop_field1 (rounds : nat) m (before bytes after : list Z) :
  let dAtA := (before ++ field 0xa bytes ++ after)%list in
  Z.of_nat (length dAtA) < 2 ^ 63 ->
  GenesisState_Unmarshal_loop (S rounds) m dAtA (Z.of_nat (length dAtA))
    (Z.of_nat (length before))
  = sub ← Unmarshal (ClientGenesis m) bytes;
    GenesisState_Unmarshal_loop rounds
      {| ClientGenesis := sub;
         ConnectionGenesis := ConnectionGenesis m;
         ChannelGenesis := ChannelGenesis m;
         ChannelV2Genesis := ChannelV2Genesis m |}
      dAtA (Z.of_nat (length dAtA))
      (Z.of_nat (length (before ++ field 0xa bytes))).
Proof. field_round 0xa 1 "ClientGenesis" (ClientGenesis m). Qed.

Lemma Unmarshal_loop_field2 (rounds : nat) m (before bytes after : list Z) :
  let dAtA := (before ++ field 0x12 bytes ++ after)%list in
  Z.of_nat (length dAtA) < 2 ^ 63 ->
  GenesisState_Unmarshal_loop (S rounds) m dAtA (Z.of_nat (length dAtA))
    (Z.of_nat (length before))
  = sub ← Unmarshal (ConnectionGenesis m) bytes;
    GenesisState_Unmarshal_loop rounds
      {| ClientGenesis := ClientGenesis m;
         ConnectionGenesis := sub;
         ChannelGenesis := ChannelGenesis m;
         ChannelV2Genesis := ChannelV2Genesis m |}
      dAtA (Z.of_nat (length dAtA))
      (Z.of_nat (length (before ++ field 0x12 bytes))).
Proof. field_round 0x12 2 "ConnectionGenesis" (ConnectionGenesis m). Qed.

Lemma Unmarshal_loop_field3 (rounds : nat) m (before bytes after : list Z) :
  let dAtA := (before ++ field 0x1a bytes ++ after)%list in
  Z.of_nat (length dAtA) < 2 ^ 63 ->
  GenesisState_Unmarshal_loop (S rounds) m dAtA (Z.of_nat (length dAtA))
    (Z.of_nat (length before))
  = sub ← Unmarshal (ChannelGenesis m) bytes;
    GenesisState_Unmarshal_loop rounds
      {| ClientGenesis := ClientGenesis m;
         ConnectionGenesis := ConnectionGenesis m;
         ChannelGenesis := sub;
         ChannelV2Genesis := ChannelV2Genesis m |}
      dAtA (Z.of_nat (length dAtA))
      (Z.of_nat (length (before ++ field 0x1a bytes))).
Proof. field_round 0x1a 3 "ChannelGenesis" (ChannelGenesis m). Qed.

Lemma Unmarshal_loop_field4 (rounds : nat) m (before bytes after : list Z) :
  let dAtA := (before ++ field 0x22 bytes ++ after)%list in
  Z.of_nat (length dAtA) < 2 ^ 63 ->
  GenesisState_Unmarshal_loop (S rounds) m dAtA (Z.of_nat (length dAtA))
    (Z.of_nat (length before))
  = sub ← Unmarshal (ChannelV2Genesis m) bytes;
    GenesisState_Unmarshal_loop rounds
      {| ClientGenesis := ClientGenesis m;
         ConnectionGenesis := ConnectionGenesis m;
         ChannelGenesis := ChannelGenesis m;
         ChannelV2Genesis := sub |}
      dAtA (Z.of_nat (length dAtA))
      (Z.of_nat (length (before ++ field 0x22 bytes))).
Proof. field_round 0x22 4 "ChannelV2Genesis" (ChannelV2Genesis m). Qed.

(** The loop at the end of the bytes. *)
Lemma Unmarshal_loop_end (rounds : nat) m (dAtA : list Z) :
  GenesisState_Unmarshal_loop (S rounds) m dAtA (Z.of_nat (length dAtA))
    (Z.of_nat (length dAtA))
  = Returns m.
Proof. cbn [GenesisState_Unmarshal_loop]. by rewrite Z.ltb_irrefl. Qed.

(** Unmarshal reads the wire format: each field's message unmarshals the
    bytes of its field. *)
Lemma Unmarshal_reads_wire_format m (b1 b2 b3 b4 : list Z)
    (c1 : Client) (c2 : Connection) (c3 : Channel) (c4 : ChannelV2) :
  Unmarshal (ClientGenesis m) b1 = Returns c1 ->
  Unmarshal (ConnectionGenesis m) b2 = Returns c2 ->
  Unmarshal (ChannelGenesis m) b3 = Returns c3 ->
  Unmarshal (ChannelV2Genesis m) b4 = Returns c4 ->
  Z.of_nat (length (wire_format b1 b2 b3 b4)) < 2 ^ 63 ->
  GenesisState_Unmarshal m (wire_format b1 b2 b3 b4)
  = Returns {| ClientGenesis := c1; ConnectionGenesis := c2;
               ChannelGenesis := c3; ChannelV2Genesis := c4 |}.
Proof.
  intros H1 H2 H3 H4 Hfits. unfold GenesisState_Unmarshal. cbn zeta.
  assert (exists rounds,
            S (length (wire_format b1 b2 b3 b4))
            = S (S (S (S (S rounds))))) as [rounds ->].
  { exists (length (wire_format b1 b2 b3 b4) - 4)%nat.
    rewrite wire_format_length.
    pose proof (field_longer 0xa b1). pose proof (field_longer 0x12 b2).
    pose proof (field_longer 0x1a b3). pose proof (field_longer 0x22 b4).
    lia. }
  unfold wire_format in *.
  set (f1 := field 0xa b1) in *. set (f2 := field 0x12 b2) in *.
  set (f3 := field 0x1a b3) in *. set (f4 := field 0x22 b4) in *.
  pose proof (Unmarshal_loop_field1 (S (S (S (S rounds)))) m []
                b1 (f2 ++ f3 ++ f4)) as Hround.
  cbn zeta in Hround. cbn [app] in Hround. fold f1 in Hround.
  change (Z.of_nat (length (@nil Z))) with 0 in Hround.
  rewrite (Hround Hfits), H1. clear Hround. cbn [mbind exec_bind].
  match goal with
  | |- GenesisState_Unmarshal_loop _ ?m' _ _ _ = _ =>
      pose proof (Unmarshal_loop_field2 (S (S (S rounds))) m' f1
                    b2 (f3 ++ f4)) as Hround
  end.
  cbn zeta in Hround. fold f2 in Hround.
  rewrite (Hround Hfits). cbn [ConnectionGenesis]. rewrite H2.
  clear Hround. cbn [mbind exec_bind].
  match goal with
  | |- GenesisState_Unmarshal_loop _ ?m' _ _ _ = _ =>
      pose proof (Unmarshal_loop_field3 (S (S rounds)) m' (f1 ++ f2)
                    b3 f4) as Hround
  end.
  cbn zeta in Hround. fold f3 in Hround. rewrite <- !app_assoc in Hround.
  rewrite (Hround Hfits). cbn [ChannelGenesis]. rewrite H3.
  clear Hround. cbn [mbind exec_bind].
  match goal with
  | |- GenesisState_Unmarshal_loop _ ?m' _ _ _ = _ =>
      pose proof (Unmarshal_loop_field4 (S rounds) m' (f1 ++ f2 ++ f3)
                    b4 []) as Hround
  end.
  cbn zeta in Hround. fold f4 in Hround.
  rewrite <- !app_assoc, !app_nil_r in Hround.
  rewrite (Hround Hfits). cbn [ChannelV2Genesis]. rewrite H4.
  clear Hround. cbn [mbind exec_bind].
  by rewrite Unmarshal_loop_end.
Qed.

(** X23. Unmarshal reads back what Marshal writes. If each field's message
    writes its bytes where MarshalToSizedBuffer tells it to, and unmarshals
    from them the message that wrote them, then Marshal returns bytes from
    which Unmarshal, called on any message, leaves the message that was
    marshalled. *)
Theorem Unmarshal_Marshal m m0 (b1 b2 b3 b4 : list Z) :
  marshals (ClientGenesis m) b1 -> marshals (ConnectionGenesis m) b2 ->
  marshals (ChannelGenesis m) b3 -> marshals (ChannelV2Genesis m) b4 ->
  Z.of_nat (length (wire_format b1 b2 b3 b4)) < 2 ^ 63 ->
  Unmarshal (ClientGenesis m0) b1 = Returns (ClientGenesis m) ->
  Unmarshal (ConnectionGenesis m0) b2 = Returns (ConnectionGenesis m) ->
  Unmarshal (ChannelGenesis m0) b3 = Returns (ChannelGenesis m) ->
  Unmarshal (ChannelV2Genesis m0) b4 = Returns (ChannelV2Genesis m) ->
  exists dAtA,
    GenesisState_Marshal m = Returns dAtA /\
    GenesisState_Unmarshal m0 dAtA = Returns m.
Proof.
  intros H1 H2 H3 H4 Hfits Hc1 Hc2 Hc3 Hc4.
  exists (wire_format b1 b2 b3 b4). split.
  - by apply Marshal_returns_wire_format.
  - rewrite (Unmarshal_reads_wire_format m0 b1 b2 b3 b4 _ _ _ _
               Hc1 Hc2 Hc3 Hc4 Hfits).
    by destruct m.
Qed.

End GenesisStateOnTheWire.

(** ** Unmarshal on any bytes *)

Section AnyBytes.

Lemma int_add_nonneg (a b : Z) :
  0 <= a < 2 ^ 63 -> 0 <= b < 2 ^ 63 -> 0 <= int (a + b) ->
  int (a + b) = a + b.
Proof.
  intros Ha Hb Hsum.
  destruct (Z.lt_ge_cases (a + b) (2 ^ 63)) as [Hlt|Hge];
    [apply int_small; lia|].
  exfalso. revert Hsum. unfold int.
  replace (a + b + 2 ^ 63) with (a + b - 2 ^ 63 + 1 * 2 ^ 64) by lia.
  rewrite Z.mod_add by lia. rewrite Z.mod_small; lia.
Qed.

Lemma wire_type_range (wire : Z) :
  0 <= wire -> 0 <= int (Z.land wire 7) <= 7.
Proof.
  intros Hwire. change (Z.land wire 7) with (Z.land wire (Z.ones 3)).
  rewrite Z.land_ones by lia.
  pose proof (Z.mod_pos_bound wire (2 ^ 3) ltac:(lia)).
  rewrite int_small; lia.
Qed.

Lemma skipVarint_loop_safe (rounds : nat) :
  forall (dAtA : list Z) (iNdEx shift : Z),
    0 <= iNdEx -> 0 <= shift ->
    (0 < rounds)%nat -> 64 <= shift + 7 * (Z.of_nat rounds - 1) ->
    match skipVarint_loop rounds dAtA (Z.of_nat (length dAtA)) iNdEx shift with
    | Returns next => iNdEx < next <= Z.of_nat (length dAtA)
    | Fails _ => True
    | Panics | OutOfRounds => False
    end.
Proof.
  induction rounds as [|rounds IH];
    intros dAtA iNdEx shift Hi Hshift Hpos Hrounds; [lia|].
  cbn [skipVarint_loop].
  destruct (Z.leb_spec 64 shift); [done|].
  destruct (Z.leb_spec (Z.of_nat (length dAtA)) iNdEx); [done|].
  cbn zeta. replace (iNdEx + 1 - 1) with iNdEx by lia.
  destruct (lookup_lt_is_Some_2 dAtA (Z.to_nat iNdEx) ltac:(lia)) as [b Hb].
  rewrite (load_in_range _ _ _ Hi Hb).
  destruct (b <? 128); [lia|].
  specialize (IH dAtA (iNdEx + 1) (shift + 7) ltac:(lia) ltac:(lia)
                ltac:(lia) ltac:(lia)).
  destruct (skipVarint_loop _ _ _ _ _); try done. lia.
Qed.

Lemma decodeLength_loop_safe (rounds : nat) :
  forall (dAtA : list Z) (iNdEx shift msglen : Z),
    0 <= iNdEx -> 0 <= shift ->
    (0 < rounds)%nat -> 64 <= shift + 7 * (Z.of_nat rounds - 1) ->
    match decodeLength_loop rounds dAtA (Z.of_nat (length dAtA)) iNdEx
            shift msglen with
    | Returns (value, next) =>
        iNdEx < next <= Z.of_nat (length dAtA) /\
        - 2 ^ 63 <= value < 2 ^ 63
    | Fails _ => True
    | Panics | OutOfRounds => False
    end.
Proof.
  induction rounds as [|rounds IH];
    intros dAtA iNdEx shift msglen Hi Hshift Hpos Hrounds; [lia|].
  cbn [decodeLength_loop].
  destruct (Z.leb_spec 64 shift); [done|].
  destruct (Z.leb_spec (Z.of_nat (length dAtA)) iNdEx); [done|].
  destruct (lookup_lt_is_Some_2 dAtA (Z.to_nat iNdEx) ltac:(lia)) as [b Hb].
  rewrite (load_in_range _ _ _ Hi Hb). cbn zeta.
  destruct (b <? 128).
  - split; [lia|]. apply int_range.
  - specialize (IH dAtA (iNdEx + 1) (shift + 7)
                  (int (Z.lor msglen (int (Z.shiftl (Z.land b 127) shift))))
                  ltac:(lia) ltac:(lia) ltac:(lia) ltac:(lia)).
    destruct (decodeLength_loop _ _ _ _ _ _) as [[value next]| | |];
      try done.
    lia.
Qed.

Lemma skipGenesis_loop_safe (rounds : nat) :
  forall (dAtA : list Z) (iNdEx depth : Z),
    Z.of_nat (length dAtA) < 2 ^ 63 ->
    0 <= iNdEx ->
    (0 < rounds)%nat -> Z.of_nat (length dAtA) - iNdEx < Z.of_nat rounds ->
    match skipGenesis_loop rounds dAtA (Z.of_nat (length dAtA)) iNdEx depth
    with
    | Returns n => iNdEx < n < 2 ^ 63
    | Fails _ => True
    | Panics | OutOfRounds => False
    end.
Proof.
  induction rounds as [|rounds IH];
    intros dAtA iNdEx depth Hfits Hi Hpos Hrounds; [lia|].
  cbn [skipGenesis_loop].
  destruct (Z.ltb_spec iNdEx (Z.of_nat (length dAtA))) as [Hin|]; [|done].
  pose proof (decodeVarint_loop_safe 11 dAtA iNdEx 0 0 Hi ltac:(lia)
                ltac:(lia) ltac:(lia) ltac:(lia)) as Htag.
  destruct (decodeVarint_loop _ _ _ _ _ _) as [[wire next]| | |];
    try done.
  destruct Htag as (Hnext & _ & Hwire). cbn [mbind exec_bind].
  assert (forall iNdEx' depth',
            iNdEx < iNdEx' < 2 ^ 63 \/ iNdEx' < 0 ->
            match
              (if iNdEx' <? 0 then Fails ErrInvalidLengthGenesis
               else if depth' =? 0 then Returns iNdEx'
                    else skipGenesis_loop rounds dAtA
                           (Z.of_nat (length dAtA)) iNdEx' depth')
            with
            | Returns n => iNdEx < n < 2 ^ 63
            | Fails _ => True
            | Panics | OutOfRounds => False
            end) as Hrest.
  { intros iNdEx' depth' Hi'.
    destruct (Z.ltb_spec iNdEx' 0); [done|].
    destruct (depth' =? 0); [lia|].
    specialize (IH dAtA iNdEx' depth' Hfits ltac:(lia) ltac:(lia)
                  ltac:(lia)).
    destruct (skipGenesis_loop _ _ _ _ _); try done. lia. }
  assert (forall n, 0 <= n < 2 ^ 63 ->
            next <= int (next + n) < 2 ^ 63 \/ int (next + n) < 0) as Hadd.
  { intros n Hn. pose proof (int_range (next + n)).
    destruct (Z.lt_ge_cases (int (next + n)) 0) as [|Hsum]; [by right|left].
    pose proof (int_add_nonneg next n ltac:(lia) Hn Hsum). lia. }
  pose proof (wire_type_range wire ltac:(lia)) as Htype.
  set (wireType := int (Z.land wire 7)) in *.
  assert (wireType = 0 \/ wireType = 1 \/ wireType = 2 \/ wireType = 3 \/
          wireType = 4 \/ wireType = 5 \/ wireType = 6 \/ wireType = 7)
    as [->|[->|[->|[->|[->|[->|[->| ->]]]]]]] by lia;
    cbv iota; try done.
  - pose proof (skipVarint_loop_safe 11 dAtA next 0 ltac:(lia) ltac:(lia)
                  ltac:(lia) ltac:(lia)) as Hskip.
    destruct (skipVarint_loop _ _ _ _ _) as [next'| | |]; try done.
    cbn [mbind exec_bind mret exec_ret]. apply Hrest. lia.
  - cbn [mbind exec_bind]. apply Hrest.
    specialize (Hadd 8 ltac:(lia)). lia.
  - pose proof (decodeLength_loop_safe 11 dAtA next 0 0 ltac:(lia) ltac:(lia)
                  ltac:(lia) ltac:(lia)) as Hlength.
    destruct (decodeLength_loop _ _ _ _ _ _) as [[len next']| | |];
      try done.
    cbn [mbind exec_bind]. destruct (Z.ltb_spec len 0); [done|].
    cbn [mbind exec_bind]. apply Hrest.
    assert (forall n, 0 <= n < 2 ^ 63 ->
              next' <= int (next' + n) < 2 ^ 63 \/ int (next' + n) < 0)
      as Hadd'.
    { intros n Hn. pose proof (int_range (next' + n)).
      destruct (Z.lt_ge_cases (int (next' + n)) 0) as [|Hsum];
        [by right|left].
      pose proof (int_add_nonneg next' n ltac:(lia) Hn Hsum). lia. }
    specialize (Hadd' len ltac:(lia)). lia.
  - cbn [mbind exec_bind]. apply Hrest. lia.
  - destruct (depth =? 0); [done|]. cbn [mbind exec_bind]. apply Hrest. lia.
  - cbn [mbind exec_bind]. apply Hrest.
    specialize (Hadd 4 ltac:(lia)). lia.
Qed.

(** X24. skipGenesis is safe on any bytes: it never reads out of range and
    always comes to an end, with an error or with a number of bytes that is
    positive. *)
Theorem skipGenesis_safe (dAtA : list Z) :
  Z.of_nat (length dAtA) < 2 ^ 63 ->
  match skipGenesis dAtA with
  | Returns n => 0 < n < 2 ^ 63
  | Fails _ => True
  | Panics | OutOfRounds => False
  end.
Proof.
  intros Hfits. unfold skipGenesis. cbn zeta.
  apply skipGenesis_loop_safe; lia.
Qed.

End AnyBytes.

Section UnmarshalAnyBytes.
Context {Client Connection Channel ChannelV2 : Type}.
Context `{!Message Client, !Message Connection, !Message Channel,
          !Message ChannelV2}.
Implicit Types m : GenesisState Client Connection Channel ChannelV2.

Lemma switch_on_field {A : Type} (fieldNum : Z) (a1 a2 a3 a4 other : A) :
  match fieldNum with
  | 1 => a1 | 2 => a2 | 3 => a3 | 4 => a4 | _ => other
  end
  = if fieldNum =? 1 then a1
    else if fieldNum =? 2 then a2
    else if fieldNum =? 3 then a3
    else if fieldNum =? 4 then a4
    else other.
Proof.
  destruct fieldNum as [|p|p]; try done.
  do 3 (try destruct p as [p|p|]; try done).
Qed.

Lemma unmarshal_field_safe {M : Type} `{!Message M} (name : string) (sub : M)
    (dAtA : list Z) (iNdEx wireType : Z) :
  (forall (sub : M) (bytes : list Z), ends (Unmarshal sub bytes)) ->
  Z.of_nat (length dAtA) < 2 ^ 63 ->
  0 <= iNdEx ->
  match unmarshal_field name sub dAtA (Z.of_nat (length dAtA)) iNdEx wireType
  with
  | Returns (_, postIndex) => iNdEx < postIndex <= Z.of_nat (length dAtA)
  | Fails _ => True
  | Panics | OutOfRounds => False
  end.
Proof.
  intros Hsub Hfits Hi. unfold unmarshal_field.
  destruct (negb (wireType =? 2)); [done|].
  pose proof (decodeLength_loop_safe 11 dAtA iNdEx 0 0 Hi ltac:(lia)
                ltac:(lia) ltac:(lia)) as Hlength.
  destruct (decodeLength_loop _ _ _ _ _ _) as [[msglen next]| | |];
    try done.
  cbn [mbind exec_bind]. destruct Hlength as [Hnext Hmsglen].
  destruct (Z.ltb_spec msglen 0); [done|].
  destruct (Z.ltb_spec (int (next + msglen)) 0) as [|Hsum]; [done|].
  destruct (Z.ltb_spec (Z.of_nat (length dAtA)) (int (next + msglen)));
    [done|].
  pose proof (int_add_nonneg next msglen ltac:(lia) ltac:(lia) Hsum) as Hpost.
  unfold slice.
  rewrite (proj2 (Z.leb_le 0 next)) by lia.
  rewrite (proj2 (Z.leb_le next (int (next + msglen)))) by lia.
  rewrite (proj2 (Z.leb_le (int (next + msglen)) _)) by lia.
  cbn [andb mbind exec_bind].
  specialize (Hsub sub (take (Z.to_nat (int (next + msglen) - next))
                          (drop (Z.to_nat next) dAtA))).
  destruct (Unmarshal sub _); try done.
  cbn [mbind exec_bind mret exec_ret]. lia.
Qed.

Lemma skip_field_safe (dAtA : list Z) (preIndex : Z) :
  Z.of_nat (length dAtA) < 2 ^ 63 ->
  0 <= preIndex < Z.of_nat (length dAtA) ->
  match skip_field dAtA (Z.of_nat (length dAtA)) preIndex with
  | Returns iNdEx => preIndex < iNdEx <= Z.of_nat (length dAtA)
  | Fails _ => True
  | Panics | OutOfRounds => False
  end.
Proof.
  intros Hfits Hpre. unfold skip_field, slice. cbn zeta.
  rewrite (proj2 (Z.leb_le 0 preIndex)) by lia.
  rewrite (proj2 (Z.leb_le preIndex _)) by lia.
  rewrite Z.leb_refl. cbn [andb mbind exec_bind].
  set (rest := take _ _).
  assert (Z.of_nat (length rest) < 2 ^ 63) as Hrest.
  { subst rest. rewrite length_take, length_drop. lia. }
  pose proof (skipGenesis_loop_safe (S (length rest)) rest 0 0 Hrest
                ltac:(lia) ltac:(lia) ltac:(lia)) as Hskip.
  change (skipGenesis_loop (S (length rest)) rest (Z.of_nat (length rest))
            0 0) with (skipGenesis rest) in Hskip.
  destruct (skipGenesis rest) as [skippy| | |]; try done.
  cbn [mbind exec_bind].
  destruct (Z.ltb_spec skippy 0); [done|].
  destruct (Z.ltb_spec (int (preIndex + skippy)) 0) as [|Hsum]; [done|].
  cbn [orb].
  destruct (Z.ltb_spec (Z.of_nat (length dAtA)) (int (preIndex + skippy)));
    [done|].
  pose proof (int_add_nonneg preIndex skippy ltac:(lia) ltac:(lia) Hsum).
  lia.
Qed.

Lemma Unmarshal_loop_safe (rounds : nat) :
  forall m (dAtA : list Z) (iNdEx : Z),
    (forall (sub : Client) (bytes : list Z), ends (Unmarshal sub bytes)) ->
    (forall (sub : Connection) (bytes : list Z), ends (Unmarshal sub bytes)) ->
    (forall (sub : Channel) (bytes : list Z), ends (Unmarshal sub bytes)) ->
    (forall (sub : ChannelV2) (bytes : list Z), ends (Unmarshal sub bytes)) ->
    Z.of_nat (length dAtA) < 2 ^ 63 ->
    0 <= iNdEx ->
    (0 < rounds)%nat -> Z.of_nat (length dAtA) - iNdEx < Z.of_nat rounds ->
    ends (GenesisState_Unmarshal_loop rounds m dAtA (Z.of_nat (length dAtA))
            iNdEx).
Proof.
  induction rounds as [|rounds IH];
    intros m dAtA iNdEx H1 H2 H3 H4 Hfits Hi Hpos Hrounds; [lia|].
  cbn [GenesisState_Unmarshal_loop].
  destruct (Z.ltb_spec iNdEx (Z.of_nat (length dAtA))) as [Hin|].
  2:{ by destruct (Z.of_nat (length dAtA) <? iNdEx). }
  pose proof (decodeVarint_loop_safe 11 dAtA iNdEx 0 0 Hi ltac:(lia)
                ltac:(lia) ltac:(lia) ltac:(lia)) as Htag.
  destruct (decodeVarint_loop _ _ _ _ _ _) as [[wire next]| | |];
    try done.
  destruct Htag as (Hnext & _ & Hwire). cbn [mbind exec_bind].
  destruct (int (Z.land wire 7) =? 4); [done|].
  destruct (int32 (Z.shiftr wire 3) <=? 0); [done|].
  assert (forall m' iNdEx',
            iNdEx < iNdEx' <= Z.of_nat (length dAtA) ->
            ends (GenesisState_Unmarshal_loop rounds m' dAtA
                    (Z.of_nat (length dAtA)) iNdEx')) as Hrest.
  { intros m' iNdEx' Hi'. apply IH; try done; lia. }
  rewrite switch_on_field.
  destruct (int32 (Z.shiftr wire 3) =? 1).
  { pose proof (unmarshal_field_safe "ClientGenesis" (ClientGenesis m) dAtA
                  next (int (Z.land wire 7)) H1 Hfits ltac:(lia)) as Hfield.
    destruct (unmarshal_field _ _ _ _ _ _) as [[sub post]| | |]; try done.
    cbn [mbind exec_bind]. apply Hrest. lia. }
  destruct (int32 (Z.shiftr wire 3) =? 2).
  { pose proof (unmarshal_field_safe "ConnectionGenesis"
                  (ConnectionGenesis m) dAtA
                  next (int (Z.land wire 7)) H2 Hfits ltac:(lia)) as Hfield.
    destruct (unmarshal_field _ _ _ _ _ _) as [[sub post]| | |]; try done.
    cbn [mbind exec_bind]. apply Hrest. lia. }
  destruct (int32 (Z.shiftr wire 3) =? 3).
  { pose proof (unmarshal_field_safe "ChannelGenesis" (ChannelGenesis m) dAtA
                  next (int (Z.land wire 7)) H3 Hfits ltac:(lia)) as Hfield.
    destruct (unmarshal_field _ _ _ _ _ _) as [[sub post]| | |]; try done.
    cbn [mbind exec_bind]. apply Hrest. lia. }
  destruct (int32 (Z.shiftr wire 3) =? 4).
  { pose proof (unmarshal_field_safe "ChannelV2Genesis" (ChannelV2Genesis m)
                  dAtA
                  next (int (Z.land wire 7)) H4 Hfits ltac:(lia)) as Hfield.
    destruct (unmarshal_field _ _ _ _ _ _) as [[sub post]| | |]; try done.
    cbn [mbind exec_bind]. apply Hrest. lia. }
  pose proof (skip_field_safe dAtA iNdEx Hfits ltac:(lia)) as Hskip.
  destruct (skip_field _ _ _) as [post| | |]; try done.
  cbn [mbind exec_bind mret exec_ret]. apply Hrest. lia.
Qed.

(** X25. Unmarshal is safe on any bytes: whatever the bytes, if the
    Unmarshal of each field's message comes to an end without a panic, so
    does the Unmarshal of GenesisState, with the message or an error; it
    never reads out of range, and its loop always comes to an end. *)
Theorem Unmarshal_safe m (dAtA : list Z) :
  (forall (sub : Client) (bytes : list Z), ends (Unmarshal sub bytes)) ->
  (forall (sub : Connection) (bytes : list Z), ends (Unmarshal sub bytes)) ->
  (forall (sub : Channel) (bytes : list Z), ends (Unmarshal sub bytes)) ->
  (forall (sub : ChannelV2) (bytes : list Z), ends (Unmarshal sub bytes)) ->
  Z.of_nat (length dAtA) < 2 ^ 63 ->
  ends (GenesisState_Unmarshal m dAtA).
Proof.
  intros H1 H2 H3 H4 Hfits. unfold GenesisState_Unmarshal. cbn zeta.
  apply Unmarshal_loop_safe; try done; lia.
Qed.

End UnmarshalAnyBytes.

(** ** Fields one after another *)

Section Shifted.







End Shifted.

Section FieldByField.
Context {Client Connection Channel ChannelV2 : Type}.
Context `{!Message Client, !Message Connection, !Message Channel,
          !Message ChannelV2}.
Implicit Types m : GenesisState Client Connection Channel ChannelV2.




End FieldByField.

(** ** Fields with other numbers *)

Section OtherFields.
Context {Client Connection Channel ChannelV2 : Type}.
Context `{!Message Client, !Message Connection, !Message Channel,
          !Message ChannelV2}.
Implicit Types m : GenesisState Client Connection Channel ChannelV2.










End OtherFields.

(** ** The theorems at work on the reference implementation *)

Import Sim.

(** Escrowing 10 and unescrowing 25 from a total of 30 leaves 15. *)
Lemma escrow_total_conservation_witness :
  0 <= EscrowTotal ctx0 "uatom" /\
  exists ctx1,
    run_ops ops0 ctx0 = Done (None, ctx1) /\
    EscrowTotal ctx1 "uatom"
    = EscrowTotal ctx0 "uatom" + escrowed "uatom" ops0 - unescrowed "uatom" ops0 /\
    0 <= EscrowTotal ctx1 "uatom".
Proof.
  assert (Hnonneg : 0 <= EscrowTotal ctx0 "uatom") by (vm_compute; discriminate).
  assert (Hrun : run_ops ops0 ctx0
                 = Done (None, final_state ctx0 (run_ops ops0 ctx0)))
    by (vm_compute; reflexivity).
  split; [exact Hnonneg|].
  exact (escrow_total_conservation ops0 ctx0 _ "uatom" Hnonneg Hrun ops0 []
           eq_refl).
Defined.

Example escrow_total_after_ops0 :
  EscrowTotal (final_state ctx0 (run_ops ops0 ctx0)) "uatom" = 15.
Proof. vm_compute. reflexivity. Qed.

Lemma escrow_unescrow_results_witness :
  valid_coin (MkCoin "uatom" 10) /\
  EscrowTotal ctx0 "uatom" + 10 < 2 ^ MaxBitLen /\
  exists ctx',
    EscrowCoin "alice" escrow0 (MkCoin "uatom" 10) ctx0 = Done (None, ctx') /\
    EscrowTotal ctx' "uatom" = EscrowTotal ctx0 "uatom" + 10.
Proof.
  assert (Hvalid : valid_coin (MkCoin "uatom" 10)).
  { split; [reflexivity | simpl; lia]. }
  assert (Hnonneg : 0 <= EscrowTotal ctx0 (CoinDenom (MkCoin "uatom" 10)))
    by (vm_compute; discriminate).
  assert (Hsend : SendCoins (bank ctx0) "alice" escrow0
                    (coins_of (MkCoin "uatom" 10))
                  = (fst (SendCoins (bank ctx0) "alice" escrow0
                            (coins_of (MkCoin "uatom" 10))), None))
    by (vm_compute; reflexivity).
  assert (Hfits : EscrowTotal ctx0 (CoinDenom (MkCoin "uatom" 10))
                  + CoinAmount (MkCoin "uatom" 10) < 2 ^ MaxBitLen)
    by (vm_compute; reflexivity).
  split; [exact Hvalid|]. split; [exact Hfits|].
  destruct (proj1 (escrow_unescrow_results "alice" escrow0 "bob"
                     (MkCoin "uatom" 10) ctx0 Hvalid Hnonneg) _ Hsend Hfits)
    as (ctx' & Hrun & _ & Htotal).
  exists ctx'. split; [exact Hrun | exact Htotal].
Defined.

(** C4, as stated, fails on the code: with the largest sdkmath.Int in
    escrow, the funds move of 10 uatom into escrow succeeds and EscrowCoin
    does not return nil: adding the amount to the total panics. *)
Lemma escrow_total_overflow :
  valid_coin (MkCoin "uatom" 10) /\
  EscrowTotal ctx_full "uatom" = 2 ^ 256 - 1 /\
  snd (SendCoins (bank ctx_full) "alice" escrow0 (coins_of (MkCoin "uatom" 10)))
  = None /\
  EscrowCoin "alice" escrow0 (MkCoin "uatom" 10) ctx_full = Panic.
Proof.
  split; [split; [reflexivity | simpl; lia]|].
  split; [vm_compute; reflexivity|].
  split; vm_compute; reflexivity.
Qed.

(** The call on [tokens0]: its first token, 10 uatom, is escrowed; its
    second, 5 of a voucher that came in by channel-0, is burned from the
    state the first round left. *)
Lemma send_direction_witness :
  let ctx1 := final_state ctx0
                (send_each "transfer" "channel-0" "alice" [MkToken uatom "10"]
                   ctx0) in
  valid_slice heap0 tokens0 /\
  elements heap0 tokens0 = [MkToken uatom "10"; MkToken voucher_denom "5"] /\
  HasPrefix uatom "transfer" "channel-0" = false /\
  forget_heap (SendTransfer "transfer" "channel-0" tokens0 "alice" (ctx0, heap0))
  = match EscrowCoin "alice" (GetEscrowAddress "transfer" "channel-0")
            (MkCoin "uatom" 10) ctx0 with
    | Done (None, ctx2) =>
        send_each "transfer" "channel-0" "alice" [MkToken voucher_denom "5"] ctx2
    | Done (Some err, ctx2) => Done (Some err, ctx2)
    | Panic => Panic
    end /\
  HasPrefix voucher_denom "transfer" "channel-0" = true /\
  forget_heap (SendTransfer "transfer" "channel-0" tokens0 "alice" (ctx0, heap0))
  = match burn_from_sender "alice" (MkCoin (IBCDenom voucher_denom) 5) ctx1 with
    | Done (None, ctx2) => send_each "transfer" "channel-0" "alice" [] ctx2
    | Done (Some err, ctx2) => Done (Some err, ctx2)
    | Panic => Panic
    end.
Proof.
  intros ctx1.
  assert (Hvalid : valid_slice heap0 tokens0).
  { split; [simpl; lia|]. eexists. split; reflexivity. }
  assert (Hgate : SendEnabled (params ctx0) = true) by reflexivity.
  assert (Hsender : IsBlockedAddr "alice" = false) by reflexivity.
  assert (Hfirst : elements heap0 tokens0
                   = ([] ++ MkToken uatom "10" :: [MkToken voucher_denom "5"])%list)
    by reflexivity.
  assert (Hsecond : elements heap0 tokens0
                    = ([MkToken uatom "10"] ++ MkToken voucher_denom "5" :: [])%list)
    by reflexivity.
  assert (Hnone : send_each "transfer" "channel-0" "alice" [] ctx0
                  = Done (None, ctx0)) by reflexivity.
  assert (Hone : send_each "transfer" "channel-0" "alice" [MkToken uatom "10"]
                   ctx0 = Done (None, ctx1)) by (vm_compute; reflexivity).
  assert (Hcoin1 : ToCoin (MkToken uatom "10") = Done (Ok (MkCoin "uatom" 10)))
    by (vm_compute; reflexivity).
  assert (Hcoin2 : ToCoin (MkToken voucher_denom "5")
                   = Done (Ok (MkCoin (IBCDenom voucher_denom) 5)))
    by (vm_compute; reflexivity).
  assert (Hallowed1 : IsSendEnabledCoins (bank ctx0) (MkCoin "uatom" 10) = None)
    by reflexivity.
  assert (Hallowed2 : IsSendEnabledCoins (bank ctx1)
                        (MkCoin (IBCDenom voucher_denom) 5) = None)
    by (vm_compute; reflexivity).
  split; [exact Hvalid|]. split; [reflexivity|]. split; [reflexivity|].
  split.
  { exact (proj2 (send_direction "transfer" "channel-0" tokens0 "alice" []
                    [MkToken voucher_denom "5"] (MkToken uatom "10")
                    (MkCoin "uatom" 10) ctx0 ctx0 heap0
                    Hvalid Hgate Hsender Hfirst Hnone Hcoin1 Hallowed1)
             eq_refl). }
  split; [reflexivity|].
  exact (proj1 (proj1 (send_direction "transfer" "channel-0" tokens0 "alice"
                         [MkToken uatom "10"] [] (MkToken voucher_denom "5")
                         (MkCoin (IBCDenom voucher_denom) 5) ctx0 ctx1 heap0
                         Hvalid Hgate Hsender Hsecond Hone Hcoin2 Hallowed2)
                  eq_refl)).
Defined.

(** The packet [data0] received from channel-9 on channel-0: for its first
    token, 7 uatom, a voucher is minted under the denom with the hop
    (transfer, channel-0) in front; its second, 20 uatom coming back
    through channel-9, is unescrowed as uatom from the state the first
    round left. *)
Lemma receive_direction_witness :
  let minted := MkDenom "uatom" [NewHop "transfer" "channel-0"] in
  let voucher := MkCoin "ibc/transfer/channel-0/uatom" 7 in
  let ctx1 := final_state ctx0
                (OnRecvPacket_range "transfer" "channel-9" "transfer"
                   "channel-0" "bob" [MkToken uatom "7"] [] ctx0) in
  ValidateBasicV2 data0 = None /\
  getReceiverFromPacketData data0 = Ok "bob" /\
  Tokens data0 = [MkToken uatom "7"; returning] /\
  HasPrefix uatom "transfer" "channel-9" = false /\
  OnRecvPacket data0 "transfer" "channel-9" "transfer" "channel-0" ctx0
  = match mint_voucher "bob" voucher
            (set_events [DenomEvent (MkToken minted "7")]
               (register_if_unseen minted ctx0)) with
    | Done (None, ctx2) =>
        OnRecvPacket_range "transfer" "channel-9" "transfer" "channel-0" "bob"
          [returning] [voucher] ctx2
    | Done (Some err, ctx2) => Done (Err err, ctx2)
    | Panic => Panic
    end /\
  HasPrefix (TokenDenom returning) "transfer" "channel-9" = true /\
  OnRecvPacket data0 "transfer" "channel-9" "transfer" "channel-0" ctx0
  = match UnescrowCoin escrow0 "bob" (MkCoin "uatom" 20) ctx1 with
    | Done (None, ctx2) => Done (Ok [voucher; MkCoin "uatom" 20], ctx2)
    | Done (Some err, ctx2) => Done (Err err, ctx2)
    | Panic => Panic
    end.
Proof.
  intros minted voucher ctx1.
  assert (Hvalid : ValidateBasicV2 data0 = None) by reflexivity.
  assert (Hgate : ReceiveEnabled (params ctx0) = true) by reflexivity.
  assert (Hreceiver : getReceiverFromPacketData data0 = Ok "bob")
    by reflexivity.
  assert (Hallowed : IsBlockedAddr "bob" = false) by reflexivity.
  assert (Hfirst : Tokens data0
                   = ([] ++ MkToken uatom "7" :: [returning])%list)
    by reflexivity.
  assert (Hsecond : Tokens data0
                    = ([MkToken uatom "7"] ++ returning :: [])%list)
    by reflexivity.
  assert (Hnone : OnRecvPacket_range "transfer" "channel-9" "transfer"
                    "channel-0" "bob" [] [] ctx0 = Done (Ok [], ctx0))
    by reflexivity.
  assert (Hone : OnRecvPacket_range "transfer" "channel-9" "transfer"
                   "channel-0" "bob" [MkToken uatom "7"] [] ctx0
                 = Done (Ok [voucher], ctx1)) by (vm_compute; reflexivity).
  assert (Hamount1 : NewIntFromString (Amount (MkToken uatom "7")) = Some 7)
    by reflexivity.
  assert (Hamount2 : NewIntFromString (Amount returning) = Some 20)
    by reflexivity.
  assert (Hvoucher : NewCoin (IBCDenom minted) 7 = Done voucher)
    by (vm_compute; reflexivity).
  assert (Hcoin : NewCoin (IBCDenom (MkDenom "uatom" [])) 20
                  = Done (MkCoin "uatom" 20)) by (vm_compute; reflexivity).
  split; [exact Hvalid|]. split; [exact Hreceiver|]. split; [reflexivity|].
  split; [reflexivity|]. split.
  { exact (proj2 (receive_direction data0 "transfer" "channel-9" "transfer"
                    "channel-0" "bob" [] [returning] (MkToken uatom "7") 7 []
                    ctx0 ctx0 Hvalid Hgate Hreceiver Hallowed Hfirst Hnone
                    Hamount1)
             eq_refl minted voucher eq_refl Hvoucher). }
  split; [reflexivity|].
  destruct (proj1 (receive_direction data0 "transfer" "channel-9" "transfer"
                     "channel-0" "bob" [MkToken uatom "7"] [] returning 20
                     [voucher] ctx0 ctx1 Hvalid Hgate Hreceiver Hallowed
                     Hsecond Hone Hamount2)
              eq_refl) as (rest & Htrace & Hcall).
  injection Htrace as <-.
  exact (Hcall (MkCoin "uatom" 20) Hcoin).
Defined.

Example receive_data0 :
  value_of (OnRecvPacket data0 "transfer" "channel-9" "transfer" "channel-0" ctx0)
  = Some (Ok [MkCoin "ibc/transfer/channel-0/uatom" 7; MkCoin "uatom" 20]).
Proof. vm_compute. reflexivity. Qed.

(** The packet of [tokens0] times out: alice gets her 10 uatom back out of
    escrow, and 5 vouchers minted back. *)
Lemma acknowledgement_and_timeout_refund_witness :
  AccAddressFromBech32 (Sender data_sent) = Ok "alice" /\
  IsBlockedAddr "alice" = false /\
  OnTimeoutPacket "transfer" "channel-0" data_sent ctx0
  = refund_each "transfer" "channel-0" "alice" (Tokens data_sent) ctx0 /\
  HasPrefix uatom "transfer" "channel-0" = false /\
  HasPrefix voucher_denom "transfer" "channel-0" = true /\
  exists ctx',
    refund_each "transfer" "channel-0" "alice" (Tokens data_sent) ctx0
    = Done (None, ctx') /\
    OnAcknowledgementPacket "transfer" "channel-0" data_sent
      (Acknowledgement_Error "failed") ctx0 = Done (None, ctx') /\
    balance (bank ctx') "alice" "uatom" = balance (bank ctx0) "alice" "uatom" + 10 /\
    EscrowTotal ctx' "uatom" = EscrowTotal ctx0 "uatom" - 10 /\
    balance (bank ctx') "alice" (IBCDenom voucher_denom)
    = balance (bank ctx0) "alice" (IBCDenom voucher_denom) + 5.
Proof.
  pose proof (acknowledgement_and_timeout_refund "transfer" "channel-0"
                data_sent ctx0) as (_ & Hack & Htimeout & _).
  assert (Hrefund : OnTimeoutPacket "transfer" "channel-0" data_sent ctx0
                    = refund_each "transfer" "channel-0" "alice"
                        (Tokens data_sent) ctx0) by exact Htimeout.
  split; [reflexivity|]. split; [reflexivity|]. split; [exact Hrefund|].
  split; [reflexivity|]. split; [reflexivity|].
  exists (final_state ctx0
            (refund_each "transfer" "channel-0" "alice" (Tokens data_sent) ctx0)).
  split; [vm_compute; reflexivity|].
  split; [rewrite (Hack "failed"), Hrefund; vm_compute; reflexivity|].
  split; [vm_compute; reflexivity|]. split; vm_compute; reflexivity.
Defined.

(** C5, as stated, fails on the code: the sender of [data_from_blocked] is
    a blocked address, and neither the timeout nor the error
    acknowledgement refunds it; both return ErrUnauthorized and leave the
    state as it was, while the refund of its token would have taken 7 uatom
    out of escrow. So it is for [data_no_sender], whose sender is no
    address. *)
Lemma blocked_sender_is_not_refunded :
  AccAddressFromBech32 (Sender data_from_blocked) = Ok "blocked" /\
  IsBlockedAddr "blocked" = true /\
  (exists err,
     root_cause err = ErrUnauthorized /\
     OnTimeoutPacket "transfer" "channel-0" data_from_blocked ctx0
     = Done (Some err, ctx0) /\
     OnAcknowledgementPacket "transfer" "channel-0" data_from_blocked
       (Acknowledgement_Error "failed") ctx0 = Done (Some err, ctx0)) /\
  (exists ctx',
     refund_each "transfer" "channel-0" "blocked" (Tokens data_from_blocked)
       ctx0 = Done (None, ctx') /\
     balance (bank ctx') "blocked" "uatom"
     = balance (bank ctx0) "blocked" "uatom" + 7 /\
     EscrowTotal ctx' "uatom" = EscrowTotal ctx0 "uatom" - 7) /\
  exists err,
    AccAddressFromBech32 (Sender data_no_sender) = Err err /\
    OnTimeoutPacket "transfer" "channel-0" data_no_sender ctx0
    = Done (Some err, ctx0) /\
    OnAcknowledgementPacket "transfer" "channel-0" data_no_sender
      (Acknowledgement_Error "failed") ctx0 = Done (Some err, ctx0).
Proof.
  split; [reflexivity|]. split; [reflexivity|]. split; [|split].
  - eexists. split; [|split]; [|vm_compute; reflexivity|reflexivity].
    reflexivity.
  - eexists. split; [vm_compute; reflexivity|].
    split; vm_compute; reflexivity.
  - eexists. split; [reflexivity|]. split; reflexivity.
Qed.

Lemma gates_reject_without_effects_witness :
  SendEnabled (params ctx_off) = false /\
  SendTransfer "transfer" "channel-0" tokens0 "alice" (ctx_off, heap0)
  = Done (Some ErrSendDisabled, (ctx_off, heap0)) /\
  ValidateBasicV2 data_blocked = None /\
  getReceiverFromPacketData data_blocked = Ok "blocked" /\
  IsBlockedAddr "blocked" = true /\
  OnRecvPacket data_blocked "transfer" "channel-9" "transfer" "channel-0" ctx0
  = Done (Err (Wrapf ErrUnauthorized "%s is not allowed to receive funds"
                 [ArgAddress "blocked"]), ctx0).
Proof.
  split; [reflexivity|]. split.
  { exact (proj1 (@gates_reject_without_effects Bank _ _ _ _ _)
             "transfer" "channel-0" tokens0 "alice" ctx_off heap0 eq_refl). }
  split; [reflexivity|]. split; [reflexivity|]. split; [reflexivity|].
  exact (proj1 (proj2 (proj2 (proj2 (@gates_reject_without_effects Bank _ _ _ _ _))))
           data_blocked "transfer" "channel-9" "transfer" "channel-0" ctx0
           "blocked" eq_refl eq_refl eq_refl eq_refl).
Defined.

(** With the send gate off, a blocked sender is answered with
    ErrSendDisabled: the gate is tested first. *)
Example send_gate_off_blocked_sender :
  IsBlockedAddr "blocked" = true /\
  SendTransfer "transfer" "channel-0" tokens0 "blocked" (ctx_off, heap0)
  = Done (Some ErrSendDisabled, (ctx_off, heap0)).
Proof. split; reflexivity. Qed.

(** C7, as stated, fails on the code: with the receive gate off, packet
    data that does not pass validation (here a token of amount zero) is
    answered with the validation error, not with ErrReceiveDisabled. *)
Lemma receive_gate_off_invalid_data :
  ReceiveEnabled (params ctx_off) = false /\
  exists err,
    OnRecvPacket data_zero "transfer" "channel-9" "transfer" "channel-0" ctx_off
    = Done (Err err, ctx_off) /\
    root_cause err = ErrInvalidAmount /\
    root_cause err <> ErrReceiveDisabled.
Proof.
  split; [reflexivity|].
  eexists. split; [vm_compute; reflexivity|].
  split; [reflexivity | discriminate].
Qed.

Lemma v1_rejects_other_than_one_token_witness :
  length [MkToken uatom "1"; MkToken uatom "2"] <> 1%nat /\
  createPacketDataBytesFromVersion V1 "alice" "bob" "memo"
    [MkToken uatom "1"; MkToken uatom "2"] []
  = Done (Err (Wrapf ErrInvalidRequest "cannot transfer multiple coins with %s"
                 [ArgString V1])).
Proof.
  assert (Hlen : length [MkToken uatom "1"; MkToken uatom "2"] <> 1%nat)
    by (simpl; lia).
  split; [exact Hlen|].
  exact (proj1 (v1_rejects_other_than_one_token "alice" "bob" "memo"
                  [MkToken uatom "1"; MkToken uatom "2"] [] Hlen)).
Defined.

Lemma v2_memo_moves_to_forwarding_witness :
  [NewHop "transfer" "channel-1"] <> [] /\
  createPacketDataBytesFromVersion V2 "alice" "bob" "memo"
    [MkToken uatom "1"] [NewHop "transfer" "channel-1"]
  = emit_v2 (MkPacketDataV2 [MkToken uatom "1"] "alice" "bob" ""
               (MkForwarding "memo" [NewHop "transfer" "channel-1"])).
Proof.
  assert (Hhops : [NewHop "transfer" "channel-1"] <> []) by discriminate.
  split; [exact Hhops|].
  exact (proj1 (v2_memo_moves_to_forwarding "alice" "bob" "memo"
                  [MkToken uatom "1"] [NewHop "transfer" "channel-1"]) Hhops).
Defined.

Lemma SendTransfer_processes_each_token_once_witness :
  valid_slice heap0 tokens0 /\
  forget_heap (SendTransfer "transfer" "channel-0" tokens0 "alice" (ctx0, heap0))
  = send_each "transfer" "channel-0" "alice"
      [MkToken uatom "10"; MkToken voucher_denom "5"] ctx0.
Proof.
  assert (Hvalid : valid_slice heap0 tokens0).
  { split; [simpl; lia|]. eexists. split; reflexivity. }
  split; [exact Hvalid|].
  exact (proj1 (SendTransfer_processes_each_token_once "transfer" "channel-0"
                  tokens0 "alice" ctx0 heap0 Hvalid eq_refl eq_refl)).
Defined.

(** The call escrows 10 uatom and burns 5 vouchers; the appended copies
    change neither the totals nor the caller's two tokens. *)
Example SendTransfer_tokens0 :
  let o := SendTransfer "transfer" "channel-0" tokens0 "alice" (ctx0, heap0) in
  value_of o = Some None /\
  EscrowTotal (fst (final_state (ctx0, heap0) o)) "uatom" = 40 /\
  balance (bank (fst (final_state (ctx0, heap0) o))) "alice" "uatom" = 90 /\
  balance (bank (fst (final_state (ctx0, heap0) o))) "alice"
    (IBCDenom voucher_denom) = 45 /\
  elements (snd (final_state (ctx0, heap0) o)) tokens0
  = [MkToken uatom "10"; MkToken voucher_denom "5"].
Proof. vm_compute. repeat split; reflexivity. Qed.

(** A forwarded packet whose revert fails: the error comes back and the
    acknowledgements written are those there were. *)
Example forwarded_revert_fails :
  let data := MkPacketDataV2 [MkToken voucher_denom "5"] "alice" "bob" ""
                (MkForwarding "" []) in
  exists err ctx',
    HandleForwardedPacketTimeout packet0 packet1 data ctx0
    = Done (Some err, ctx') /\ acks ctx' = acks ctx0.
Proof. do 2 eexists. split; vm_compute; reflexivity. Qed.


(** ** The further theorems at work on the reference implementation *)

Import SimCodec.

(** Sending the two tokens of [tokens0]: 10 uatom go into escrow, the
    voucher is burned. *)
Lemma SendTransfer_escrow_accounting_witness :
  valid_slice heap0 tokens0 /\
  exists ctx' h',
    SendTransfer "transfer" "channel-0" tokens0 "alice" (ctx0, heap0)
    = Done (None, (ctx', h')) /\
    same_frame ctx0 ctx' /\
    forall denom,
      EscrowTotal ctx' denom
      = EscrowTotal ctx0 denom
        + source_amount "transfer" "channel-0" denom (elements heap0 tokens0).
Proof.
  assert (Hvalid : valid_slice heap0 tokens0).
  { split; [simpl; lia|]. eexists. split; reflexivity. }
  set (o := SendTransfer "transfer" "channel-0" tokens0 "alice" (ctx0, heap0)).
  assert (Hrun : o = Done (None, (fst (final_state (ctx0, heap0) o),
                                  snd (final_state (ctx0, heap0) o))))
    by (vm_compute; reflexivity).
  split; [exact Hvalid|].
  exists (fst (final_state (ctx0, heap0) o)), (snd (final_state (ctx0, heap0) o)).
  split; [exact Hrun|].
  exact (SendTransfer_escrow_accounting "transfer" "channel-0" tokens0 "alice"
           ctx0 _ heap0 _ Hvalid Hrun).
Defined.

(** The second token of [tokens1] fails in the bank: the call returns its
    error, the first token stays escrowed. *)
Lemma SendTransfer_stops_at_first_error_witness :
  valid_slice heap1 tokens1 /\
  elements heap1 tokens1
  = ([MkToken uatom "10"] ++ MkToken uatom "1000" :: [])%list /\
  exists err ctx1 ctx2,
    send_each "transfer" "channel-0" "alice" [MkToken uatom "10"] ctx0
    = Done (None, ctx1) /\
    SendTransfer_body "transfer" "channel-0" "alice" (MkToken uatom "1000") ctx1
    = Done (Some err, ctx2) /\
    forget_heap (SendTransfer "transfer" "channel-0" tokens1 "alice"
                   (ctx0, heap1))
    = Done (Some err, ctx2) /\
    EscrowTotal ctx2 "uatom" = EscrowTotal ctx0 "uatom" + 10.
Proof.
  assert (Hvalid : valid_slice heap1 tokens1).
  { split; [simpl; lia|]. eexists. split; reflexivity. }
  assert (Helements : elements heap1 tokens1
                      = ([MkToken uatom "10"] ++ MkToken uatom "1000" :: [])%list)
    by reflexivity.
  set (o1 := send_each "transfer" "channel-0" "alice" [MkToken uatom "10"] ctx0).
  set (ctx1 := final_state ctx0 o1).
  assert (Hbefore : o1 = Done (None, ctx1)) by (vm_compute; reflexivity).
  set (o2 := SendTransfer_body "transfer" "channel-0" "alice"
               (MkToken uatom "1000") ctx1).
  assert (Hbody : o2 = Done (Some (Foreign "insufficient funds"),
                             final_state ctx1 o2))
    by (vm_compute; reflexivity).
  assert (Henabled : SendEnabled (params ctx0) = true) by reflexivity.
  assert (Hsender : IsBlockedAddr "alice" = false) by reflexivity.
  split; [exact Hvalid|]. split; [exact Helements|].
  exists (Foreign "insufficient funds"), ctx1, (final_state ctx1 o2).
  split; [exact Hbefore|]. split; [exact Hbody|].
  destruct (SendTransfer_stops_at_first_error "transfer" "channel-0" tokens1
              "alice" [MkToken uatom "10"] [] (MkToken uatom "1000") _
              ctx0 ctx1 _ heap1 Hvalid Henabled Hsender Helements Hbefore Hbody)
    as [Hstop Htotals].
  split; [exact Hstop|]. exact (Htotals "uatom").
Defined.

(** A timeout of the packet that carried 7 uatom gives them back. *)
Lemma refund_escrow_accounting_witness :
  exists ctx',
    OnTimeoutPacket "transfer" "channel-0" data_refund ctx0 = Done (None, ctx') /\
    same_frame ctx0 ctx' /\
    EscrowTotal ctx' "uatom"
    = EscrowTotal ctx0 "uatom"
      - source_amount "transfer" "channel-0" "uatom" (Tokens data_refund).
Proof.
  set (o := OnTimeoutPacket "transfer" "channel-0" data_refund ctx0).
  assert (Hrun : o = Done (None, final_state ctx0 o))
    by (vm_compute; reflexivity).
  exists (final_state ctx0 o). split; [exact Hrun|].
  destruct (refund_escrow_accounting "transfer" "channel-0" data_refund ""
              ctx0 _ (or_introl Hrun)) as [Hframe Htotals].
  split; [exact Hframe | exact (Htotals "uatom")].
Defined.

Example refund_data_refund :
  EscrowTotal
    (final_state ctx0 (OnTimeoutPacket "transfer" "channel-0" data_refund ctx0))
    "uatom" = 23.
Proof. vm_compute. reflexivity. Qed.

(** The tokens of [tokens0], sent and timed out. *)
Lemma send_then_refund_restores_escrow_witness :
  valid_slice heap0 tokens0 /\
  Tokens data_sent = elements heap0 tokens0 /\
  exists ctx1 h1 ctx2,
    SendTransfer "transfer" "channel-0" tokens0 "alice" (ctx0, heap0)
    = Done (None, (ctx1, h1)) /\
    OnTimeoutPacket "transfer" "channel-0" data_sent ctx1 = Done (None, ctx2) /\
    forall denom, EscrowTotal ctx2 denom = EscrowTotal ctx0 denom.
Proof.
  assert (Hvalid : valid_slice heap0 tokens0).
  { split; [simpl; lia|]. eexists. split; reflexivity. }
  assert (Htokens : Tokens data_sent = elements heap0 tokens0) by reflexivity.
  set (o := SendTransfer "transfer" "channel-0" tokens0 "alice" (ctx0, heap0)).
  set (ctx1 := fst (final_state (ctx0, heap0) o)).
  assert (Hsend : o = Done (None, (ctx1, snd (final_state (ctx0, heap0) o))))
    by (vm_compute; reflexivity).
  set (o' := OnTimeoutPacket "transfer" "channel-0" data_sent ctx1).
  assert (Htimeout : o' = Done (None, final_state ctx1 o'))
    by (vm_compute; reflexivity).
  split; [exact Hvalid|]. split; [exact Htokens|].
  exists ctx1, (snd (final_state (ctx0, heap0) o)), (final_state ctx1 o').
  split; [exact Hsend|]. split; [exact Htimeout|].
  exact (send_then_refund_restores_escrow "transfer" "channel-0" tokens0
           "alice" data_sent ctx0 ctx1 _ heap0 _ Hvalid Htokens Hsend Htimeout).
Defined.

(** A refund to a blocked sender, and to a sender that is no address, is
    refused and changes nothing, on a timeout and on an error
    acknowledgement. *)
Lemma refund_gate_witness :
  AccAddressFromBech32 (Sender data_from_blocked) = Ok "blocked" /\
  IsBlockedAddr "blocked" = true /\
  (exists err,
     root_cause err = ErrUnauthorized /\
     OnTimeoutPacket "transfer" "channel-0" data_from_blocked ctx0
     = Done (Some err, ctx0) /\
     OnAcknowledgementPacket "transfer" "channel-0" data_from_blocked
       (Acknowledgement_Error "failed") ctx0 = Done (Some err, ctx0)) /\
  exists err,
    AccAddressFromBech32 (Sender data_no_sender) = Err err /\
    OnTimeoutPacket "transfer" "channel-0" data_no_sender ctx0
    = Done (Some err, ctx0) /\
    OnAcknowledgementPacket "transfer" "channel-0" data_no_sender
      (Acknowledgement_Error "failed") ctx0 = Done (Some err, ctx0).
Proof.
  assert (Hsender : AccAddressFromBech32 (Sender data_from_blocked)
                    = Ok "blocked") by reflexivity.
  assert (Hblocked : IsBlockedAddr "blocked" = true) by reflexivity.
  assert (Hnone : AccAddressFromBech32 (Sender data_no_sender)
                  = Err (Foreign "empty address string is not allowed"))
    by reflexivity.
  split; [exact Hsender|]. split; [exact Hblocked|]. split.
  - destruct (proj2 (refund_gate "transfer" "channel-0" data_from_blocked ctx0)
                "blocked" Hsender Hblocked) as (err & Hcause & Htimeout & Hack).
    exists err. split; [exact Hcause|]. split; [exact Htimeout|].
    exact (Hack "failed").
  - destruct (proj1 (refund_gate "transfer" "channel-0" data_no_sender ctx0)
                _ Hnone) as [Htimeout Hack].
    eexists. split; [exact Hnone|]. split; [exact Htimeout|].
    exact (Hack "failed").
Defined.

(** The packet [data0] received: 7 uatom as a voucher, 20 uatom out of
    escrow. *)
Lemma OnRecvPacket_received_coins_witness :
  exists coins ctx',
    OnRecvPacket data0 "transfer" "channel-9" "transfer" "channel-0" ctx0
    = Done (Ok coins, ctx') /\
    coins = map (received_coin "transfer" "channel-9" "transfer" "channel-0")
              (Tokens data0).
Proof.
  set (o := OnRecvPacket data0 "transfer" "channel-9" "transfer" "channel-0"
              ctx0).
  assert (Hrun : o = Done (Ok [MkCoin "ibc/transfer/channel-0/uatom" 7;
                               MkCoin "uatom" 20], final_state ctx0 o))
    by (vm_compute; reflexivity).
  exists [MkCoin "ibc/transfer/channel-0/uatom" 7; MkCoin "uatom" 20],
    (final_state ctx0 o).
  split; [exact Hrun|].
  exact (proj2 (OnRecvPacket_received_coins data0 "transfer" "channel-9"
                  "transfer" "channel-0" _ ctx0 _ Hrun)).
Defined.

Lemma OnRecvPacket_escrow_accounting_witness :
  exists coins ctx',
    OnRecvPacket data0 "transfer" "channel-9" "transfer" "channel-0" ctx0
    = Done (Ok coins, ctx') /\
    EscrowTotal ctx' "uatom"
    = EscrowTotal ctx0 "uatom"
      - returning_amount "transfer" "channel-9" "uatom" (Tokens data0).
Proof.
  set (o := OnRecvPacket data0 "transfer" "channel-9" "transfer" "channel-0"
              ctx0).
  assert (Hrun : o = Done (Ok [MkCoin "ibc/transfer/channel-0/uatom" 7;
                               MkCoin "uatom" 20], final_state ctx0 o))
    by (vm_compute; reflexivity).
  exists [MkCoin "ibc/transfer/channel-0/uatom" 7; MkCoin "uatom" 20],
    (final_state ctx0 o).
  split; [exact Hrun|].
  exact (proj2 (proj2 (OnRecvPacket_escrow_accounting data0 "transfer"
                         "channel-9" "transfer" "channel-0" _ ctx0 _ Hrun))
           "uatom").
Defined.

Lemma OnRecvPacket_registry_witness :
  let token := MkToken uatom "7" in
  let minted := MkDenom "uatom" [NewHop "transfer" "channel-0"] in
  exists r ctx',
    OnRecvPacket data0 "transfer" "channel-9" "transfer" "channel-0" ctx0
    = Done (r, ctx') /\
    denoms ctx0 ⊆ denoms ctx' /\
    (registry_ok ctx0 -> registry_ok ctx') /\
    minted_tokens "transfer" "channel-9" (Tokens data0) = [token] /\
    denoms ctx0 !! Hash minted = None /\
    denoms ctx' !! Hash minted = Some minted.
Proof.
  intros token minted.
  set (o := OnRecvPacket data0 "transfer" "channel-9" "transfer" "channel-0"
              ctx0).
  assert (Hrun : o = Done (Ok [MkCoin "ibc/transfer/channel-0/uatom" 7;
                               MkCoin "uatom" 20], final_state ctx0 o))
    by (vm_compute; reflexivity).
  assert (Hminted : minted_tokens "transfer" "channel-9" (Tokens data0)
                    = [token]) by reflexivity.
  assert (Hunseen : denoms ctx0 !! Hash minted = None) by reflexivity.
  assert (Hin : token ∈ minted_tokens "transfer" "channel-9" (Tokens data0)).
  { rewrite Hminted. apply list_elem_of_here. }
  exists (Ok [MkCoin "ibc/transfer/channel-0/uatom" 7; MkCoin "uatom" 20]),
    (final_state ctx0 o).
  split; [exact Hrun|].
  destruct (OnRecvPacket_registry data0 "transfer" "channel-9" "transfer"
              "channel-0" _ ctx0 _ Hrun) as (Hgrows & _ & Hok & Hentries).
  split; [exact Hgrows|]. split; [exact Hok|]. split; [exact Hminted|].
  split; [exact Hunseen|].
  destruct (Hentries _ eq_refl) as [_ Hentry].
  specialize (Hentry token Hin).
  change (received_denom "transfer" "channel-9" "transfer" "channel-0"
            (TokenDenom token)) with minted in Hentry.
  rewrite Hunseen in Hentry. destruct Hentry as [_ Hown].
  apply Hown. intros other Hother _.
  rewrite Hminted in Hother. by apply list_elem_of_singleton in Hother as ->.
Defined.

(** Two denoms of one packet with the same path: the registry keeps the
    first under their hash, and the second is not stored. *)
Example registry_keeps_the_first_denom_of_a_hash :
  let o := OnRecvPacket data_same_path "transfer" "channel-9" "transfer"
             "channel-0" ctx0 in
  let first := MkDenom "transfer/channel-5/uatom"
                 [NewHop "transfer" "channel-0"] in
  let second := MkDenom "uatom"
                  [NewHop "transfer" "channel-0"; NewHop "transfer" "channel-5"] in
  value_of o
  = Some (Ok [MkCoin (IBCDenom first) 1; MkCoin (IBCDenom second) 2]) /\
  first <> second /\
  Hash first = Hash second /\
  denoms (final_state ctx0 o) !! Hash second = Some first.
Proof. vm_compute. repeat split; try reflexivity. discriminate. Qed.

(** The voucher's coin is named again by the registry. *)
Lemma TokenFromCoin_ToCoin_round_trip_witness :
  IsNative voucher_denom = false /\
  denoms ctx_registry !! Hash voucher_denom = Some voucher_denom /\
  TokenFromCoin (MkCoin (IBCDenom voucher_denom) 5) ctx_registry
  = Done (Ok (MkToken voucher_denom "5"), ctx_registry).
Proof.
  assert (Hnative : IsNative voucher_denom = false) by reflexivity.
  assert (Hregistry : denoms ctx_registry !! Hash voucher_denom
                      = Some voucher_denom) by (vm_compute; reflexivity).
  assert (Hhex : ParseHexHash (HexString (Hash voucher_denom))
                 = Ok (Hash voucher_denom)) by reflexivity.
  assert (Hmeets : if IsNative voucher_denom
                   then String.prefix "ibc/" (Base voucher_denom) = false
                   else denoms ctx_registry !! Hash voucher_denom
                        = Some voucher_denom /\
                        ParseHexHash (HexString (Hash voucher_denom))
                        = Ok (Hash voucher_denom)).
  { rewrite Hnative. split; [exact Hregistry | exact Hhex]. }
  split; [exact Hnative|]. split; [exact Hregistry|].
  exact (proj1 (TokenFromCoin_ToCoin_round_trip voucher_denom 5 ctx_registry
                  Hmeets)).
Defined.

(** The voucher minted for the first token of [data0] is named again from
    its coin. *)
Lemma received_voucher_resolves_witness :
  let token := MkToken uatom "7" in
  let minted :=
    received_denom "transfer" "channel-9" "transfer" "channel-0" uatom in
  token ∈ minted_tokens "transfer" "channel-9" (Tokens data0) /\
  denoms ctx0 !! Hash minted = None /\
  exists coins ctx',
    OnRecvPacket data0 "transfer" "channel-9" "transfer" "channel-0" ctx0
    = Done (Ok coins, ctx') /\
    TokenFromCoin
      (received_coin "transfer" "channel-9" "transfer" "channel-0" token) ctx'
    = Done (Ok (MkToken minted "7"), ctx').
Proof.
  intros token minted.
  set (o := OnRecvPacket data0 "transfer" "channel-9" "transfer" "channel-0"
              ctx0).
  assert (Hrun : o = Done (Ok [MkCoin "ibc/transfer/channel-0/uatom" 7;
                               MkCoin "uatom" 20], final_state ctx0 o))
    by (vm_compute; reflexivity).
  assert (Hminted : minted_tokens "transfer" "channel-9" (Tokens data0)
                    = [token]) by reflexivity.
  assert (Hin : token ∈ minted_tokens "transfer" "channel-9" (Tokens data0)).
  { rewrite Hminted. apply list_elem_of_here. }
  assert (Hunseen : denoms ctx0 !! Hash minted = None) by reflexivity.
  assert (Hothers : forall other,
            other ∈ minted_tokens "transfer" "channel-9" (Tokens data0) ->
            Hash (received_denom "transfer" "channel-9" "transfer" "channel-0"
                    (TokenDenom other))
            = Hash (received_denom "transfer" "channel-9" "transfer"
                      "channel-0" (TokenDenom token)) ->
            received_denom "transfer" "channel-9" "transfer" "channel-0"
              (TokenDenom other)
            = received_denom "transfer" "channel-9" "transfer" "channel-0"
                (TokenDenom token)).
  { intros other Hother _. rewrite Hminted in Hother.
    apply list_elem_of_singleton in Hother. by rewrite Hother. }
  assert (Hhex : ParseHexHash (HexString (Hash minted)) = Ok (Hash minted))
    by reflexivity.
  split; [exact Hin|]. split; [exact Hunseen|].
  exists [MkCoin "ibc/transfer/channel-0/uatom" 7; MkCoin "uatom" 20],
    (final_state ctx0 o).
  split; [exact Hrun|].
  exact (received_voucher_resolves data0 "transfer" "channel-9" "transfer"
           "channel-0" _ token ctx0 _ Hrun Hin Hunseen Hothers Hhex).
Defined.

(** 10 uatom escrowed, then unescrowed. *)
Lemma escrow_then_unescrow_witness :
  0 <= EscrowTotal ctx0 "uatom" /\
  exists ctx1 r ctx2,
    EscrowCoin "alice" escrow0 (MkCoin "uatom" 10) ctx0 = Done (None, ctx1) /\
    UnescrowCoin escrow0 "bob" (MkCoin "uatom" 10) ctx1 = Done (r, ctx2) /\
    (r = None -> forall denom, EscrowTotal ctx2 denom = EscrowTotal ctx0 denom).
Proof.
  assert (Hnonneg : 0 <= EscrowTotal ctx0 (CoinDenom (MkCoin "uatom" 10)))
    by (vm_compute; discriminate).
  set (o := EscrowCoin "alice" escrow0 (MkCoin "uatom" 10) ctx0).
  assert (Hescrow : o = Done (None, final_state ctx0 o))
    by (vm_compute; reflexivity).
  split; [exact Hnonneg|].
  destruct (escrow_then_unescrow "alice" escrow0 "bob" (MkCoin "uatom" 10)
              ctx0 _ Hnonneg Hescrow) as (r & ctx2 & Hunescrow & Htotals).
  exists (final_state ctx0 o), r, ctx2.
  split; [exact Hescrow|]. split; [exact Hunescrow | exact Htotals].
Defined.

(** The voucher for 7 uatom that bob received through channel-0: sent back
    by bob through channel-0 it is burned, and received by the chain the
    uatom came from it takes 7 uatom out of escrow there. *)
Lemma voucher_goes_back_the_way_it_came_witness :
  let token := MkToken uatom "7" in
  let voucher := MkCoin "ibc/transfer/channel-0/uatom" 7 in
  let ctx1 := final_state ctx0
                (OnRecvPacket data0 "transfer" "channel-9" "transfer"
                   "channel-0" ctx0) in
  HasPrefix (TokenDenom token) "transfer" "channel-9" = false /\
  NewIntFromString (Amount token) = Some 7 /\
  voucher = received_coin "transfer" "channel-9" "transfer" "channel-0" token /\
  balance (bank ctx1) "bob" (CoinDenom voucher) = 7 /\
  valid_slice heap_back tokens_back /\
  elements heap_back tokens_back = [voucher_back] /\
  forget_heap (SendTransfer "transfer" "channel-0" tokens_back "bob"
                 (ctx1, heap_back))
  = match burn_from_sender "bob" voucher ctx1 with
    | Done (None, ctx2) => Done (None, ctx2)
    | Done (Some err, ctx2) => Done (Some err, ctx2)
    | Panic => Panic
    end /\
  (exists ctx2,
     burn_from_sender "bob" voucher ctx1 = Done (None, ctx2) /\
     balance (bank ctx2) "bob" (CoinDenom voucher) = 0 /\
     totalEscrow ctx2 = totalEscrow ctx1) /\
  OnRecvPacket data_back "transfer" "channel-0" "transfer" "channel-9" ctx_origin
  = match UnescrowCoin (GetEscrowAddress "transfer" "channel-9") "alice"
            (MkCoin "uatom" 7) ctx_origin with
    | Done (None, ctx2) => Done (Ok [MkCoin "uatom" 7], ctx2)
    | Done (Some err, ctx2) => Done (Err err, ctx2)
    | Panic => Panic
    end /\
  exists ctx2,
    UnescrowCoin (GetEscrowAddress "transfer" "channel-9") "alice"
      (MkCoin "uatom" 7) ctx_origin = Done (None, ctx2) /\
    balance (bank ctx2) "alice" "uatom" = 7 /\
    EscrowTotal ctx2 "uatom" = 0.
Proof.
  intros token voucher ctx1.
  assert (Hprefix : HasPrefix (TokenDenom token) "transfer" "channel-9" = false)
    by reflexivity.
  assert (Hamount : NewIntFromString (Amount token) = Some 7) by reflexivity.
  assert (Hcoin : NewCoin
                    (IBCDenom (received_denom "transfer" "channel-9" "transfer"
                                 "channel-0" (TokenDenom token))) 7
                  = Done voucher) by (vm_compute; reflexivity).
  assert (Hslice : valid_slice heap_back tokens_back).
  { split; [simpl; lia|]. eexists. split; reflexivity. }
  assert (Hgate : SendEnabled (params ctx1) = true) by (vm_compute; reflexivity).
  assert (Hsender : IsBlockedAddr "bob" = false) by reflexivity.
  assert (Helems : elements heap_back tokens_back
                   = ([] ++ MkToken (received_denom "transfer" "channel-9"
                                       "transfer" "channel-0" (TokenDenom token))
                              (Amount token) :: [])%list) by reflexivity.
  assert (Hnone : send_each "transfer" "channel-0" "bob" [] ctx1
                  = Done (None, ctx1)) by reflexivity.
  assert (Hallowed : IsSendEnabledCoins (bank ctx1) voucher = None)
    by (vm_compute; reflexivity).
  assert (Hvalid : ValidateBasicV2 data_back = None) by reflexivity.
  assert (Hopen : ReceiveEnabled (params ctx_origin) = true) by reflexivity.
  assert (Hreceiver : getReceiverFromPacketData data_back = Ok "alice")
    by reflexivity.
  assert (Hfree : IsBlockedAddr "alice" = false) by reflexivity.
  assert (Htokens : Tokens data_back
                    = ([] ++ MkToken (received_denom "transfer" "channel-9"
                                        "transfer" "channel-0" (TokenDenom token))
                               (Amount token) :: [])%list) by reflexivity.
  assert (Hfirst : OnRecvPacket_range "transfer" "channel-0" "transfer"
                     "channel-9" "alice" [] [] ctx_origin
                   = Done (Ok [], ctx_origin)) by reflexivity.
  assert (Horiginal : NewCoin (IBCDenom (TokenDenom token)) 7
                      = Done (MkCoin "uatom" 7)) by (vm_compute; reflexivity).
  split; [exact Hprefix|]. split; [exact Hamount|].
  destruct (voucher_goes_back_the_way_it_came "transfer" "channel-9"
              "transfer" "channel-0" token 7 voucher Hprefix Hamount Hcoin)
    as (Hvoucher & _ & Hsend & Hrecv).
  split; [exact Hvoucher|]. split; [vm_compute; reflexivity|].
  split; [exact Hslice|]. split; [reflexivity|]. split.
  { exact (Hsend tokens_back "bob" [] [] ctx1 ctx1 heap_back
             Hslice Hgate Hsender Helems Hnone Hallowed). }
  split.
  { exists (final_state ctx1 (burn_from_sender "bob" voucher ctx1)).
    split; [vm_compute; reflexivity|]. split; vm_compute; reflexivity. }
  split.
  { exact (Hrecv data_back "transfer" "channel-9" "alice" [] [] []
             (MkCoin "uatom" 7) ctx_origin ctx_origin
             Hvalid Hopen Hreceiver Hfree Htokens Hfirst Horiginal). }
  exists (final_state ctx_origin
            (UnescrowCoin (GetEscrowAddress "transfer" "channel-9") "alice"
               (MkCoin "uatom" 7) ctx_origin)).
  split; [vm_compute; reflexivity|]. split; vm_compute; reflexivity.
Defined.

(** The call on [tokens0] leaves the caller's two tokens where they are. *)
Lemma SendTransfer_writes_only_spare_capacity_witness :
  valid_slice heap0 tokens0 /\
  exists h',
    heap_of (SendTransfer "transfer" "channel-0" tokens0 "alice" (ctx0, heap0))
    = Some h' /\
    (length heap0 <= length h')%nat /\
    exists cells cells',
      heap0 !! array tokens0 = Some cells /\
      h' !! array tokens0 = Some cells' /\
      length cells' = length cells /\
      forall j,
        (j < offset tokens0 + len tokens0
         \/ offset tokens0 + cap tokens0 <= j)%nat ->
        cells' !! j = cells !! j.
Proof.
  assert (Hvalid : valid_slice heap0 tokens0).
  { split; [simpl; lia|]. eexists. split; reflexivity. }
  set (o := SendTransfer "transfer" "channel-0" tokens0 "alice" (ctx0, heap0)).
  assert (Hheap : heap_of o = Some (snd (final_state (ctx0, heap0) o)))
    by (vm_compute; reflexivity).
  split; [exact Hvalid|].
  exists (snd (final_state (ctx0, heap0) o)). split; [exact Hheap|].
  pose proof (SendTransfer_writes_only_spare_capacity "transfer" "channel-0"
                tokens0 "alice" ctx0 heap0 (snd (final_state (ctx0, heap0) o))
                Hvalid) as Hspare.
  destruct (Hspare Hheap) as (Hlength & _ & Hcells).
  split; [exact Hlength | exact Hcells].
Defined.

(** *** The wire encoding *)

(** 300 takes two bytes. *)
Lemma sovGenesis_bounds_witness :
  0 <= 300 < 2 ^ 64 /\
  1 <= sovGenesis 300 <= 10 /\
  300 < 2 ^ (7 * sovGenesis 300) /\
  (1 < sovGenesis 300 -> 2 ^ (7 * (sovGenesis 300 - 1)) <= 300).
Proof.
  assert (Hrange : 0 <= 300 < 2 ^ 64) by lia.
  split; [exact Hrange|]. exact (sovGenesis_bounds 300 Hrange).
Defined.

Example sovGenesis_300 : sovGenesis 300 = 2.
Proof. reflexivity. Qed.

Lemma encodeVarintGenesis_writes_witness :
  0 <= 300 < 2 ^ 64 /\
  sovGenesis 300 <= 5 <= Z.of_nat (length [0; 0; 0; 0; 0]) /\
  exists dAtA',
    encodeVarintGenesis [0; 0; 0; 0; 0] 5 300
    = Returns (dAtA', 5 - sovGenesis 300) /\
    length dAtA' = length [0; 0; 0; 0; 0] /\
    (forall j : nat,
       Z.of_nat j < 5 - sovGenesis 300 \/ 5 <= Z.of_nat j ->
       dAtA' !! j = [0; 0; 0; 0; 0] !! j) /\
    (forall j : nat,
       5 - sovGenesis 300 <= Z.of_nat j < 5 ->
       exists b, dAtA' !! j = Some b /\ 0 <= b < 256 /\
                 (128 <= b <-> Z.of_nat j < 5 - 1)).
Proof.
  assert (Hrange : 0 <= 300 < 2 ^ 64) by lia.
  assert (Hroom : sovGenesis 300 <= 5) by (vm_compute; discriminate).
  assert (Hoffset : 5 <= Z.of_nat (length [0; 0; 0; 0; 0])) by (simpl; lia).
  split; [exact Hrange|]. split; [exact (conj Hroom Hoffset)|].
  exact (proj1 (encodeVarintGenesis_writes [0; 0; 0; 0; 0] 5 300 Hrange Hoffset)
           Hroom).
Defined.

Lemma encodeVarintGenesis_round_trip_witness :
  0 <= 300 < 2 ^ 64 /\
  encodeVarintGenesis [0; 0; 0; 0; 0] 5 300 = Returns ([0; 0; 0; 172; 2], 3) /\
  decodeVarint [0; 0; 0; 172; 2] 3 = Returns (300, 5).
Proof.
  assert (Hrange : 0 <= 300 < 2 ^ 64) by lia.
  assert (Hencode : encodeVarintGenesis [0; 0; 0; 0; 0] 5 300
                    = Returns ([0; 0; 0; 172; 2], 3)) by reflexivity.
  assert (Hoffset : 5 <= Z.of_nat (length [0; 0; 0; 0; 0])) by (simpl; lia).
  split; [exact Hrange|]. split; [exact Hencode|].
  exact (encodeVarintGenesis_round_trip [0; 0; 0; 0; 0] _ 5 3 300 Hrange
           Hencode Hoffset).
Defined.

(** Ten bytes with the continuation bit: the loop gives up. *)
Lemma decodeVarint_safe_witness :
  0 <= 0 /\
  match decodeVarint (replicate 10 255) 0 with
  | Returns (value, next) =>
      0 < next <= Z.of_nat (length (replicate 10 255)) /\ next <= 0 + 10 /\
      0 <= value < 2 ^ 64
  | Fails e => e = ErrUnexpectedEOF \/ e = ErrIntOverflowGenesis
  | Panics => False
  | OutOfRounds => False
  end.
Proof.
  assert (Hindex : 0 <= 0) by lia.
  split; [exact Hindex|].
  exact (decodeVarint_safe (replicate 10 255) 0 Hindex).
Defined.

Example decodeVarint_overflow :
  decodeVarint (replicate 10 255) 0 = Fails ErrIntOverflowGenesis.
Proof. reflexivity. Qed.

(** A message that is its bytes writes them where it is told to. *)
Lemma bytes_marshals (m : list Z) : marshals m m.
Proof.
  split; [done|]. intros dAtA i Hi. cbn. unfold write_bytes.
  rewrite (proj2 (Z.leb_le _ _) (proj1 Hi)).
  by rewrite (proj2 (Z.leb_le _ _) (proj2 Hi)).
Qed.

Lemma Marshal_wire_format_witness :
  Z.of_nat (length bytes0) < 2 ^ 63 /\
  GenesisState_Marshal genesis0 = Returns bytes0 /\
  GenesisState_Size genesis0 = Z.of_nat (length bytes0).
Proof.
  assert (Hfits : Z.of_nat (length bytes0) < 2 ^ 63)
    by (vm_compute; reflexivity).
  split; [exact Hfits|].
  exact (Marshal_wire_format genesis0 [1; 2; 3] [] (replicate 200 7) [9]
           (bytes_marshals _) (bytes_marshals _) (bytes_marshals _)
           (bytes_marshals _) Hfits).
Defined.

Example wire_format_genesis0 :
  take 10 bytes0 = [10; 3; 1; 2; 3; 18; 0; 26; 200; 1] /\
  GenesisState_Size genesis0 = 213.
Proof. split; reflexivity. Qed.

Lemma MarshalToSizedBuffer_fills_the_end_witness :
  (length bytes0 <= length buffer0)%nat /\
  Z.of_nat (length buffer0) < 2 ^ 63 /\
  GenesisState_MarshalToSizedBuffer genesis0 buffer0
  = Returns ((take (length buffer0 - length bytes0) buffer0 ++ bytes0)%list,
             Z.of_nat (length bytes0)).
Proof.
  assert (Hroom : (length bytes0 <= length buffer0)%nat)
    by (vm_compute; lia).
  assert (Hfits : Z.of_nat (length buffer0) < 2 ^ 63)
    by (vm_compute; reflexivity).
  split; [exact Hroom|]. split; [exact Hfits|].
  exact (MarshalToSizedBuffer_fills_the_end genesis0 [1; 2; 3] []
           (replicate 200 7) [9] buffer0
           (bytes_marshals _) (bytes_marshals _) (bytes_marshals _)
           (bytes_marshals _) Hroom Hfits).
Defined.

(** On a buffer of 220 cells XXX_Marshal returns 213 cells of which the
    first 7 are the buffer's own. *)
Lemma XXX_Marshal_returns_first_cells_witness :
  (length bytes0 <= length buffer0)%nat /\
  Z.of_nat (length buffer0) < 2 ^ 63 /\
  GenesisState_XXX_Marshal genesis0 buffer0
  = Returns (take (length bytes0)
               (take (length buffer0 - length bytes0) buffer0 ++ bytes0)).
Proof.
  assert (Hroom : (length bytes0 <= length buffer0)%nat)
    by (vm_compute; lia).
  assert (Hfits : Z.of_nat (length buffer0) < 2 ^ 63)
    by (vm_compute; reflexivity).
  split; [exact Hroom|]. split; [exact Hfits|].
  exact (proj1 (XXX_Marshal_returns_first_cells genesis0 [1; 2; 3] []
                  (replicate 200 7) [9] buffer0
                  (bytes_marshals _) (bytes_marshals _) (bytes_marshals _)
                  (bytes_marshals _) Hroom Hfits)).
Defined.

Example XXX_Marshal_genesis0 :
  (bytes ← GenesisState_XXX_Marshal genesis0 buffer0;
   Returns (take 10 bytes))
  = Returns [1; 1; 1; 1; 1; 1; 1; 10; 3; 1].
Proof. reflexivity. Qed.

Lemma Unmarshal_Marshal_witness :
  Z.of_nat (length bytes0) < 2 ^ 63 /\
  exists dAtA,
    GenesisState_Marshal genesis0 = Returns dAtA /\
    GenesisState_Unmarshal genesis_empty dAtA = Returns genesis0.
Proof.
  assert (Hfits : Z.of_nat (length bytes0) < 2 ^ 63)
    by (vm_compute; reflexivity).
  split; [exact Hfits|].
  exact (Unmarshal_Marshal genesis0 genesis_empty [1; 2; 3] []
           (replicate 200 7) [9]
           (bytes_marshals _) (bytes_marshals _) (bytes_marshals _)
           (bytes_marshals _) Hfits eq_refl eq_refl eq_refl eq_refl).
Defined.

(** A field of eight bytes cut short: skipGenesis answers 9 on 2 bytes. *)
Lemma skipGenesis_safe_witness :
  Z.of_nat (length [0x29; 0x05]) < 2 ^ 63 /\
  match skipGenesis [0x29; 0x05] with
  | Returns n => 0 < n < 2 ^ 63
  | Fails _ => True
  | Panics | OutOfRounds => False
  end.
Proof.
  assert (Hfits : Z.of_nat (length [0x29; 0x05]) < 2 ^ 63)
    by (vm_compute; reflexivity).
  split; [exact Hfits|]. exact (skipGenesis_safe [0x29; 0x05] Hfits).
Defined.

Example skipGenesis_beyond_the_end : skipGenesis [0x29; 0x05] = Returns 9.
Proof. reflexivity. Qed.

Lemma Unmarshal_safe_witness :
  Z.of_nat (length [0x0a; 0x05; 0x63]) < 2 ^ 63 /\
  ends (GenesisState_Unmarshal genesis_empty [0x0a; 0x05; 0x63]).
Proof.
  assert (Hfits : Z.of_nat (length [0x0a; 0x05; 0x63]) < 2 ^ 63)
    by (vm_compute; reflexivity).
  assert (Hends : forall sub bytes : list Z, ends (Unmarshal sub bytes))
    by (intros sub bytes; exact I).
  split; [exact Hfits|].
  exact (Unmarshal_safe genesis_empty [0x0a; 0x05; 0x63] Hends Hends Hends
           Hends Hfits).
Defined.

Example Unmarshal_truncated :
  GenesisState_Unmarshal genesis_empty [0x0a; 0x05; 0x63]
  = Fails ErrUnexpectedEOF.
Proof. reflexivity. Qed.



Example other_field_bytes :
  (varint (8 * 5 + 2) ++ (varint 2 ++ [1; 2]) ++ field 0xa [7])%list
  = [0x2a; 2; 1; 2; 0xa; 1; 7].
Proof. reflexivity. Qed.
